(** * Assamese-to-English voice translation: codec, conditioning stage and
      pipeline orchestration

    A shallow embedding of the server-side JavaScript of the repository:

    - the WAV helper (imported by the servers as [./wavHelper.js]):
      [base64ToArrayBuffer], [pcmToWav], [writeString];
    - [audioPreprocess.js]: [preprocessAudioDSP];
    - [index1.js]: [translateAndSynthesize], [runTranslationPipeline], the
      [/api/translate] and [/api/text-translate] handlers;
    - the server with the [/api/translate-audio] endpoint:
      [speechToAssameseText], [translateAssameseToEnglish],
      [englishTextToSpeech] and the handler.

    JavaScript numbers that the code only uses as integers are [Z]; byte
    buffers are lists of [Z] in [0, 256); exceptions are an explicit outcome;
    the filesystem and the log of collaborator calls are threaded as state;
    [await] is sequencing.  Typed arrays are stored in the byte order of the
    host, taken to be little-endian. *)

From Stdlib Require Import ZArith Lia String Ascii.
From stdpp Require Import base list gmap strings.

Local Open Scope string_scope.
Local Open Scope Z_scope.

(** ** Exceptions and outcomes *)

(** The exceptions the modelled code can see.  [JsError] is [new Error(msg)]
    thrown by the repository's own code; the others are raised by the
    platform or by a collaborator. *)
Inductive error : Type :=
  | JsError (msg : string)
  | TypeError (msg : string)
  | RangeError (msg : string)
  | InvalidCharacterError (msg : string)
  | FsError (code : string) (syscall : string) (path : string)
  | ExternalError (msg : string).

(** [error.message] *)
Definition message (e : error) : string :=
  match e with
  | JsError m | TypeError m | RangeError m
  | InvalidCharacterError m | ExternalError m => m
  | FsError code syscall path => code ++ ": " ++ syscall ++ " '" ++ path ++ "'"
  end.

(** Result of evaluating a piece of code: a value, an exception that a
    surrounding [try]/[catch] (or a promise rejection handler) sees, or an
    exception that escapes from an event callback, which no handler of the
    awaiting caller ever observes. *)
Inductive outcome (A : Type) : Type :=
  | Ok (a : A)
  | Throw (e : error)
  | Uncaught (e : error).
Arguments Ok {A} a.
Arguments Throw {A} e.
Arguments Uncaught {A} e.

#[global] Instance outcome_ret : MRet outcome := fun A a => Ok a.
#[global] Instance outcome_bind : MBind outcome := fun A B k m =>
  match m with
  | Ok a => k a
  | Throw e => Throw e
  | Uncaught e => Uncaught e
  end.

(** ** Byte buffers, [DataView] and [Int16Array] *)

Module WavHelper.

(** Contents of an [ArrayBuffer]: one [Z] in [0, 256) per byte. *)
Abbreviation buffer := (list Z).

Definition is_byte (b : Z) : Prop := 0 <= b < 256.
Definition is_int16 (s : Z) : Prop := -32768 <= s < 32768.

(** Integer conversions applied by the [DataView] setters and by typed-array
    element stores. *)
Definition ToUint8 (v : Z) : Z := v mod 2 ^ 8.
Definition ToUint16 (v : Z) : Z := v mod 2 ^ 16.
Definition ToUint32 (v : Z) : Z := v mod 2 ^ 32.
Definition ToInt16 (v : Z) : Z :=
  let u := v mod 2 ^ 16 in if 2 ^ 15 <=? u then u - 2 ^ 16 else u.

(** Byte [k] (0 = least significant) of the two's complement form of [v]. *)
Definition byte_at (k : nat) (v : Z) : Z := (v / 256 ^ Z.of_nat k) mod 256.

(** [new ArrayBuffer(n)]: [n] zero bytes. *)
Definition ArrayBuffer (n : Z) : buffer := replicate (Z.to_nat n) 0.

Definition out_of_bounds : error :=
  RangeError "Offset is outside the bounds of the DataView".

(** [view.setUint8(off, v)] *)
Definition setUint8 (view : buffer) (off : nat) (v : Z) : outcome buffer :=
  if decide (off + 1 <= length view)%nat
  then Ok (<[off := byte_at 0 (ToUint8 v)]> view)
  else Throw out_of_bounds.

(** [view.setUint16(off, v, true)]: little-endian. *)
Definition setUint16 (view : buffer) (off : nat) (v : Z) : outcome buffer :=
  if decide (off + 2 <= length view)%nat
  then Ok (<[S off := byte_at 1 (ToUint16 v)]>
           (<[off := byte_at 0 (ToUint16 v)]> view))
  else Throw out_of_bounds.

(** [view.setUint32(off, v, true)]: little-endian. *)
Definition setUint32 (view : buffer) (off : nat) (v : Z) : outcome buffer :=
  if decide (off + 4 <= length view)%nat
  then Ok (<[S (S (S off)) := byte_at 3 (ToUint32 v)]>
           (<[S (S off) := byte_at 2 (ToUint32 v)]>
           (<[S off := byte_at 1 (ToUint32 v)]>
           (<[off := byte_at 0 (ToUint32 v)]> view))))
  else Throw out_of_bounds.

(** [view.getUint32(off, true)] and [view.getUint16(off, true)], used to read
    the header fields back. *)
Definition getUint16 (view : buffer) (off : nat) : option Z :=
  b0 ← view !! off; b1 ← view !! S off;
  Some (b0 + 256 * b1).

Definition getUint32 (view : buffer) (off : nat) : option Z :=
  b0 ← view !! off; b1 ← view !! S off;
  b2 ← view !! S (S off); b3 ← view !! S (S (S off));
  Some (b0 + 256 * b1 + 65536 * b2 + 16777216 * b3).

(** [string.charCodeAt(i)] for the characters of a string, in order. *)
Definition charCode (c : ascii) : Z := Z.of_nat (nat_of_ascii c).

(** [writeString(view, offset, string)]:
    [for (i = 0; i < string.length; i++) view.setUint8(offset + i, string.charCodeAt(i))] *)
Fixpoint writeString (view : buffer) (offset : nat) (s : string)
  : outcome buffer :=
  match s with
  | EmptyString => Ok view
  | String c rest =>
      view' ← setUint8 view offset (charCode c);
      writeString view' (S offset) rest
  end.

(** Element [i] of an [Int16Array] over bytes [lo], [hi] (little-endian host):
    the signed reading of the 16-bit word. *)
Definition int16_of_bytes (lo hi : Z) : Z :=
  ToInt16 (lo + 256 * hi).

(** The elements an [Int16Array] view exposes over a byte region of even
    length. *)
Fixpoint read_int16s (bs : buffer) : list Z :=
  match bs with
  | lo :: hi :: rest => int16_of_bytes lo hi :: read_int16s rest
  | _ => []
  end.

(** [new Int16Array(buffer, byteOffset)]: the view exists only when the offset
    is aligned, lies inside the buffer, and the remaining byte length is a
    multiple of 2; otherwise the constructor throws a [RangeError].  The value
    returned is the element sequence of the view. *)
Definition Int16Array (buf : buffer) (byteOffset : nat) : outcome (list Z) :=
  if negb (byteOffset mod 2 =? 0)%nat then
    Throw (RangeError "start offset of Int16Array should be a multiple of 2")
  else if (length buf <? byteOffset)%nat then
    Throw (RangeError "Start offset is outside the bounds of the buffer")
  else if negb ((length buf - byteOffset) mod 2 =? 0)%nat then
    Throw (RangeError "byte length of Int16Array should be a multiple of 2")
  else Ok (read_int16s (drop byteOffset buf)).

(** Storing the elements [src] through an [Int16Array] view that starts at
    byte [off] of [buf]: element [i] goes to bytes [off + 2i], [off + 2i + 1]. *)
Fixpoint write_int16s (buf : buffer) (off : nat) (src : list Z) : buffer :=
  match src with
  | [] => buf
  | s :: rest =>
      write_int16s
        (<[S off := byte_at 1 (ToInt16 s)]> (<[off := byte_at 0 (ToInt16 s)]> buf))
        (S (S off)) rest
  end.

(** [new Int16Array(buf, byteOffset).set(src)]: the constructor's checks, then
    [set] throws when the source is longer than the view. *)
Definition Int16Array_set (buf : buffer) (byteOffset : nat) (src : list Z)
  : outcome buffer :=
  view ← Int16Array buf byteOffset;
  if (length view <? length src)%nat
  then Throw (RangeError "offset is out of bounds")
  else Ok (write_int16s buf byteOffset src).

(** A [Blob]: its bytes and its media type. *)
Record Blob : Type := { blob_bytes : buffer; blob_type : string }.

(** [pcmToWav(pcmData, sampleRate)].  [pcmData] is the element sequence of the
    [Int16Array] argument; [sampleRate] is an integer-valued number.  The
    divisions by 8 are exact. *)
Definition pcmToWav (pcmData : list Z) (sampleRate : Z) : outcome Blob :=
  let numChannels := 1 in
  let bitsPerSample := 16 in
  let byteRate := (sampleRate * numChannels * bitsPerSample) / 8 in
  let blockAlign := (numChannels * bitsPerSample) / 8 in
  let dataSize := Z.of_nat (length pcmData) * (bitsPerSample / 8) in
  let totalSize := 44 + dataSize in
  let view := ArrayBuffer totalSize in
  view ← writeString view 0 "RIFF";
  view ← setUint32 view 4 (totalSize - 8);
  view ← writeString view 8 "WAVE";
  view ← writeString view 12 "fmt ";
  view ← setUint32 view 16 16;
  view ← setUint16 view 20 1;
  view ← setUint16 view 22 numChannels;
  view ← setUint32 view 24 sampleRate;
  view ← setUint32 view 28 byteRate;
  view ← setUint16 view 32 blockAlign;
  view ← setUint16 view 34 bitsPerSample;
  view ← writeString view 36 "data";
  view ← setUint32 view 40 dataSize;
  buffer ← Int16Array_set view 44 pcmData;
  Ok {| blob_bytes := buffer; blob_type := "audio/wav" |}.

(** *** Reading a container back *)

(** The bytes [write_int16s] stores for a sample sequence. *)
Definition pcm_bytes (src : list Z) : buffer :=
  flat_map (fun s => [byte_at 0 (ToInt16 s); byte_at 1 (ToInt16 s)]) src.

(** The 44 header bytes for [n] samples at rate [R]. *)
Definition wav_header (n : nat) (R : Z) : buffer :=
  let dataSize := Z.of_nat n * 2 in
  let u32 v := [byte_at 0 (ToUint32 v); byte_at 1 (ToUint32 v);
                byte_at 2 (ToUint32 v); byte_at 3 (ToUint32 v)] in
  let u16 v := [byte_at 0 (ToUint16 v); byte_at 1 (ToUint16 v)] in
  ([82; 73; 70; 70] ++ u32 (44 + dataSize - 8) ++ [87; 65; 86; 69]
   ++ [102; 109; 116; 32] ++ u32 16 ++ u16 1 ++ u16 1 ++ u32 R
   ++ u32 (R * 1 * 16 / 8) ++ u16 2 ++ u16 16 ++ [100; 97; 116; 97]
   ++ u32 dataSize)%list.

(** The four characters of [tag] are stored from byte [off] on. *)
Definition tag_at (b : buffer) (off : nat) (tag : string) : Prop :=
  take (String.length tag) (drop off b) = map charCode (list_ascii_of_string tag).

(** The header layout of a container of [N] samples at rate [R], field by
    field, with the fields read back as little-endian unsigned integers. *)
Definition header_layout (N : nat) (R : Z) (b : buffer) : Prop :=
  length b = (44 + 2 * N)%nat /\
  tag_at b 0 "RIFF" /\
  getUint32 b 4 = Some (36 + 2 * Z.of_nat N) /\
  tag_at b 8 "WAVE" /\
  tag_at b 12 "fmt " /\
  getUint32 b 16 = Some 16 /\
  getUint16 b 20 = Some 1 /\
  getUint16 b 22 = Some 1 /\
  getUint32 b 24 = Some R /\
  getUint32 b 28 = Some (R * 2) /\
  getUint16 b 32 = Some 2 /\
  getUint16 b 34 = Some 16 /\
  tag_at b 36 "data" /\
  getUint32 b 40 = Some (2 * Z.of_nat N).

End WavHelper.

(** ** Base64 payloads *)

Module Base64.
Import WavHelper.

(** The platform's [atob], following the "forgiving-base64 decode" algorithm
    it implements.  The binary string it returns has one character per
    decoded byte. *)
Definition is_ascii_whitespace (c : ascii) : bool :=
  let n := nat_of_ascii c in
  ((n =? 9) || (n =? 10) || (n =? 12) || (n =? 13) || (n =? 32))%nat.

Definition sextet (c : ascii) : option Z :=
  let n := Z.of_nat (nat_of_ascii c) in
  if (65 <=? n) && (n <=? 90) then Some (n - 65)
  else if (97 <=? n) && (n <=? 122) then Some (n - 71)
  else if (48 <=? n) && (n <=? 57) then Some (n + 4)
  else if n =? 43 then Some 62
  else if n =? 47 then Some 63
  else None.

Fixpoint sextets (cs : list ascii) : option (list Z) :=
  match cs with
  | [] => Some []
  | c :: rest => v ← sextet c; vs ← sextets rest; Some (v :: vs)
  end.

(** Groups of four sextets give three bytes; a final group of two gives one
    byte and a final group of three gives two (the spare low bits are
    discarded). *)
Fixpoint decode_sextets (l : list Z) : list Z :=
  match l with
  | a :: b :: c :: d :: rest =>
      let n := Z.lor (Z.lor (Z.shiftl a 18) (Z.shiftl b 12))
                     (Z.lor (Z.shiftl c 6) d) in
      byte_at 2 n :: byte_at 1 n :: byte_at 0 n :: decode_sextets rest
  | [a; b; c] =>
      let n := Z.shiftr (Z.lor (Z.lor (Z.shiftl a 12) (Z.shiftl b 6)) c) 2 in
      [byte_at 1 n; byte_at 0 n]
  | [a; b] =>
      let n := Z.shiftr (Z.lor (Z.shiftl a 6) b) 4 in
      [byte_at 0 n]
  | _ => []
  end.

Definition strip_padding (cs : list ascii) : list ascii :=
  if (length cs mod 4 =? 0)%nat then
    match reverse cs with
    | "="%char :: "="%char :: r => reverse r
    | "="%char :: r => reverse r
    | _ => cs
    end
  else cs.

Definition invalid_character : error :=
  InvalidCharacterError "The string to be decoded is not correctly encoded.".

Definition atob (data : string) : outcome string :=
  let cs := filter (fun c => is_ascii_whitespace c = false)
                   (list_ascii_of_string data) in
  let cs := strip_padding cs in
  if (length cs mod 4 =? 1)%nat then Throw invalid_character
  else match sextets cs with
       | None => Throw invalid_character
       | Some vs =>
           Ok (string_of_list_ascii
                 (map (fun b => ascii_of_nat (Z.to_nat b)) (decode_sextets vs)))
       end.

(** The loop of [base64ToArrayBuffer]:
    [for (i = 0; i < len; i++) bytes[i] = binaryString.charCodeAt(i)].
    A [Uint8Array] element store converts with [ToUint8] and ignores an index
    outside the array. *)
Fixpoint fill_bytes (bytes : buffer) (i : nat) (s : string) : buffer :=
  match s with
  | EmptyString => bytes
  | String c rest => fill_bytes (<[i := ToUint8 (charCode c)]> bytes) (S i) rest
  end.

(** [base64ToArrayBuffer(base64)]: the [ArrayBuffer] behind the filled
    [Uint8Array]. *)
Definition base64ToArrayBuffer (base64 : string) : outcome buffer :=
  binaryString ← atob base64;
  let len := String.length binaryString in
  let bytes := ArrayBuffer (Z.of_nat len) in
  Ok (fill_bytes bytes 0 binaryString).

(** Lines 71-72 of [translateAndSynthesize] (and 140-141 of
    [englishTextToSpeech]):
    [pcmData = base64ToArrayBuffer(audioData); pcm16 = new Int16Array(pcmData)]. *)
Definition decodePcm (audioData : string) : outcome (list Z) :=
  pcmData ← base64ToArrayBuffer audioData;
  Int16Array pcmData 0.

End Base64.

(** ** The filesystem *)

Module Fs.
Import WavHelper.

(** The part of the filesystem the code touches: whether the [./temp]
    directory exists, and the regular files by normalised relative path. *)
Record fs_state : Type := { temp_dir : bool; files : gmap string buffer }.

(** Paths are compared after removing a leading ["./"], so that
    [./temp/x] and [temp/x] name the same file. *)
Definition resolve (p : string) : string :=
  match p with
  | String "."%char (String "/"%char rest) => rest
  | _ => p
  end.

(** [path.join(dir, name)], normalised. *)
Definition path_join (dir name : string) : string :=
  resolve dir ++ "/" ++ name.

Definition under_temp (p : string) : bool := String.prefix "temp/" (resolve p).

Definition enoent (syscall path : string) : error :=
  FsError "ENOENT" syscall path.

(** [fs.existsSync(p)] *)
Definition existsSync (st : fs_state) (p : string) : bool :=
  bool_decide (is_Some (files st !! resolve p))
  || (String.eqb (resolve p) "temp" && temp_dir st).

(** [fs.mkdirSync("./temp")] *)
Definition mkdirSync (st : fs_state) (p : string) : outcome fs_state :=
  if existsSync st p then Throw (FsError "EEXIST" "mkdir" p)
  else if String.eqb (resolve p) "temp"
       then Ok {| temp_dir := true; files := files st |}
       else Ok st.

(** [fs.writeFileSync(p, data)]: creates or replaces the file; fails when the
    directory it lies in is missing. *)
Definition writeFileSync (st : fs_state) (p : string) (data : buffer)
  : outcome fs_state :=
  if under_temp p && negb (temp_dir st) then Throw (enoent "open" p)
  else Ok {| temp_dir := temp_dir st; files := <[resolve p := data]> (files st) |}.

(** [fs.readFileSync(p)] *)
Definition readFileSync (st : fs_state) (p : string) : outcome buffer :=
  match files st !! resolve p with
  | Some data => Ok data
  | None => Throw (enoent "open" p)
  end.

(** [fs.unlinkSync(p)]: removes the file, and throws when there is none. *)
Definition unlinkSync (st : fs_state) (p : string) : outcome fs_state :=
  match files st !! resolve p with
  | Some _ => Ok {| temp_dir := temp_dir st; files := delete (resolve p) (files st) |}
  | None => Throw (enoent "unlink" p)
  end.

(** The guarded form used by the [catch] block of [/api/translate-audio]:
    [if (fs.existsSync(p)) fs.unlinkSync(p)]. *)
Definition unlinkIfExists (st : fs_state) (p : string) : outcome fs_state :=
  if existsSync st p then unlinkSync st p else Ok st.

(** Whether a regular file is present at [p]. *)
Definition present (st : fs_state) (p : string) : Prop :=
  is_Some (files st !! resolve p).

End Fs.

(** ** Collaborators, the call log and the effect monad *)

Module Pipeline.
Import WavHelper Base64 Fs.

Inductive stage : Type := Conditioning | Recognition | Translation | Synthesis.

#[global] Instance stage_eq_dec : EqDecision stage.
Proof. solve_decision. Defined.

(** Configuration of the signal-processing engine, as built by the
    [fluent-ffmpeg] call chain. *)
Record ffmpeg_command : Type := {
  cmd_input : string;
  cmd_audioFilters : list string;
  cmd_audioFrequency : Z;
  cmd_audioChannels : Z;
  cmd_format : string;
  cmd_output : string
}.

(** [speechConfig] of [runTranslationPipeline]. *)
Record speech_config : Type := {
  encoding : string;
  sampleRateHertz : Z;
  languageCode : string;
  useEnhanced : bool;
  phrases : list string
}.

(** What is sent to a collaborator. *)
Inductive request : Type :=
  | RunEngine (cmd : ffmpeg_command)
  | Recognize (content : buffer) (config : speech_config)
  | Transcribe (content : buffer) (model prompt : string)
  | TranslateText (contents : string) (sourceLanguageCode targetLanguageCode : string)
  | GenerateSpeech (text : string) (voiceName : string).

Definition stage_of (r : request) : stage :=
  match r with
  | RunEngine _ => Conditioning
  | Recognize _ _ | Transcribe _ _ _ => Recognition
  | TranslateText _ _ _ => Translation
  | GenerateSpeech _ _ => Synthesis
  end.

(** The log of one run: a collaborator is invoked, and later its promise
    resolves or rejects. *)
Inductive event : Type :=
  | Invoke (r : request)
  | Resolve (s : stage)
  | Reject (s : stage) (e : error).

(** How a collaborator call settles. *)
Inductive reply (A : Type) : Type :=
  | Resolved (a : A)
  | Rejected (e : error).
Arguments Resolved {A} a.
Arguments Rejected {A} e.

(** One entry of [speechResponse.results]; a missing [transcript] is [None]. *)
Record alternative : Type := { transcript : option string }.
Record speech_result : Type := { alternatives : list alternative }.

(** The external services, as arbitrary functions of what they are sent:
    - the engine, given its command and the content of its input file, ends
      with the content of the output file it wrote, or emits ["error"];
    - [speechClient.recognize] gives [speechResponse.results];
    - [openai.audio.transcriptions.create] gives [transcription.text];
    - [translationClient.translateText] gives the [translatedText] of each
      entry of [response.translations];
    - the text-to-speech POST gives
      [data?.candidates?.[0]?.content?.parts?.[0]?.inlineData?.data]. *)
Record collaborators : Type := {
  ffmpeg_engine : ffmpeg_command -> buffer -> reply buffer;
  speechClient_recognize : buffer -> speech_config -> reply (list speech_result);
  openai_transcribe : buffer -> reply (option string);
  translationClient_translateText : string -> reply (list string);
  axios_post_tts : string -> reply (option string)
}.

(** The state a run acts on. *)
Record world : Type := { w_fs : fs_state; w_log : list event }.

(** Code with effects: a state transformer that may throw. The state reached
    when an exception is thrown is kept, as side effects are in JavaScript. *)
Definition M (A : Type) : Type := world -> outcome A * world.

#[global] Instance M_ret : MRet M := fun A a w => (Ok a, w).
#[global] Instance M_bind : MBind M := fun A B k m w =>
  match m w with
  | (Ok a, w') => k a w'
  | (Throw e, w') => (Throw e, w')
  | (Uncaught e, w') => (Uncaught e, w')
  end.

Definition throw {A} (e : error) : M A := fun w => (Throw e, w).

(** [try { body } catch (error) { handler }] *)
Definition try_catch {A} (body : M A) (handler : error -> M A) : M A :=
  fun w =>
    match body w with
    | (Throw e, w') => handler e w'
    | r => r
    end.

(** Code run as an event callback: an exception it throws is not seen by
    the code that awaits the promise. *)
Definition in_callback {A} (body : M A) : M A :=
  fun w =>
    match body w with
    | (Throw e, w') => (Uncaught e, w')
    | r => r
    end.

(** A pure computation that may throw. *)
Definition lift {A} (o : outcome A) : M A := fun w => (o, w).

(** A filesystem operation. *)
Definition fs_do (op : fs_state -> outcome fs_state) : M unit :=
  fun w =>
    match op (w_fs w) with
    | Ok st => (Ok (), {| w_fs := st; w_log := w_log w |})
    | Throw e => (Throw e, w)
    | Uncaught e => (Uncaught e, w)
    end.

Definition fs_get {A} (op : fs_state -> A) : M A :=
  fun w => (Ok (op (w_fs w)), w).

Definition log (ev : event) : M unit :=
  fun w => (Ok (), {| w_fs := w_fs w; w_log := w_log w ++ [ev] |}).

(** [await collaborator(request)] *)
Definition await {A} (r : request) (settles : reply A) : M A :=
  log (Invoke r);;
  match settles with
  | Resolved a => log (Resolve (stage_of r));; mret a
  | Rejected e => log (Reject (stage_of r) e);; throw e
  end.

(** ** [audioPreprocess.js] *)

(** [ffmpeg(input)...on("end", ..).on("error", ..).save(output)]: the engine
    reads its input file, and either writes the output file and emits
    ["end"], or emits ["error"]. *)
Definition ffmpeg_save (C : collaborators) (cmd : ffmpeg_command) : M unit :=
  input ← fs_get (fun st => files st !! resolve (cmd_input cmd));
  let settles :=
    match input with
    | Some content => ffmpeg_engine C cmd content
    | None => Rejected (ExternalError "ffmpeg exited with code 1: No such file or directory")
    end in
  out ← await (RunEngine cmd) settles;
  fs_do (fun st => Ok {| temp_dir := temp_dir st;
                         files := <[resolve (cmd_output cmd) := out]> (files st) |}).

(** [preprocessAudioDSP(inputBuffer)]; [id] is the value of [uuidv4()].
    An exception in the executor's [try] block is turned into a rejection by
    its [catch], and the ["error"] handler rejects as well: both are a
    [Throw] for the awaiting caller.  The ["end"] handler runs as an event
    callback. *)
Definition preprocessAudioDSP (C : collaborators) (id : string)
    (inputBuffer : buffer) : M buffer :=
  let tempDir := "./temp" in
  there ← fs_get (fun st => existsSync st tempDir);
  (if negb there then fs_do (fun st => mkdirSync st tempDir) else mret ());;
  let inputPath := path_join tempDir ("raw_" ++ id ++ ".wav") in
  let outputPath := path_join tempDir ("clean_" ++ id ++ ".wav") in
  fs_do (fun st => writeFileSync st inputPath inputBuffer);;
  ffmpeg_save C
    {| cmd_input := inputPath;
       cmd_audioFilters :=
         [ "highpass=f=80"; "lowpass=f=8000"; "afftdn";
           "silenceremove=1:0:-50dB"; "loudnorm" ];
       cmd_audioFrequency := 16000;
       cmd_audioChannels := 1;
       cmd_format := "wav";
       cmd_output := outputPath |};;
  in_callback (
    cleanedBuffer ← (fun w => (readFileSync (w_fs w) outputPath, w));
    fs_do (fun st => unlinkSync st inputPath);;
    fs_do (fun st => unlinkSync st outputPath);;
    mret cleanedBuffer).

(** ** [index1.js] *)

Record synthesis_result : Type := {
  assameseText : string;
  englishText : string;
  wavBuffer : buffer
}.

Definition undefined_property (name : string) : error :=
  TypeError ("Cannot read properties of undefined (reading '" ++ name ++ "')").

(** [!value] for a value that is a string or is missing. *)
Definition falsy (v : option string) : bool :=
  match v with
  | None => true
  | Some s => String.eqb s ""
  end.

(** [translateAndSynthesize(assameseText)] *)
Definition translateAndSynthesize (C : collaborators) (assameseText : string)
  : M synthesis_result :=
  translations ← await (TranslateText assameseText "as" "en")
                       (translationClient_translateText C assameseText);
  englishText ← match translations with
                | t :: _ => mret t
                | [] => throw (undefined_property "translatedText")
                end;
  audioData ← await (GenerateSpeech englishText "Puck")
                    (axios_post_tts C englishText);
  if falsy audioData then throw (JsError "Gemini did not return audio.")
  else
    pcmData ← lift (base64ToArrayBuffer (default "" audioData));
    pcm16 ← lift (Int16Array pcmData 0);
    wavBlob ← lift (pcmToWav pcm16 24000);
    mret {| assameseText := assameseText;
            englishText := englishText;
            wavBuffer := blob_bytes wavBlob |}.

(** [results.map((r) => r.alternatives[0].transcript)] *)
Fixpoint first_transcripts (results : list speech_result)
  : outcome (list (option string)) :=
  match results with
  | [] => Ok []
  | r :: rest =>
      t ← match alternatives r with
          | a :: _ => Ok (transcript a)
          | [] => Throw (undefined_property "transcript")
          end;
      ts ← first_transcripts rest;
      Ok (t :: ts)
  end.

(** [array.join("\n")]: a missing element contributes the empty string. *)
Fixpoint join_lines (ts : list (option string)) : string :=
  match ts with
  | [] => ""
  | [t] => default "" t
  | t :: rest => default "" t ++ String "010"%char (join_lines rest)
  end.

Definition vocabulary_hints : list string :=
  [ "মই"; "এজন"; "ছাত্ৰ"; "ভাল"; "আছোঁ"; "তুমি"; "কেনে"; "আছা"; "কি"; "খবৰ";
    "ধন্যবাদ"; "আপোনাৰ"; "নাম"; "ঘৰ"; "ক'ত"; "নমস্কাৰ" ].

(** [runTranslationPipeline(audioBuffer, encoding, sampleRateHertz)].  The
    request carries the base64 text of [audioBuffer]; the recognizer is an
    arbitrary function of it, so it is given the buffer itself. *)
Definition runTranslationPipeline (C : collaborators) (audioBuffer : buffer)
    (encoding : string) (sampleRateHertz : Z) : M synthesis_result :=
  let speechConfig :=
    {| encoding := encoding;
       sampleRateHertz := sampleRateHertz;
       languageCode := "as-IN";
       useEnhanced := true;
       phrases := vocabulary_hints |} in
  results ← await (Recognize audioBuffer speechConfig)
                  (speechClient_recognize C audioBuffer speechConfig);
  transcripts ← lift (first_transcripts results);
  let assameseText := join_lines transcripts in
  if falsy (Some assameseText) then throw (JsError "Could not understand audio.")
  else translateAndSynthesize C assameseText.

(** *** HTTP responses *)

Inductive json : Type := JString (s : string) | JBool (b : bool).
Inductive body : Type :=
  | BufferBody (b : buffer)
  | JsonBody (fields : list (string * json)).
Inductive header_value : Type := HString (s : string) | HNumber (n : Z).

Record response : Type := {
  statusCode : Z;
  headers : gmap string header_value;
  sent : option body
}.

Definition res_new : response :=
  {| statusCode := 200; headers := ∅; sent := None |}.

Definition res_status (res : response) (code : Z) : response :=
  {| statusCode := code; headers := headers res; sent := sent res |}.

Definition res_setHeader (res : response) (name : string) (v : header_value)
  : response :=
  {| statusCode := statusCode res;
     headers := <[name := v]> (headers res);
     sent := sent res |}.

Definition default_header (res : response) (name : string) (v : header_value)
  : response :=
  match headers res !! name with
  | Some _ => res
  | None => res_setHeader res name v
  end.

(** Express's [res.send(buffer)]: keeps a Content-Type already set, and
    populates Content-Length from the buffer's length. *)
Definition res_send (res : response) (chunk : buffer) : response :=
  let res := default_header res "Content-Type" (HString "application/octet-stream") in
  let res := res_setHeader res "Content-Length" (HNumber (Z.of_nat (length chunk))) in
  {| statusCode := statusCode res; headers := headers res;
     sent := Some (BufferBody chunk) |}.

(** Express's [res.json(obj)]; the length of the serialised text is not
    modelled. *)
Definition res_json (res : response) (fields : list (string * json)) : response :=
  let res := default_header res "Content-Type" (HString "application/json; charset=utf-8") in
  {| statusCode := statusCode res; headers := headers res;
     sent := Some (JsonBody fields) |}.

(** [app.post("/api/translate", ...)]; [file] is [req.file]'s buffer. *)
Definition api_translate (C : collaborators) (file : option buffer) : M response :=
  match file with
  | None =>
      mret (res_json (res_status res_new 400)
                     [("error", JString "No audio file provided.")])
  | Some audio =>
      try_catch
        (r ← runTranslationPipeline C audio "WEBM_OPUS" 48000;
         let res := res_setHeader res_new "Content-Type" (HString "audio/wav") in
         let res := res_setHeader res "Content-Length"
                      (HNumber (Z.of_nat (length (wavBuffer r)))) in
         mret (res_send res (wavBuffer r)))
        (fun error =>
           mret (res_json (res_status res_new 500)
                          [("error", JString (message error))]))
  end.

(** [req.body] as [express.json()] leaves it for the handler: the parsed
    object, of which the handler reads the property [text] (missing when the
    object has none).  A request whose body was not parsed has no such
    object: its [req.body] is [undefined], which is [None] below. *)
Record request_body : Type := { body_text : option string }.

(** [app.post("/api/text-translate", ...)]; [req_body] is [req.body].  The
    handler reads [req.body.text] before its [try] block, so with [req.body]
    undefined the [TypeError] of that property access leaves the handler:
    its promise rejects and the handler itself sends no answer. *)
Definition api_text_translate (C : collaborators)
    (req_body : option request_body) : M response :=
  assameseText ← lift (match req_body with
                       | Some b => Ok (body_text b)
                       | None => Throw (undefined_property "text")
                       end);
  if falsy assameseText then
    mret (res_json (res_status res_new 400) [("error", JString "No text provided.")])
  else
    try_catch
      (r ← translateAndSynthesize C (default "" assameseText);
       let res := res_setHeader res_new "Content-Type" (HString "audio/wav") in
       mret (res_send res (wavBuffer r)))
      (fun error =>
         mret (res_json (res_status res_new 500)
                        [("error", JString (message error))])).

(** ** The server with the [/api/translate-audio] endpoint *)

(** [speechToAssameseText(audioPath)]: the file is streamed to the service;
    a missing file makes the call reject. *)
Definition speechToAssameseText (C : collaborators) (audioPath : string)
  : M string :=
  content ← (fun w => (readFileSync (w_fs w) audioPath, w));
  text ← await (Transcribe content "gpt-4o-mini-transcribe"
                  "The following audio is spoken in Assamese language.")
               (openai_transcribe C content);
  if falsy text then throw (JsError "Whisper failed to transcribe audio")
  else mret (default "" text).

(** [translateAssameseToEnglish(assameseText)] *)
Definition translateAssameseToEnglish (C : collaborators) (assameseText : string)
  : M string :=
  translations ← await (TranslateText assameseText "as" "en")
                       (translationClient_translateText C assameseText);
  match translations with
  | t :: _ => mret t
  | [] => throw (undefined_property "translatedText")
  end.

(** [englishTextToSpeech(englishText)] *)
Definition englishTextToSpeech (C : collaborators) (englishText : string)
  : M buffer :=
  audioBase64 ← await (GenerateSpeech englishText "Puck")
                      (axios_post_tts C englishText);
  if falsy audioBase64 then throw (JsError "Gemini TTS did not return audio")
  else
    pcmData ← lift (base64ToArrayBuffer (default "" audioBase64));
    pcm16 ← lift (Int16Array pcmData 0);
    wavBlob ← lift (pcmToWav pcm16 24000);
    mret (blob_bytes wavBlob).

Definition rawPath (tempId : string) : string := "./temp/raw_" ++ tempId ++ ".wav".
Definition cleanedPath (tempId : string) : string := "./temp/cleaned_" ++ tempId ++ ".wav".

(** The [try] block of the [/api/translate-audio] handler. *)
Definition translate_audio_try (C : collaborators) (audio : buffer)
    (tempId dspId : string) : M response :=
  fs_do (fun st => writeFileSync st (rawPath tempId) audio);;
  cleanedBuffer ← preprocessAudioDSP C dspId audio;
  fs_do (fun st => writeFileSync st (cleanedPath tempId) cleanedBuffer);;
  assameseText ← speechToAssameseText C (cleanedPath tempId);
  englishText ← translateAssameseToEnglish C assameseText;
  finalAudioBuffer ← englishTextToSpeech C englishText;
  fs_do (fun st => unlinkSync st (rawPath tempId));;
  fs_do (fun st => unlinkSync st (cleanedPath tempId));;
  let res := res_setHeader res_new "Content-Type" (HString "audio/wav") in
  let res := res_setHeader res "Content-Length"
               (HNumber (Z.of_nat (length finalAudioBuffer))) in
  mret (res_send res finalAudioBuffer).

(** Its [catch (error)] block. *)
Definition translate_audio_catch (tempId : string) (error : error) : M response :=
  fs_do (fun st => unlinkIfExists st (rawPath tempId));;
  fs_do (fun st => unlinkIfExists st (cleanedPath tempId));;
  mret (res_json (res_status res_new 500)
                 [("success", JBool false); ("error", JString (message error))]).

(** [app.post("/api/translate-audio", ...)]; [file] is [req.file]'s buffer,
    [tempId] is the handler's [uuidv4()] and [dspId] the one drawn inside
    [preprocessAudioDSP]. *)
Definition api_translate_audio (C : collaborators) (file : option buffer)
    (tempId dspId : string) : M response :=
  match file with
  | None =>
      mret (res_json (res_status res_new 400)
                     [("error", JString "Audio file not provided")])
  | Some audio =>
      try_catch (translate_audio_try C audio tempId dspId)
                (translate_audio_catch tempId)
  end.

(** ** Reading a run's log *)

(** The stage whose collaborator was invoked last. *)
Definition current_stage (l : list event) : option stage :=
  match reverse (omap (fun ev => match ev with Invoke r => Some (stage_of r) | _ => None end) l) with
  | s :: _ => Some s
  | [] => None
  end.

Definition invoked (s : stage) (l : list event) : Prop :=
  exists r, Invoke r ∈ l /\ stage_of r = s.

(** In [l], no collaborator of stage [later] is invoked unless the call of
    stage [earlier] has resolved before. *)
Definition precedes (earlier later : stage) (l : list event) : Prop :=
  forall (pre : list event) r post,
    l = (pre ++ Invoke r :: post)%list -> stage_of r = later ->
    Resolve earlier ∈ pre.

(** No call is outstanding when another one starts: every invocation is
    immediately followed, in the log, by its own settlement. *)
Fixpoint sequential (l : list event) : bool :=
  match l with
  | [] => true
  | Invoke r :: Resolve s :: rest =>
      bool_decide (s = stage_of r) && sequential rest
  | [Invoke r; Reject s _] => bool_decide (s = stage_of r)
  | _ => false
  end.

(** The events a computation adds to the log when run from [w]. *)
Definition run_log {A} (m : M A) (w : world) : list event :=
  drop (length (w_log w)) (w_log (m w).2).

(** [w] with the events [l] logged after it. *)
Definition add_log (w : world) (l : list event) : world :=
  {| w_fs := w_fs w; w_log := w_log w ++ l |}.

(** [w] with its filesystem replaced. *)
Definition set_fs (w : world) (st : fs_state) : world :=
  {| w_fs := st; w_log := w_log w |}.

(** What both [translateAndSynthesize] (lines 69-74) and
    [englishTextToSpeech] (lines 136-143) do with the payload once the
    text-to-speech call has resolved; [notAudio] is the message of the error
    thrown for a missing payload. *)
Definition encodePayload (audioData : option string) (notAudio : string)
  : outcome buffer :=
  if falsy audioData then Throw (JsError notAudio)
  else pcm16 ← decodePcm (default "" audioData);
       wavBlob ← pcmToWav pcm16 24000;
       Ok (blob_bytes wavBlob).

(** The working files of [preprocessAudioDSP] for the identifier [id], and
    the command it hands to the engine. *)
Definition dsp_inputPath (id : string) : string :=
  path_join "./temp" ("raw_" ++ id ++ ".wav").
Definition dsp_outputPath (id : string) : string :=
  path_join "./temp" ("clean_" ++ id ++ ".wav").
Definition dsp_command (id : string) : ffmpeg_command :=
  {| cmd_input := dsp_inputPath id;
     cmd_audioFilters :=
       [ "highpass=f=80"; "lowpass=f=8000"; "afftdn";
         "silenceremove=1:0:-50dB"; "loudnorm" ];
     cmd_audioFrequency := 16000;
     cmd_audioChannels := 1;
     cmd_format := "wav";
     cmd_output := dsp_outputPath id |}.

(** The [speechConfig] object of [runTranslationPipeline]. *)
Definition recognizer_config (encoding : string) (sampleRateHertz : Z) : speech_config :=
  {| encoding := encoding; sampleRateHertz := sampleRateHertz;
     languageCode := "as-IN"; useEnhanced := true; phrases := vocabulary_hints |}.

(** The filesystem after the directory check of [preprocessAudioDSP]. *)
Definition after_mkdir (st : fs_state) : fs_state :=
  if existsSync st "./temp" then st else {| temp_dir := true; files := files st |}.

(** A decision procedure for [precedes]: [resolved] records whether
    [Resolve earlier] has been seen. *)
Fixpoint precedesb (earlier later : stage) (resolved : bool) (l : list event)
  : bool :=
  match l with
  | [] => true
  | Invoke r :: rest =>
      (if decide (stage_of r = later) then resolved else true)
      && precedesb earlier later resolved rest
  | Resolve s :: rest =>
      precedesb earlier later (resolved || bool_decide (s = earlier)) rest
  | Reject _ _ :: rest => precedesb earlier later resolved rest
  end.

(** The order the stages of a run keep: the calls do not overlap, and each
    stage starts only after the stage before it has resolved. *)
Definition stage_order (l : list event) : Prop :=
  sequential l = true /\
  precedes Recognition Translation l /\
  precedes Translation Synthesis l.

(** The response of a successful run that produced the container [wav]. *)
Definition success_response (res : response) (wav : buffer) : Prop :=
  (200 <= statusCode res < 300) /\
  sent res = Some (BufferBody wav) /\
  headers res !! "Content-Type" = Some (HString "audio/wav") /\
  headers res !! "Content-Length" = Some (HNumber (Z.of_nat (length wav))).

(** The response of a failing run: a JSON object [{error: string}] and a
    status outside 2xx. *)
Definition error_response (res : response) : Prop :=
  ~ (200 <= statusCode res < 300) /\
  exists msg, sent res = Some (JsonBody [("error", JString msg)]).

(** A way of releasing a file is idempotent and safe when it never throws,
    leaves no file behind, does nothing when there is no file, and so can be
    repeated at will. *)
Definition release_idempotent (release : fs_state -> string -> outcome fs_state)
    (p : string) : Prop :=
  forall st, exists st',
    release st p = Ok st' /\ ~ present st' p /\
    (~ present st p -> st' = st) /\
    release st' p = Ok st'.

(** A recognition result whose first alternative carries no text: its
    transcript is empty or missing. *)
Definition empty_result (r : speech_result) : Prop :=
  exists a rest, alternatives r = a :: rest /\ falsy (transcript a) = true.

(** The text of [n] line breaks. *)
Fixpoint line_breaks (n : nat) : string :=
  match n with
  | O => ""
  | S n => String "010"%char (line_breaks n)
  end.

(** Stubs for the collaborators: the engine returns its input, the
    recognizer hears ["hello"], the translator is the identity, and the
    synthesizer returns the base64 text of the samples [100; -100]. *)
Definition stubs : collaborators :=
  {| ffmpeg_engine := fun _ b => Resolved b;
     speechClient_recognize := fun _ _ =>
       Resolved [ {| alternatives := [ {| transcript := Some "hello" |} ] |} ];
     openai_transcribe := fun _ => Resolved (Some "hello");
     translationClient_translateText := fun t => Resolved [t];
     axios_post_tts := fun _ => Resolved (Some "ZACc/w==") |}.

(** [C] with another engine, recognizer or synthesizer. *)
Definition with_engine (C : collaborators)
    (engine : ffmpeg_command -> buffer -> reply buffer) : collaborators :=
  {| ffmpeg_engine := engine;
     speechClient_recognize := speechClient_recognize C;
     openai_transcribe := openai_transcribe C;
     translationClient_translateText := translationClient_translateText C;
     axios_post_tts := axios_post_tts C |}.

Definition with_recognizer (C : collaborators)
    (results : list speech_result) (text : option string) : collaborators :=
  {| ffmpeg_engine := ffmpeg_engine C;
     speechClient_recognize := fun _ _ => Resolved results;
     openai_transcribe := fun _ => Resolved text;
     translationClient_translateText := translationClient_translateText C;
     axios_post_tts := axios_post_tts C |}.

Definition with_synthesizer (C : collaborators) (payload : option string)
  : collaborators :=
  {| ffmpeg_engine := ffmpeg_engine C;
     speechClient_recognize := speechClient_recognize C;
     openai_transcribe := openai_transcribe C;
     translationClient_translateText := translationClient_translateText C;
     axios_post_tts := fun _ => Resolved payload |}.

(** An empty working directory. *)
Definition empty_world : world :=
  {| w_fs := {| temp_dir := false; files := ∅ |}; w_log := [] |}.

(** A working directory in which [./temp] exists. *)
Definition ready_world : world :=
  {| w_fs := {| temp_dir := true; files := ∅ |}; w_log := [] |}.

(** What a log says about an empty transcript: when the transcription call
    of the log resolved with nothing, the run stopped there. *)
Definition stops_at_recognition (C : collaborators) (r : outcome response)
    (l : list event) : Prop :=
  forall content model prompt text,
    Invoke (Transcribe content model prompt) ∈ l ->
    openai_transcribe C content = Resolved text -> falsy text = true ->
    r = Throw (JsError "Whisper failed to transcribe audio") /\
    exists cmd, l = [Invoke (RunEngine cmd); Resolve Conditioning;
                     Invoke (Transcribe content model prompt); Resolve Recognition].

(** What a log says about a run that went past recognition: the
    transcription call of the log resolved with a transcript. *)
Definition went_past_recognition (C : collaborators) (l : list event) : Prop :=
  forall r, Invoke r ∈ l ->
    stage_of r = Translation \/ stage_of r = Synthesis ->
    exists content model prompt text,
      Invoke (Transcribe content model prompt) ∈ l /\
      openai_transcribe C content = Resolved text /\ falsy text = false.

End Pipeline.

(** ** The diagnostic endpoints *)

Module Diagnostics.
Import WavHelper Base64 Fs Pipeline.

(** [fs.writeFileSync(path, text)] stores the UTF-8 bytes of the text;
    strings here are byte strings already. *)
Definition utf8 (s : string) : buffer := map charCode (list_ascii_of_string s).

(** *** [index1.js] *)

Definition testText : string :=
  "মই এজন ছাত্ৰ | মোৰ নাম নগেন | মই জীৱ জন্তু ভাল পাওঁ | উদ্য়োগীসকল হ'ল এনে ব্য়ক্তি যিয়ে নিজে ব্য়ৱসায় বা উদ্য়োগ আৰম্ভ কৰি কোনো বস্তু বা সেৱা বিক্ৰী কৰি নিজৰ জীৱিকা উলিওৱাৰ লগতে আনকো কৰ্ম সংস্থান দিবলৈ সক্ষম হয়।".

(** [app.get("/api/test-text", ...)] *)
Definition api_test_text (C : collaborators) : M response :=
  try_catch
    (r ← translateAndSynthesize C testText;
     fs_do (fun st => writeFileSync st "./text_translation_output.txt"
                        (utf8 (englishText r)));;
     fs_do (fun st => writeFileSync st "./text_translated_output.wav" (wavBuffer r));;
     mret (res_json res_new
             [("success", JBool true);
              ("message", JString "Test text pipeline ran successfully.");
              ("englishText", JString (englishText r))]))
    (fun error =>
       mret (res_json (res_status res_new 500)
                      [("error", JString (message error))])).

(** [app.get("/api/test", ...)] *)
Definition api_test (C : collaborators) : M response :=
  let testFile := "./test_sample.wav" in
  there ← fs_get (fun st => existsSync st testFile);
  if negb there then
    mret (res_json (res_status res_new 404)
                   [("error", JString "test_sample.wav not found.")])
  else
    try_catch
      (audioBuffer ← (fun w => (readFileSync (w_fs w) testFile, w));
       r ← runTranslationPipeline C audioBuffer "LINEAR16" 48000;
       fs_do (fun st => writeFileSync st "./stt_output.txt" (utf8 (assameseText r)));;
       fs_do (fun st => writeFileSync st "./translation_output.txt"
                          (utf8 (englishText r)));;
       fs_do (fun st => writeFileSync st "./translated_output.wav" (wavBuffer r));;
       mret (res_json res_new
               [("success", JBool true);
                ("message", JString "Audio pipeline test completed.");
                ("assameseText", JString (assameseText r));
                ("englishText", JString (englishText r))]))
      (fun error =>
         mret (res_json (res_status res_new 500)
                        [("error", JString (message error))])).

(** [testAudioDSPCleanup()]; [id] is the [uuidv4()] drawn inside
    [preprocessAudioDSP].  Its [catch] block only logs. *)
Definition testAudioDSPCleanup (C : collaborators) (id : string) : M unit :=
  let inputFile := "./test_sample.wav" in
  let outputFile := "./cleaned_test_sample.wav" in
  there ← fs_get (fun st => existsSync st inputFile);
  if negb there then mret ()
  else
    try_catch
      (rawAudioBuffer ← (fun w => (readFileSync (w_fs w) inputFile, w));
       cleanedAudioBuffer ← preprocessAudioDSP C id rawAudioBuffer;
       fs_do (fun st => writeFileSync st outputFile cleanedAudioBuffer))
      (fun error => mret ()).

(** [app.get("/api/test-dsp", ...)] *)
Definition api_test_dsp (C : collaborators) (id : string) : M response :=
  try_catch
    (testAudioDSPCleanup C id;;
     mret (res_json res_new
             [("success", JBool true);
              ("message", JString "DSP audio preprocessing test completed.");
              ("outputFile", JString "cleaned_test_sample.wav")]))
    (fun error =>
       mret (res_json (res_status res_new 500)
                      [("error", JString (message error))])).

(** *** The server with the [/api/translate-audio] endpoint *)

(** [preprocessAudioFromRoot()] *)
Definition preprocessAudioFromRoot (C : collaborators) (id : string) : M string :=
  let inputPath := "./test_sample.wav" in
  let outputPath := "./cleaned_audio.wav" in
  there ← fs_get (fun st => existsSync st inputPath);
  if negb there then throw (JsError "test_sample.wav not found in root directory")
  else
    rawAudioBuffer ← (fun w => (readFileSync (w_fs w) inputPath, w));
    cleanedBuffer ← preprocessAudioDSP C id rawAudioBuffer;
    fs_do (fun st => writeFileSync st outputPath cleanedBuffer);;
    mret outputPath.

(** [app.get("/api/test-full-pipeline", ...)] *)
Definition api_test_full_pipeline (C : collaborators) (id : string) : M response :=
  try_catch
    (cleanedAudioPath ← preprocessAudioFromRoot C id;
     assameseText ← speechToAssameseText C cleanedAudioPath;
     englishText ← translateAssameseToEnglish C assameseText;
     englishTextToSpeech C englishText;;
     mret (res_json res_new
             [("success", JBool true);
              ("assameseText", JString assameseText);
              ("englishText", JString englishText);
              ("outputAudio", JString "final_english_audio.wav")]))
    (fun error =>
       mret (res_json (res_status res_new 500)
                      [("success", JBool false);
                       ("error", JString (message error))])).

(** *** What a computation may do *)

(** [m] always settles for the code that awaits it: no exception escapes
    from an event callback. *)
Definition settles {A} (m : M A) : Prop :=
  forall w e, (m w).1 <> Uncaught e.

(** [m] changes no file outside the paths [W] (normalised). *)
Definition frame (W : list string) {A} (m : M A) : Prop :=
  forall w p, p ∉ W -> files (w_fs (m w).2) !! p = files (w_fs w) !! p.

(** [m] calls no collaborator. *)
Definition silent {A} (m : M A) : Prop :=
  forall w, w_log (m w).2 = w_log w.

(** The characters of a base64 text that carry data: ASCII whitespace and
    the padding at the end do not. *)
Definition significant (base64 : string) : list ascii :=
  strip_padding (filter (fun c => is_ascii_whitespace c = false)
                        (list_ascii_of_string base64)).

(** [C] with another translator or speech recognizer. *)
Definition with_translator (C : collaborators)
    (translate : string -> reply (list string)) : collaborators :=
  {| ffmpeg_engine := ffmpeg_engine C;
     speechClient_recognize := speechClient_recognize C;
     openai_transcribe := openai_transcribe C;
     translationClient_translateText := translate;
     axios_post_tts := axios_post_tts C |}.

Definition with_speech (C : collaborators)
    (recognize : buffer -> speech_config -> reply (list speech_result))
  : collaborators :=
  {| ffmpeg_engine := ffmpeg_engine C;
     speechClient_recognize := recognize;
     openai_transcribe := openai_transcribe C;
     translationClient_translateText := translationClient_translateText C;
     axios_post_tts := axios_post_tts C |}.

(** The requests the pipeline of [index1.js] may send for the upload
    [audio] with the given encoding and rate. *)
Definition configured_request (audio : buffer) (enc : string) (rate : Z)
    (r : request) : Prop :=
  r = Recognize audio
        {| encoding := enc; sampleRateHertz := rate; languageCode := "as-IN";
           useEnhanced := true; phrases := vocabulary_hints |}
  \/ (exists text, r = TranslateText text "as" "en")
  \/ (exists text, r = GenerateSpeech text "Puck").

(** A working directory with [./temp] and the sample recording. *)
Definition sample_world : world :=
  {| w_fs := {| temp_dir := true;
                files := {[ "test_sample.wav" := [1; 2; 3] ]} |};
     w_log := [] |}.

(** *** The runs of [index1.js], case by case *)

(** How [translateAndSynthesize] can end, with the events it logs. *)
Inductive synthesis_case (C : collaborators) (text : string)
    : outcome synthesis_result -> list event -> Prop :=
  | translator_rejects e :
      translationClient_translateText C text = Rejected e ->
      synthesis_case C text (Throw e)
        [Invoke (TranslateText text "as" "en"); Reject Translation e]
  | no_translation :
      translationClient_translateText C text = Resolved [] ->
      synthesis_case C text (Throw (undefined_property "translatedText"))
        [Invoke (TranslateText text "as" "en"); Resolve Translation]
  | synthesizer_rejects t rest e :
      translationClient_translateText C text = Resolved (t :: rest) ->
      axios_post_tts C t = Rejected e ->
      synthesis_case C text (Throw e)
        [Invoke (TranslateText text "as" "en"); Resolve Translation;
         Invoke (GenerateSpeech t "Puck"); Reject Synthesis e]
  | synthesizer_answers t rest p :
      translationClient_translateText C text = Resolved (t :: rest) ->
      axios_post_tts C t = Resolved p ->
      synthesis_case C text
        (wav ← encodePayload p "Gemini did not return audio.";
         Ok {| assameseText := text; englishText := t; wavBuffer := wav |})
        [Invoke (TranslateText text "as" "en"); Resolve Translation;
         Invoke (GenerateSpeech t "Puck"); Resolve Synthesis].

(** How [runTranslationPipeline] can end, with the events it logs. *)
Inductive pipeline_case (C : collaborators) (audio : buffer) (enc : string)
    (rate : Z) : outcome synthesis_result -> list event -> Prop :=
  | recognizer_rejects e :
      speechClient_recognize C audio (recognizer_config enc rate) = Rejected e ->
      pipeline_case C audio enc rate (Throw e)
        [Invoke (Recognize audio (recognizer_config enc rate)); Reject Recognition e]
  | no_alternative results e :
      speechClient_recognize C audio (recognizer_config enc rate) = Resolved results ->
      first_transcripts results = Throw e ->
      pipeline_case C audio enc rate (Throw e)
        [Invoke (Recognize audio (recognizer_config enc rate)); Resolve Recognition]
  | no_transcript results ts :
      speechClient_recognize C audio (recognizer_config enc rate) = Resolved results ->
      first_transcripts results = Ok ts ->
      falsy (Some (join_lines ts)) = true ->
      pipeline_case C audio enc rate (Throw (JsError "Could not understand audio."))
        [Invoke (Recognize audio (recognizer_config enc rate)); Resolve Recognition]
  | transcript_found results ts r l :
      speechClient_recognize C audio (recognizer_config enc rate) = Resolved results ->
      first_transcripts results = Ok ts ->
      falsy (Some (join_lines ts)) = false ->
      synthesis_case C (join_lines ts) r l ->
      pipeline_case C audio enc rate r
        ([Invoke (Recognize audio (recognizer_config enc rate)); Resolve Recognition]
         ++ l)%list.

(** *** Standard base64 text *)

(** [buffer.toString("base64")] (line 85 of [index1.js]), which is also the
    form in which the synthesizer's payload arrives: every three bytes give
    four characters of the alphabet, and a last group of one or two bytes is
    padded with ["="] to four characters. *)
Definition sextet_char (v : Z) : ascii :=
  ascii_of_nat (Z.to_nat
    (if v <? 26 then 65 + v
     else if v <? 52 then 71 + v
     else if v <? 62 then v - 4
     else if v =? 62 then 43 else 47)).

Fixpoint sextets_of (bs : buffer) : list Z :=
  match bs with
  | a :: b :: c :: rest =>
      a / 4 :: (a mod 4) * 16 + b / 16 :: (b mod 16) * 4 + c / 64 :: c mod 64
      :: sextets_of rest
  | [a; b] => [a / 4; (a mod 4) * 16 + b / 16; (b mod 16) * 4]
  | [a] => [a / 4; (a mod 4) * 16]
  | [] => []
  end.

Definition padding (bs : buffer) : list ascii :=
  match (length bs mod 3)%nat with
  | 1%nat => ["="%char; "="%char]
  | 2%nat => ["="%char]
  | _ => []
  end.

Definition toBase64 (bs : buffer) : string :=
  string_of_list_ascii (map sextet_char (sextets_of bs) ++ padding bs).

(** The checks behind the alphabet: each of the 64 characters decodes to its
    own value, is no whitespace and is not the padding character. *)
Definition alphabet_ok (n : nat) : bool :=
  let v := Z.of_nat n in
  let c := sextet_char v in
  match sextet c with
  | Some v' => (v' =? v) && negb (is_ascii_whitespace c) && negb (Ascii.eqb c "=")
  | None => false
  end.

End Diagnostics.

(** * Properties *)

(** ** The container codec *)

Module WavHelperFacts.
Import WavHelper.

Lemma byte_at_range k v : is_byte (byte_at k v).
Proof. unfold is_byte, byte_at. apply Z.mod_pos_bound. lia. Qed.

Ltac bytes_arith :=
  unfold byte_at, ToUint8, ToUint16, ToUint32, ToInt16;
  change (256 ^ Z.of_nat 0) with 1; change (256 ^ Z.of_nat 1) with 256;
  change (256 ^ Z.of_nat 2) with 65536; change (256 ^ Z.of_nat 3) with 16777216;
  change (2 ^ 8) with 256; change (2 ^ 15) with 32768;
  change (2 ^ 16) with 65536; change (2 ^ 32) with 4294967296.

Lemma uint16_bytes v :
  0 <= v < 65536 ->
  byte_at 0 (ToUint16 v) + 256 * byte_at 1 (ToUint16 v) = v.
Proof. intros Hv. bytes_arith. Z.div_mod_to_equations. lia. Qed.

Lemma uint32_bytes v :
  0 <= v < 4294967296 ->
  byte_at 0 (ToUint32 v) + 256 * byte_at 1 (ToUint32 v)
  + 65536 * byte_at 2 (ToUint32 v) + 16777216 * byte_at 3 (ToUint32 v) = v.
Proof. intros Hv. bytes_arith. Z.div_mod_to_equations. lia. Qed.

Lemma int16_bytes s :
  is_int16 s ->
  int16_of_bytes (byte_at 0 (ToInt16 s)) (byte_at 1 (ToInt16 s)) = s.
Proof.
  unfold is_int16, int16_of_bytes. intros Hs. bytes_arith.
  repeat case_match; Z.div_mod_to_equations; lia.
Qed.


Lemma setUint8_ok view off v :
  (off + 1 <= length view)%nat ->
  setUint8 view off v = Ok (<[off := byte_at 0 (ToUint8 v)]> view).
Proof. intros H. unfold setUint8. by rewrite decide_True. Qed.

Lemma setUint16_ok view off v :
  (off + 2 <= length view)%nat ->
  setUint16 view off v =
    Ok (<[S off := byte_at 1 (ToUint16 v)]> (<[off := byte_at 0 (ToUint16 v)]> view)).
Proof. intros H. unfold setUint16. by rewrite decide_True. Qed.

Lemma setUint32_ok view off v :
  (off + 4 <= length view)%nat ->
  setUint32 view off v =
    Ok (<[S (S (S off)) := byte_at 3 (ToUint32 v)]>
       (<[S (S off) := byte_at 2 (ToUint32 v)]>
       (<[S off := byte_at 1 (ToUint32 v)]>
       (<[off := byte_at 0 (ToUint32 v)]> view)))).
Proof. intros H. unfold setUint32. by rewrite decide_True. Qed.

Lemma length_pcm_bytes src : length (pcm_bytes src) = (2 * length src)%nat.
Proof. induction src as [|s src IH]; simpl; [done | lia]. Qed.

Lemma write_int16s_app (h tail : buffer) src :
  length tail = (2 * length src)%nat ->
  write_int16s (h ++ tail) (length h) src = (h ++ pcm_bytes src)%list.
Proof.
  revert h tail. induction src as [|s src IH]; intros h tail Hlen.
  - destruct tail; [| done]. done.
  - destruct tail as [|a [|b tail]]; simpl in Hlen; try lia.
    cbn [write_int16s pcm_bytes flat_map].
    rewrite (insert_app_r_alt h) by lia. rewrite Nat.sub_diag. cbn [insert list_insert].
    rewrite (insert_app_r_alt h) by lia.
    replace (S (length h) - length h)%nat with 1%nat by lia. cbn [insert list_insert].
    replace (h ++ byte_at 0 (ToInt16 s) :: byte_at 1 (ToInt16 s) :: tail)%list
      with ((h ++ [byte_at 0 (ToInt16 s); byte_at 1 (ToInt16 s)]) ++ tail)%list
      by (by rewrite <- app_assoc).
    replace (S (S (length h))) with (length (h ++ [byte_at 0 (ToInt16 s); byte_at 1 (ToInt16 s)]))
      by (rewrite length_app; simpl; lia).
    rewrite IH by lia. by rewrite <- app_assoc.
Qed.

Lemma length_read_int16s bs : length (read_int16s bs) = (length bs / 2)%nat.
Proof.
  induction bs as [bs IH] using (induction_ltof1 _ (@length Z)); unfold ltof in IH.
  destruct bs as [|a [|b bs]]; [done | done |].
  cbn [read_int16s length]. rewrite IH by (simpl; lia).
  change (S (S (length bs))) with (1 * 2 + length bs)%nat.
  rewrite Nat.add_comm, Nat.div_add by lia. lia.
Qed.

Lemma read_int16s_pcm_bytes src :
  Forall is_int16 src -> read_int16s (pcm_bytes src) = src.
Proof.
  induction 1 as [|s src Hs _ IH]; [done |].
  cbn [pcm_bytes flat_map app read_int16s]. fold (pcm_bytes src).
  by rewrite int16_bytes, IH.
Qed.

(** The view [new Int16Array(buffer, length h)] over [h ++ tail]. *)
Lemma Int16Array_app (h tail : buffer) :
  (length h mod 2 = 0)%nat -> (length tail mod 2 = 0)%nat ->
  Int16Array (h ++ tail) (length h) = Ok (read_int16s tail).
Proof.
  intros Hh Ht. unfold Int16Array.
  rewrite length_app, Hh. cbn [Nat.eqb negb].
  replace (length h + length tail <? length h)%nat with false
    by (symmetry; apply Nat.ltb_ge; lia).
  replace (length h + length tail - length h)%nat with (length tail) by lia.
  rewrite Ht. cbn [Nat.eqb negb]. by rewrite drop_app_length.
Qed.

Lemma Int16Array_set_app (h tail : buffer) src :
  (length h mod 2 = 0)%nat -> length tail = (2 * length src)%nat ->
  Int16Array_set (h ++ tail) (length h) src = Ok (h ++ pcm_bytes src)%list.
Proof.
  intros Hh Ht. unfold Int16Array_set.
  rewrite Int16Array_app; [| done | rewrite Ht, Nat.mul_comm; apply Nat.Div0.mod_mul].
  cbn [mbind outcome_bind].
  rewrite length_read_int16s, Ht, Nat.mul_comm, Nat.div_mul by lia.
  rewrite Nat.ltb_irrefl. by rewrite write_int16s_app.
Qed.

Lemma length_wav_header n R : length (wav_header n R) = 44%nat.
Proof. reflexivity. Qed.

Lemma pcmToWav_bytes pcmData sampleRate :
  pcmToWav pcmData sampleRate =
    Ok {| blob_bytes := (wav_header (length pcmData) sampleRate ++ pcm_bytes pcmData)%list;
          blob_type := "audio/wav" |}.
Proof.
  unfold pcmToWav, ArrayBuffer.
  change (16 / 8) with 2. change (1 * 16 / 8) with 2.
  replace (Z.to_nat (44 + Z.of_nat (length pcmData) * 2))
    with (44 + 2 * length pcmData)%nat by lia.
  rewrite replicate_add.
  assert (Hlen : length (replicate (2 * length pcmData) 0) = (2 * length pcmData)%nat)
    by apply length_replicate.
  revert Hlen. generalize (replicate (2 * length pcmData) 0). intros tail Hlen.
  cbn [replicate app writeString].
  repeat (first [ rewrite setUint8_ok by (cbn [length]; lia)
                | rewrite setUint16_ok by (cbn [length]; lia)
                | rewrite setUint32_ok by (cbn [length]; lia) ];
          cbn [mbind outcome_bind insert list_insert writeString]).
  match goal with |- context [Int16Array_set ?b _ _] =>
    replace b with (wav_header (length pcmData) sampleRate ++ tail)%list
  end.
  - change 44%nat with (length (wav_header (length pcmData) sampleRate)).
    rewrite Int16Array_set_app; [done | done | done].
  - unfold wav_header. cbn [app]. change (16 / 8) with 2.
    repeat f_equal.
Qed.


(** C2: for every sequence [S] of signed 16-bit samples and every rate [R],
    [pcmToWav] returns a container; dropping its first 44 bytes and reading
    the rest as little-endian int16 samples (which is also what an
    [Int16Array] view at offset 44 exposes) gives [S] back. *)
Theorem pcmToWav_round_trip (S : list Z) (R : Z) :
  Forall is_int16 S ->
  exists blob, pcmToWav S R = Ok blob /\
    read_int16s (drop 44 (blob_bytes blob)) = S /\
    Int16Array (blob_bytes blob) 44 = Ok S.
Proof.
  intros HS. rewrite pcmToWav_bytes. eexists. split; [reflexivity |].
  cbn [blob_bytes].
  change 44%nat with (length (wav_header (length S) R)).
  rewrite drop_app_length, read_int16s_pcm_bytes by done.
  split; [done |].
  rewrite Int16Array_app, read_int16s_pcm_bytes; [done | done | done |].
  rewrite length_pcm_bytes, Nat.mul_comm. apply Nat.Div0.mod_mul.
Qed.

Lemma pcmToWav_round_trip_witness :
  exists blob, pcmToWav [100; -100] 24000 = Ok blob /\
    read_int16s (drop 44 (blob_bytes blob)) = [100; -100] /\
    Int16Array (blob_bytes blob) 44 = Ok [100; -100].
Proof.
  apply (pcmToWav_round_trip [100; -100] 24000).
  repeat constructor; unfold is_int16; lia.
Defined.

(** C3, for the values the 32-bit fields can hold: when the rate [R] is not
    negative, the byte rate [R * 2] is below 2^32 and so is [36 + 2 * N], the
    container for [N] samples is [44 + 2 * N] bytes of type audio/wav with the
    header fields at their offsets: "RIFF", [36 + 2 * N], "WAVE", "fmt ", 16,
    format 1, 1 channel, [R], [R * 2], block alignment 2, 16 bits per sample,
    "data", [2 * N]. *)
Theorem pcmToWav_header_layout (S : list Z) (R : Z) :
  0 <= R -> R * 2 < 2 ^ 32 -> 36 + 2 * Z.of_nat (length S) < 2 ^ 32 ->
  exists blob, pcmToWav S R = Ok blob /\
    blob_type blob = "audio/wav" /\
    header_layout (length S) R (blob_bytes blob).
Proof.
  intros HR0 HR HN. rewrite pcmToWav_bytes. eexists. split; [reflexivity |].
  split; [reflexivity |]. cbn [blob_bytes].
  unfold header_layout, tag_at, getUint32, getUint16.
  split. { rewrite length_app, length_wav_header, length_pcm_bytes. done. }
  unfold wav_header. cbn -[byte_at ToUint32 ToUint16 Z.mul Z.add Z.sub Z.div Z.of_nat].
  change (2 ^ 32) with 4294967296 in *.
  replace (R * 1 * 16 / 8) with (R * 2) by (Z.div_mod_to_equations; lia).
  rewrite !uint32_bytes, !uint16_bytes by lia.
  repeat split; try reflexivity; f_equal; lia.
Qed.


Lemma bytes_int16 lo hi :
  is_byte lo -> is_byte hi ->
  byte_at 0 (ToInt16 (int16_of_bytes lo hi)) = lo /\
  byte_at 1 (ToInt16 (int16_of_bytes lo hi)) = hi.
Proof.
  unfold is_byte, int16_of_bytes. intros Hlo Hhi. bytes_arith.
  repeat case_match; split; Z.div_mod_to_equations; lia.
Qed.

(** Storing the elements of a view over [bs] gives [bs] back. *)
Lemma pcm_bytes_read_int16s (bs : buffer) :
  Forall is_byte bs -> (length bs mod 2 = 0)%nat ->
  pcm_bytes (read_int16s bs) = bs.
Proof.
  induction bs as [bs IH] using (induction_ltof1 _ (@length Z)); unfold ltof in IH.
  intros Hb Hlen. destruct bs as [|lo [|hi bs]]; [done | done |].
  apply Forall_cons in Hb as [Hlo Hb]. apply Forall_cons in Hb as [Hhi Hb].
  cbn [read_int16s pcm_bytes flat_map app]. fold (pcm_bytes (read_int16s bs)).
  destruct (bytes_int16 lo hi Hlo Hhi) as [-> ->].
  rewrite IH; [done | simpl; lia | done |].
  cbn [length] in Hlen.
  change (S (S (length bs))) with (1 * 2 + length bs)%nat in Hlen.
  by rewrite Nat.add_comm, Nat.Div0.mod_add in Hlen.
Qed.

Lemma pcmToWav_header_layout_witness :
  exists blob, pcmToWav [] 24000 = Ok blob /\
    blob_type blob = "audio/wav" /\
    header_layout 0 24000 (blob_bytes blob).
Proof. apply (pcmToWav_header_layout [] 24000); simpl; lia. Defined.

(** C3 as stated, for every sample rate, fails: at a rate of 2^31 the byte
    rate does not fit its 32-bit field, which then holds 0. *)
Lemma pcmToWav_header_layout_overflow :
  ~ (forall (S : list Z) (R : Z),
       exists blob, pcmToWav S R = Ok blob /\
         header_layout (length S) R (blob_bytes blob)).
Proof.
  intros H. destruct (H [] 2147483648) as (blob & Hb & Hl).
  vm_compute in Hb. injection Hb as <-.
  destruct Hl as (_ & _ & _ & _ & _ & _ & _ & _ & _ & H28 & _).
  vm_compute in H28. discriminate H28.
Qed.

(** The empty container at 24000 Hz: 44 bytes, RIFF size 36, data size 0. *)
Example pcmToWav_empty_24000 :
  exists blob, pcmToWav [] 24000 = Ok blob /\
    length (blob_bytes blob) = 44%nat /\
    getUint32 (blob_bytes blob) 4 = Some 36 /\
    getUint32 (blob_bytes blob) 40 = Some 0.
Proof. eexists. split; [vm_compute; reflexivity |]. by vm_compute. Qed.

End WavHelperFacts.

Module Base64Facts.
Import WavHelper WavHelperFacts Base64.

Lemma charCode_byte c : ToUint8 (charCode c) = charCode c.
Proof.
  unfold ToUint8, charCode. apply Z.mod_small.
  pose proof (nat_ascii_bounded c). change (2 ^ 8) with 256. lia.
Qed.

Lemma fill_bytes_app (pre : buffer) (s : string) :
  fill_bytes (pre ++ replicate (String.length s) 0) (length pre) s
  = (pre ++ map charCode (list_ascii_of_string s))%list.
Proof.
  revert pre. induction s as [|c s IH]; intros pre.
  - done.
  - cbn [String.length replicate fill_bytes list_ascii_of_string map].
    rewrite (insert_app_r_alt pre) by lia. rewrite Nat.sub_diag.
    cbn [insert list_insert].
    replace (pre ++ ToUint8 (charCode c) :: replicate (String.length s) 0)%list
      with ((pre ++ [charCode c]) ++ replicate (String.length s) 0)%list
      by (by rewrite charCode_byte, <- app_assoc).
    replace (S (length pre)) with (length (pre ++ [charCode c]))
      by (rewrite length_app; simpl; lia).
    rewrite IH. by rewrite <- app_assoc.
Qed.

(** [base64ToArrayBuffer] returns the character codes of [atob]'s string. *)
Lemma base64ToArrayBuffer_atob base64 bin :
  atob base64 = Ok bin ->
  base64ToArrayBuffer base64 = Ok (map charCode (list_ascii_of_string bin)).
Proof.
  intros H. unfold base64ToArrayBuffer, ArrayBuffer. rewrite H.
  cbn [mbind outcome_bind]. rewrite Nat2Z.id.
  pose proof (fill_bytes_app [] bin) as Hf. cbn [app length] in Hf.
  by rewrite Hf.
Qed.

Lemma length_list_ascii_of_string s :
  length (list_ascii_of_string s) = String.length s.
Proof. induction s; simpl; congruence. Qed.

Lemma Int16Array_0 (buf : buffer) :
  Int16Array buf 0 =
    if (length buf mod 2 =? 0)%nat then Ok (read_int16s buf)
    else Throw (RangeError "byte length of Int16Array should be a multiple of 2").
Proof.
  unfold Int16Array. change (negb (0 mod 2 =? 0)%nat) with false. cbv iota.
  replace (length buf <? 0)%nat with false by (symmetry; apply Nat.ltb_ge; lia).
  rewrite Nat.sub_0_r, drop_0. by destruct (length buf mod 2 =? 0)%nat.
Qed.

(** C10: for base64 text that [atob] decodes into [byteCount] bytes, the
    decoding of the synthesis payload throws the [RangeError] of the
    [Int16Array] constructor when [byteCount] is odd; it yields samples only
    when [byteCount] is even, and then exactly [byteCount / 2] of them. *)
Theorem decodePcm_odd_byte_count (base64 bin : string) :
  atob base64 = Ok bin ->
  let byteCount := String.length bin in
  (Nat.Odd byteCount ->
     decodePcm base64 =
       Throw (RangeError "byte length of Int16Array should be a multiple of 2"))
  /\ (Nat.Even byteCount ->
        exists samples, decodePcm base64 = Ok samples /\
          length samples = (byteCount / 2)%nat)
  /\ (forall samples, decodePcm base64 = Ok samples -> Nat.Even byteCount).
Proof.
  intros Hatob byteCount. unfold decodePcm.
  rewrite (base64ToArrayBuffer_atob _ _ Hatob). cbn [mbind outcome_bind].
  rewrite Int16Array_0, length_map, length_list_ascii_of_string.
  fold byteCount.
  destruct (Nat.Even_or_Odd byteCount) as [He | Ho].
  -     assert (Hm : (byteCount mod 2 = 0)%nat).
    { destruct He as [k Hk]. rewrite Hk, Nat.mul_comm. apply Nat.Div0.mod_mul. }
    rewrite Hm. cbn [Nat.eqb]. split; [| split].
    + intros Ho. destruct (Nat.Even_Odd_False _ He Ho).
    + intros _. eexists. split; [reflexivity |].
      by rewrite length_read_int16s, length_map, length_list_ascii_of_string.
    + done.
  - assert (Hm : (byteCount mod 2 = 1)%nat).
    { destruct Ho as [k Hk]. rewrite Hk, Nat.add_comm, Nat.mul_comm.
      rewrite Nat.Div0.mod_add. done. }
    rewrite Hm. cbn [Nat.eqb]. split; [| split].
    + done.
    + intros He. destruct (Nat.Even_Odd_False _ He Ho).
    + intros samples Hs. discriminate Hs.
Qed.

Lemma decodePcm_odd_byte_count_witness :
  atob "ZACc" = Ok (String "d" (String "000" (String "156" ""))) /\
  decodePcm "ZACc" =
    Throw (RangeError "byte length of Int16Array should be a multiple of 2").
Proof.
  split; [reflexivity |].
  apply (decodePcm_odd_byte_count "ZACc" (String "d" (String "000" (String "156" "")))).
  - reflexivity.
  - exists 1%nat. reflexivity.
Defined.


Lemma charCode_is_byte c : is_byte (charCode c).
Proof. unfold is_byte, charCode. pose proof (nat_ascii_bounded c). lia. Qed.

End Base64Facts.

(** ** The pipeline *)

Module PipelineFacts.
Import WavHelper WavHelperFacts Base64 Base64Facts Fs Pipeline.

Lemma add_log_nil w : add_log w [] = w.
Proof. destruct w. unfold add_log. cbn. by rewrite app_nil_r. Qed.

Lemma add_log_app w l1 l2 : add_log (add_log w l1) l2 = add_log w (l1 ++ l2).
Proof. unfold add_log. cbn. by rewrite app_assoc. Qed.

Lemma await_Resolved {A} r (a : A) w :
  await r (Resolved a) w = (Ok a, add_log w [Invoke r; Resolve (stage_of r)]).
Proof.
  unfold await, log, add_log, mbind, M_bind, mret, M_ret. cbn.
  by rewrite <- app_assoc.
Qed.

Lemma await_Rejected {A} r e w :
  await (A:=A) r (Rejected e) w
  = (Throw e, add_log w [Invoke r; Reject (stage_of r) e]).
Proof.
  unfold await, log, throw, add_log, mbind, M_bind, mret, M_ret. cbn.
  by rewrite <- app_assoc.
Qed.

Lemma bind_eq {A B} (m : M A) (k : A -> M B) w :
  (m ≫= k) w =
    match m w with
    | (Ok a, w') => k a w'
    | (Throw e, w') => (Throw e, w')
    | (Uncaught e, w') => (Uncaught e, w')
    end.
Proof. reflexivity. Qed.

Lemma run_log_add_log {A} (m : M A) w r l :
  m w = (r, add_log w l) -> run_log m w = l.
Proof. intros H. unfold run_log. rewrite H. cbn. by rewrite drop_app_length. Qed.

(** Pure code never produces [Uncaught]. *)
Lemma atob_caught s e : atob s <> Uncaught e.
Proof. unfold atob. repeat case_match; done. Qed.

Lemma base64ToArrayBuffer_caught s e : base64ToArrayBuffer s <> Uncaught e.
Proof.
  unfold base64ToArrayBuffer. pose proof (atob_caught s) as H.
  destruct (atob s) as [b | e1 | e1]; cbn [mbind outcome_bind]; [done | done | by destruct (H e1)].
Qed.

Lemma Int16Array_caught b off e : Int16Array b off <> Uncaught e.
Proof. unfold Int16Array. repeat case_match; done. Qed.

Lemma first_transcripts_caught rs e : first_transcripts rs <> Uncaught e.
Proof.
  induction rs as [|r rs IH]; [done |].
  cbn [first_transcripts]. destruct (alternatives r); cbn [mbind outcome_bind]; [done |].
  destruct (first_transcripts rs); cbn; done.
Qed.

Lemma encodePayload_caught p msg e : encodePayload p msg <> Uncaught e.
Proof.
  unfold encodePayload, decodePcm. destruct (falsy p); [done |].
  pose proof (base64ToArrayBuffer_caught (default "" p)) as H1.
  destruct (base64ToArrayBuffer _) as [b | e1 | e1]; cbn [mbind outcome_bind]; [| done | by destruct (H1 e1)].
  pose proof (Int16Array_caught b 0) as H2.
  destruct (Int16Array b 0) as [s | e2 | e2]; cbn [mbind outcome_bind]; [| done | by destruct (H2 e2)].
  by rewrite pcmToWav_bytes.
Qed.

Lemma englishTextToSpeech_eq C englishText w :
  englishTextToSpeech C englishText w =
    match axios_post_tts C englishText with
    | Resolved p =>
        (encodePayload p "Gemini TTS did not return audio",
         add_log w [Invoke (GenerateSpeech englishText "Puck"); Resolve Synthesis])
    | Rejected e =>
        (Throw e,
         add_log w [Invoke (GenerateSpeech englishText "Puck"); Reject Synthesis e])
    end.
Proof.
  unfold englishTextToSpeech. rewrite bind_eq.
  destruct (axios_post_tts C englishText) as [p | e].
  - rewrite await_Resolved. unfold encodePayload, decodePcm, throw, lift.
    destruct (falsy p); [done |].
    unfold mbind, M_bind, mret, M_ret.
    destruct (base64ToArrayBuffer _); cbn [mbind outcome_bind]; [| done | done].
    destruct (Int16Array _ _); cbn [mbind outcome_bind]; [| done | done].
    by rewrite pcmToWav_bytes.
  - by rewrite await_Rejected.
Qed.


Lemma translateAssameseToEnglish_eq C text w :
  translateAssameseToEnglish C text w =
    let call := Invoke (TranslateText text "as" "en") in
    match translationClient_translateText C text with
    | Resolved (t :: _) => (Ok t, add_log w [call; Resolve Translation])
    | Resolved [] =>
        (Throw (undefined_property "translatedText"),
         add_log w [call; Resolve Translation])
    | Rejected e => (Throw e, add_log w [call; Reject Translation e])
    end.
Proof.
  unfold translateAssameseToEnglish. rewrite bind_eq.
  destruct (translationClient_translateText C text) as [[|t ts] | e];
    by rewrite ?await_Resolved, ?await_Rejected.
Qed.

Lemma speechToAssameseText_eq C audioPath w :
  speechToAssameseText C audioPath w =
    match readFileSync (w_fs w) audioPath with
    | Ok content =>
        let call := Invoke (Transcribe content "gpt-4o-mini-transcribe"
                      "The following audio is spoken in Assamese language.") in
        match openai_transcribe C content with
        | Resolved text =>
            (if falsy text then Throw (JsError "Whisper failed to transcribe audio")
             else Ok (default "" text),
             add_log w [call; Resolve Recognition])
        | Rejected e => (Throw e, add_log w [call; Reject Recognition e])
        end
    | Throw e => (Throw e, w)
    | Uncaught e => (Uncaught e, w)
    end.
Proof.
  unfold speechToAssameseText. rewrite bind_eq.
  destruct (readFileSync (w_fs w) audioPath) as [content | e | e]; [| done | done].
  rewrite bind_eq.
  destruct (openai_transcribe C content) as [text | e].
  - rewrite await_Resolved. by destruct (falsy text).
  - by rewrite await_Rejected.
Qed.

Lemma translateAndSynthesize_eq C text w :
  translateAndSynthesize C text w =
    let callT := Invoke (TranslateText text "as" "en") in
    match translationClient_translateText C text with
    | Resolved (t :: _) =>
        let callS := Invoke (GenerateSpeech t "Puck") in
        match axios_post_tts C t with
        | Resolved p =>
            (wav ← encodePayload p "Gemini did not return audio.";
             Ok {| assameseText := text; englishText := t; wavBuffer := wav |},
             add_log w [callT; Resolve Translation; callS; Resolve Synthesis])
        | Rejected e =>
            (Throw e,
             add_log w [callT; Resolve Translation; callS; Reject Synthesis e])
        end
    | Resolved [] =>
        (Throw (undefined_property "translatedText"),
         add_log w [callT; Resolve Translation])
    | Rejected e => (Throw e, add_log w [callT; Reject Translation e])
    end.
Proof.
  unfold translateAndSynthesize. rewrite bind_eq.
  destruct (translationClient_translateText C text) as [[|t ts] | e];
    rewrite ?await_Resolved, ?await_Rejected; [done | | done].
  cbv beta iota. rewrite bind_eq. cbn [mret M_ret]. cbv beta iota.
  rewrite bind_eq.
  destruct (axios_post_tts C t) as [p | e];
    rewrite ?await_Resolved, ?await_Rejected, ?add_log_app; [| done].
  cbv beta iota.
  unfold encodePayload, decodePcm, throw, lift. cbn [app stage_of].
  destruct (falsy p); [done |].
  unfold mbind, M_bind, mret, M_ret.
  destruct (base64ToArrayBuffer _); cbn [mbind outcome_bind]; [| done | done].
  destruct (Int16Array _ _); cbn [mbind outcome_bind]; [| done | done].
  by rewrite pcmToWav_bytes.
Qed.

Lemma runTranslationPipeline_eq C audio enc rate w :
  runTranslationPipeline C audio enc rate w =
    let cfg := recognizer_config enc rate in
    let callR := Invoke (Recognize audio cfg) in
    match speechClient_recognize C audio cfg with
    | Resolved results =>
        let w1 := add_log w [callR; Resolve Recognition] in
        match first_transcripts results with
        | Ok ts =>
            if falsy (Some (join_lines ts))
            then (Throw (JsError "Could not understand audio."), w1)
            else translateAndSynthesize C (join_lines ts) w1
        | Throw e => (Throw e, w1)
        | Uncaught e => (Uncaught e, w1)
        end
    | Rejected e => (Throw e, add_log w [callR; Reject Recognition e])
    end.
Proof.
  unfold runTranslationPipeline, recognizer_config. rewrite bind_eq.
  destruct (speechClient_recognize C audio _) as [results | e];
    rewrite ?await_Resolved, ?await_Rejected; [| done].
  cbv beta iota. rewrite bind_eq. unfold lift, throw. cbn [stage_of].
  destruct (first_transcripts results) as [ts | e | e]; cbv beta iota zeta;
    [| done | done].
  by destruct (falsy (Some (join_lines ts))).
Qed.


(** *** The conditioning stage *)

Lemma resolve_dsp_inputPath id :
  resolve (dsp_inputPath id) = "temp/raw_" ++ id ++ ".wav".
Proof. reflexivity. Qed.

Lemma resolve_dsp_outputPath id :
  resolve (dsp_outputPath id) = "temp/clean_" ++ id ++ ".wav".
Proof. reflexivity. Qed.

Lemma dsp_paths_differ id : resolve (dsp_inputPath id) ≠ resolve (dsp_outputPath id).
Proof. intros H. cbv in H. discriminate H. Qed.

Lemma ffmpeg_save_eq C id buf td fl l :
  ffmpeg_save C (dsp_command id)
    {| w_fs := {| temp_dir := td; files := <[resolve (dsp_inputPath id) := buf]> fl |};
       w_log := l |} =
    let call := Invoke (RunEngine (dsp_command id)) in
    match ffmpeg_engine C (dsp_command id) buf with
    | Resolved out =>
        (Ok (),
         {| w_fs := {| temp_dir := td;
                       files := <[resolve (dsp_outputPath id) := out]>
                                  (<[resolve (dsp_inputPath id) := buf]> fl) |};
            w_log := l ++ [call; Resolve Conditioning] |})
    | Rejected e =>
        (Throw e,
         {| w_fs := {| temp_dir := td; files := <[resolve (dsp_inputPath id) := buf]> fl |};
            w_log := l ++ [call; Reject Conditioning e] |})
    end.
Proof.
  unfold ffmpeg_save. rewrite bind_eq. unfold fs_get at 1.
  cbn [w_fs files cmd_input dsp_command]. rewrite lookup_insert_eq.
  cbv beta iota. rewrite bind_eq.
  destruct (ffmpeg_engine C _ buf) as [out | e];
    rewrite ?await_Resolved, ?await_Rejected; [| done].
  unfold fs_do, add_log. cbn [w_fs w_log files temp_dir cmd_output]. done.
Qed.

(** The ["end"] handler finds both working files and removes them. *)
Lemma on_end_eq id buf out td fl l :
  in_callback (
    cleanedBuffer ← (fun w => (readFileSync (w_fs w) (dsp_outputPath id), w));
    fs_do (fun st => unlinkSync st (dsp_inputPath id));;
    fs_do (fun st => unlinkSync st (dsp_outputPath id));;
    mret cleanedBuffer)
    {| w_fs := {| temp_dir := td;
                  files := <[resolve (dsp_outputPath id) := out]>
                             (<[resolve (dsp_inputPath id) := buf]> fl) |};
       w_log := l |} =
  (Ok out,
   {| w_fs := {| temp_dir := td;
                 files := delete (resolve (dsp_outputPath id))
                            (delete (resolve (dsp_inputPath id))
                               (<[resolve (dsp_outputPath id) := out]>
                                  (<[resolve (dsp_inputPath id) := buf]> fl))) |};
      w_log := l |}).
Proof.
  pose proof (dsp_paths_differ id) as Hne.
  unfold in_callback. rewrite bind_eq. unfold readFileSync at 1.
  cbn [w_fs files]. rewrite lookup_insert_eq. cbv beta iota.
  rewrite bind_eq. unfold fs_do at 1, unlinkSync at 1. cbn [w_fs files w_log temp_dir].
  rewrite lookup_insert_ne, lookup_insert_eq by done. cbv beta iota.
  rewrite bind_eq. unfold fs_do at 1, unlinkSync at 1. cbn [w_fs files w_log temp_dir].
  rewrite lookup_delete_ne, lookup_insert_eq by done. done.
Qed.

Lemma preprocessAudioDSP_eq C id buf w :
  preprocessAudioDSP C id buf w =
    let st := after_mkdir (w_fs w) in
    let input := resolve (dsp_inputPath id) in
    let output := resolve (dsp_outputPath id) in
    let call := Invoke (RunEngine (dsp_command id)) in
    if negb (temp_dir st) then (Throw (enoent "open" (dsp_inputPath id)), w)
    else
      match ffmpeg_engine C (dsp_command id) buf with
      | Resolved out =>
          (Ok out,
           add_log
             (set_fs w {| temp_dir := temp_dir st;
                          files := delete output (delete input
                                     (<[output := out]> (<[input := buf]> (files st)))) |})
             [call; Resolve Conditioning])
      | Rejected e =>
          (Throw e,
           add_log
             (set_fs w {| temp_dir := temp_dir st;
                          files := <[input := buf]> (files st) |})
             [call; Reject Conditioning e])
      end.
Proof.
  destruct w as [st l].
  unfold preprocessAudioDSP. fold (dsp_inputPath id) (dsp_outputPath id).
  fold (dsp_command id). unfold after_mkdir.
  rewrite bind_eq. unfold fs_get at 1. cbn [w_fs w_log].
  destruct (existsSync st "./temp") eqn:Hex; cbn [negb].
  - rewrite bind_eq. cbn [mret M_ret]. cbv beta iota.
    rewrite bind_eq. unfold fs_do at 1, writeFileSync. cbn [w_fs w_log].
    change (under_temp (dsp_inputPath id)) with true. cbn [andb].
    destruct st as [td fl]. cbn [temp_dir files] in *.
    destruct td; cbn [negb]; [| done].
    cbv beta iota. rewrite bind_eq, ffmpeg_save_eq.
    destruct (ffmpeg_engine C (dsp_command id) buf) as [out | e]; [| done].
    cbv beta iota zeta. by rewrite on_end_eq.
  - rewrite bind_eq. unfold fs_do at 1, mkdirSync. cbn [w_fs]. rewrite Hex.
    change (resolve "./temp" =? "temp")%string with true. cbv beta iota.
    cbn [w_fs w_log temp_dir files negb].
    rewrite bind_eq. unfold fs_do at 1, writeFileSync. cbn [w_fs w_log temp_dir files].
    change (under_temp (dsp_inputPath id)) with true. cbn [andb negb].
    cbv beta iota. rewrite bind_eq, ffmpeg_save_eq.
    destruct (ffmpeg_engine C (dsp_command id) buf) as [out | e]; [| done].
    cbv beta iota zeta. by rewrite on_end_eq.
Qed.

(** *** Reading logs *)

Lemma precedesb_sound_aux earlier later resolved (seen l : list event) :
  (resolved = true -> Resolve earlier ∈ seen) ->
  precedesb earlier later resolved l = true ->
  forall (pre : list event) r post,
    l = (pre ++ Invoke r :: post)%list -> stage_of r = later ->
    Resolve earlier ∈ (seen ++ pre)%list.
Proof.
  revert resolved seen.
  induction l as [|ev l IH]; intros resolved seen Hseen Hb pre r post Heq Hst.
  - by destruct pre.
  - destruct pre as [|ev' pre]; cbn [app] in Heq; injection Heq as -> ->.
    + cbn [precedesb] in Hb. rewrite decide_True in Hb by done.
      apply andb_prop in Hb as [Hr _]. rewrite app_nil_r. by apply Hseen.
    + replace (seen ++ ev' :: pre)%list with ((seen ++ [ev']) ++ pre)%list
        by (by rewrite <- app_assoc).
      destruct ev' as [r' | s | s e]; cbn [precedesb] in Hb.
      * apply andb_prop in Hb as [_ Hb].
        eapply (IH resolved); [| exact Hb | reflexivity | exact Hst].
        intros Hres. apply elem_of_app. left. by apply Hseen.
      * eapply (IH _ (seen ++ [Resolve s])%list); [| exact Hb | reflexivity | exact Hst].
        intros Hres. apply elem_of_app.
        apply orb_prop in Hres as [Hres | Hres].
        -- left. by apply Hseen.
        -- right. apply bool_decide_eq_true in Hres as ->. set_solver.
      * eapply (IH resolved); [| exact Hb | reflexivity | exact Hst].
        intros Hres. apply elem_of_app. left. by apply Hseen.
Qed.

Lemma precedesb_sound earlier later l :
  precedesb earlier later false l = true -> precedes earlier later l.
Proof.
  intros Hb pre r post Heq Hst.
  by apply (precedesb_sound_aux earlier later false [] l ltac:(done) Hb pre r post).
Qed.

Lemma stage_order_check l :
  sequential l = true ->
  precedesb Recognition Translation false l = true ->
  precedesb Translation Synthesis false l = true ->
  stage_order l.
Proof. intros. repeat split; [done | by apply precedesb_sound ..]. Qed.


(** *** Releasing files *)

Lemma existsSync_rawPath st tempId :
  existsSync st (rawPath tempId)
  = bool_decide (is_Some (files st !! resolve (rawPath tempId))).
Proof.
  unfold existsSync.
  replace (resolve (rawPath tempId) =? "temp")%string with false
    by (symmetry; apply String.eqb_neq; intros H; cbv in H; discriminate H).
  by rewrite orb_false_r.
Qed.

Lemma existsSync_cleanedPath st tempId :
  existsSync st (cleanedPath tempId)
  = bool_decide (is_Some (files st !! resolve (cleanedPath tempId))).
Proof.
  unfold existsSync.
  replace (resolve (cleanedPath tempId) =? "temp")%string with false
    by (symmetry; apply String.eqb_neq; intros H; cbv in H; discriminate H).
  by rewrite orb_false_r.
Qed.

(** The guarded release removes the file when there is one and does nothing
    otherwise: in both cases the result is the filesystem without the file. *)
Lemma unlinkIfExists_eq st p :
  existsSync st p = bool_decide (is_Some (files st !! resolve p)) ->
  unlinkIfExists st p
  = Ok {| temp_dir := temp_dir st; files := delete (resolve p) (files st) |}.
Proof.
  intros Hex. unfold unlinkIfExists, unlinkSync. rewrite Hex.
  destruct (files st !! resolve p) as [data|] eqn:Hl.
  - by rewrite bool_decide_eq_true_2.
  - rewrite bool_decide_eq_false_2 by (by intros [? ?]).
    rewrite delete_id by done. by destruct st.
Qed.

Lemma translate_audio_catch_eq tempId e w :
  translate_audio_catch tempId e w =
    (Ok (res_json (res_status res_new 500)
           [("success", JBool false); ("error", JString (message e))]),
     set_fs w {| temp_dir := temp_dir (w_fs w);
                 files := delete (resolve (cleanedPath tempId))
                            (delete (resolve (rawPath tempId)) (files (w_fs w))) |}).
Proof.
  unfold translate_audio_catch. rewrite bind_eq. unfold fs_do at 1.
  rewrite unlinkIfExists_eq by apply existsSync_rawPath.
  cbv beta iota. rewrite bind_eq. unfold fs_do at 1. cbn [w_fs w_log].
  rewrite unlinkIfExists_eq by apply existsSync_cleanedPath.
  done.
Qed.

Lemma writeFileSync_cases st p data :
  writeFileSync st p data = Throw (enoent "open" p) \/
  writeFileSync st p data
  = Ok {| temp_dir := temp_dir st; files := <[resolve p := data]> (files st) |}.
Proof. unfold writeFileSync. destruct (_ && _); auto. Qed.

Lemma unlinkSync_cases st p :
  unlinkSync st p = Throw (enoent "unlink" p) \/
  unlinkSync st p
  = Ok {| temp_dir := temp_dir st; files := delete (resolve p) (files st) |}.
Proof. unfold unlinkSync. destruct (_ !! _); auto. Qed.


(** *** Responses *)

Lemma res_send_audio (res : response) (wav : buffer) :
  (200 <= statusCode res < 300) ->
  headers res !! "Content-Type" = Some (HString "audio/wav") ->
  success_response (res_send res wav) wav.
Proof.
  intros Hst Hct. unfold success_response, res_send, default_header.
  rewrite Hct. cbn [statusCode sent headers res_setHeader].
  repeat split; try lia.
  - by rewrite lookup_insert_ne.
  - by rewrite lookup_insert_eq.
Qed.

Lemma res_json_error (code : Z) (msg : string) :
  ~ (200 <= code < 300) ->
  error_response (res_json (res_status res_new code) [("error", JString msg)]).
Proof.
  intros Hc. unfold error_response, res_json, default_header, res_status.
  cbn [headers res_new]. rewrite lookup_empty.
  cbn [statusCode sent res_setHeader]. split; [done |]. by exists msg.
Qed.

(** *** The [try] block of [/api/translate-audio] *)

Lemma paths_differ tempId :
  resolve (rawPath tempId) ≠ resolve (cleanedPath tempId).
Proof. intros H. cbv in H. discriminate H. Qed.

Ltac log_suffix :=
  cbn [w_log w_fs add_log set_fs]; rewrite <- ?app_assoc;
  first [ reflexivity | symmetry; apply app_nil_r ].

Ltac in_log H :=
  repeat (apply elem_of_cons in H as [H | H];
          [ try discriminate H | ]);
  try (by apply elem_of_nil in H).

Ltac stops_clause :=
  let Hin := fresh "Hin" in
  let Hres := fresh "Hres" in
  let Hf := fresh "Hf" in
  intros ? ? ? ? Hin Hres Hf; cbn [app] in Hin; in_log Hin;
  injection Hin as -> -> ->;
  match goal with
  | H : openai_transcribe ?C ?o = _ |- _ =>
      rewrite H in Hres;
      first [ discriminate Hres
            | injection Hres as ->;
              first [ congruence | split; [reflexivity | eexists; reflexivity] ] ]
  end.

Ltac past_clause :=
  let Hin := fresh "Hin" in
  let Hst := fresh "Hst" in
  intros ? Hin Hst; cbn [app] in Hin; in_log Hin;
  injection Hin as ->; cbn [stage_of] in Hst;
  (destruct Hst as [Hst | Hst]; try discriminate Hst);
  eexists _, _, _, _;
  (split; [repeat first [apply list_elem_of_here | apply list_elem_of_further] |]);
  split; eassumption.

Ltac leaf :=
  eexists _, _, _; split; [reflexivity |];
  split; [log_suffix |];
  do 4 (split; [reflexivity |]);
  split; [stops_clause |]; split; [past_clause | exact I].

Lemma translate_audio_try_spec C audio tempId dspId w :
  exists r w' l,
    translate_audio_try C audio tempId dspId w = (r, w') /\
    w_log w' = (w_log w ++ l)%list /\
    sequential l = true /\
    precedesb Conditioning Recognition false l = true /\
    precedesb Recognition Translation false l = true /\
    precedesb Translation Synthesis false l = true /\
    stops_at_recognition C r l /\
    went_past_recognition C l /\
    match r with
    | Ok res =>
        ~ present (w_fs w') (rawPath tempId) /\
        ~ present (w_fs w') (cleanedPath tempId) /\
        exists wav, success_response res wav
    | Throw _ => True
    | Uncaught _ => False
    end.
Proof.
  destruct w as [st l0]. unfold translate_audio_try.
  (* the raw upload is saved *)
  rewrite bind_eq. unfold fs_do at 1. cbn [w_fs w_log].
  destruct (writeFileSync_cases st (rawPath tempId) audio) as [H | H];
    rewrite H; cbv beta iota; [leaf |].
  clear H.
  (* conditioning *)
  rewrite bind_eq, preprocessAudioDSP_eq. cbv zeta. cbn [w_fs].
  destruct (negb (temp_dir (after_mkdir _))); [leaf |].
  destruct (ffmpeg_engine C (dsp_command dspId) audio) as [out | e]; [| leaf].
  cbv beta iota. unfold add_log, set_fs. cbn [w_fs w_log].
  rewrite bind_eq. unfold fs_do at 1. cbn [w_fs w_log].
  match goal with |- context [writeFileSync ?s ?p ?d] =>
    destruct (writeFileSync_cases s p d) as [H | H]; rewrite H; cbv beta iota;
      [leaf |]; clear H
  end.
  (* recognition *)
  rewrite bind_eq, speechToAssameseText_eq. cbn [w_fs].
  unfold readFileSync. cbn [files]. rewrite lookup_insert_eq. cbv beta iota zeta.
  destruct (openai_transcribe C out) as [text | e] eqn:Hstt; [| leaf].
  destruct (falsy text) eqn:Hfalsy; [leaf |]. cbv beta iota.
  (* translation *)
  rewrite bind_eq, translateAssameseToEnglish_eq. cbv zeta.
  destruct (translationClient_translateText C _) as [[|t ts] | e]; [leaf | | leaf].
  cbv beta iota.
  (* synthesis *)
  rewrite bind_eq, englishTextToSpeech_eq.
  destruct (axios_post_tts C t) as [p | e]; [| leaf].
  pose proof (encodePayload_caught p "Gemini TTS did not return audio") as Hc.
  destruct (encodePayload p _) as [wav | e | e]; [| leaf | by destruct (Hc e)].
  cbv beta iota. clear Hc. unfold add_log. cbn [w_fs w_log].
  (* cleanup *)
  rewrite bind_eq. unfold fs_do at 1. cbn [w_fs w_log].
  match goal with |- context [unlinkSync ?s ?p] =>
    destruct (unlinkSync_cases s p) as [H | H]; rewrite H; cbv beta iota;
      [leaf |]; clear H
  end.
  rewrite bind_eq. unfold fs_do at 1. cbn [w_fs w_log].
  match goal with |- context [unlinkSync ?s ?p] =>
    destruct (unlinkSync_cases s p) as [H | H]; rewrite H; cbv beta iota;
      [leaf |]; clear H
  end.
  cbn [mret M_ret].
  eexists _, _, _; split; [reflexivity |]. split; [log_suffix |].
  do 4 (split; [reflexivity |]). split; [stops_clause |]. split; [past_clause |].
  pose proof (paths_differ tempId) as Hne.
  unfold present. cbn [w_fs files]. split; [| split].
  - rewrite lookup_delete_ne, lookup_delete_eq by done. by intros [? ?].
  - rewrite lookup_delete_eq. by intros [? ?].
  - exists wav. apply res_send_audio; [cbn; lia |].
    cbn [headers res_setHeader res_new]. rewrite lookup_insert_ne by done.
    by rewrite lookup_insert_eq.
Qed.

(** *** The [/api/text-translate] handler *)

(** With a parsed body the handler goes on with the text the body holds. *)
Lemma api_text_translate_body C b w :
  api_text_translate C (Some b) w =
    (if falsy (body_text b) then
       mret (res_json (res_status res_new 400) [("error", JString "No text provided.")])
     else
       try_catch
         (r ← translateAndSynthesize C (default "" (body_text b));
          mret (res_send (res_setHeader res_new "Content-Type" (HString "audio/wav"))
                         (wavBuffer r)))
         (fun error =>
            mret (res_json (res_status res_new 500)
                           [("error", JString (message error))]))) w.
Proof. unfold api_text_translate. by rewrite bind_eq. Qed.

(** Without one the property access throws before anything else is done. *)
Lemma api_text_translate_no_body C w :
  api_text_translate C None w = (Throw (undefined_property "text"), w).
Proof. unfold api_text_translate. by rewrite bind_eq. Qed.

End PipelineFacts.

(** ** The behaviour the specification describes *)

Module Claims.
Import WavHelper WavHelperFacts Base64 Base64Facts Fs Pipeline PipelineFacts.

(** *** Temporary files *)

(** On the success path [preprocessAudioDSP] removes both working files. *)
Lemma preprocessAudioDSP_success_releases C id buf out w :
  (preprocessAudioDSP C id buf w).1 = Ok out ->
  let w' := (preprocessAudioDSP C id buf w).2 in
  ~ present (w_fs w') (dsp_inputPath id) /\ ~ present (w_fs w') (dsp_outputPath id).
Proof.
  pose proof (dsp_paths_differ id) as Hne.
  rewrite preprocessAudioDSP_eq. cbv zeta.
  destruct (negb (temp_dir _)); [done |].
  destruct (ffmpeg_engine C _ buf) as [o | e]; [| done].
  intros _. unfold present. cbn [snd w_fs add_log set_fs files]. split.
  - rewrite lookup_delete_ne, lookup_delete_eq by done. by intros [? ?].
  - rewrite lookup_delete_eq. by intros [? ?].
Qed.

(** C1, the failing path: when the engine emits ["error"],
    [preprocessAudioDSP] rejects and the raw input file it wrote for this
    identifier is still on disk, with the uploaded content. *)
Theorem preprocessAudioDSP_failure_leaves_raw_file C id buf e w :
  temp_dir (after_mkdir (w_fs w)) = true ->
  ffmpeg_engine C (dsp_command id) buf = Rejected e ->
  (preprocessAudioDSP C id buf w).1 = Throw e /\
  files (w_fs (preprocessAudioDSP C id buf w).2) !! resolve (dsp_inputPath id)
  = Some buf /\
  present (w_fs (preprocessAudioDSP C id buf w).2) (dsp_inputPath id).
Proof.
  intros Htd Heng. rewrite preprocessAudioDSP_eq. cbv zeta.
  rewrite Htd, Heng. cbn [negb fst snd w_fs add_log set_fs files]. unfold present.
  cbn [files]. rewrite lookup_insert_eq. by eauto.
Qed.

Lemma preprocessAudioDSP_failure_leaves_raw_file_witness :
  let C := with_engine stubs (fun _ _ => Rejected (ExternalError "ffmpeg exited with code 1")) in
  (preprocessAudioDSP C "run1" [1; 2; 3] empty_world).1
  = Throw (ExternalError "ffmpeg exited with code 1") /\
  files (w_fs (preprocessAudioDSP C "run1" [1; 2; 3] empty_world).2)
    !! resolve (dsp_inputPath "run1") = Some [1; 2; 3] /\
  present (w_fs (preprocessAudioDSP C "run1" [1; 2; 3] empty_world).2)
    (dsp_inputPath "run1").
Proof.
  intros C.
  apply (preprocessAudioDSP_failure_leaves_raw_file C "run1" [1; 2; 3]
           (ExternalError "ffmpeg exited with code 1") empty_world);
    reflexivity.
Defined.

(** The handler of [/api/translate-audio] always answers, and the two files
    it names after its own identifier are gone when it does. *)
Lemma api_translate_audio_releases C audio tempId dspId w :
  exists res w',
    api_translate_audio C (Some audio) tempId dspId w = (Ok res, w') /\
    ~ present (w_fs w') (rawPath tempId) /\
    ~ present (w_fs w') (cleanedPath tempId).
Proof.
  pose proof (paths_differ tempId) as Hne.
  unfold api_translate_audio, try_catch.
  destruct (translate_audio_try_spec C audio tempId dspId w)
    as (r & w1 & l & Hrun & _ & _ & _ & _ & _ & _ & _ & Hr).
  rewrite Hrun. destruct r as [res | e | e]; [| | done].
  - destruct Hr as (H1 & H2 & _). by exists res, w1.
  - rewrite translate_audio_catch_eq. eexists _, _. split; [reflexivity |].
    unfold present. cbn [w_fs set_fs files]. split.
    + rewrite lookup_delete_ne, lookup_delete_eq by done. by intros [? ?].
    + rewrite lookup_delete_eq. by intros [? ?].
Qed.

(** Through the handler as well: the request is answered with status 500
    while the raw file of the conditioning stage stays behind. *)
Lemma api_translate_audio_leaves_dsp_file :
  let C := with_engine stubs (fun _ _ => Rejected (ExternalError "ffmpeg exited with code 1")) in
  let run := api_translate_audio C (Some [1; 2; 3]) "req1" "run1" ready_world in
  (statusCode <$> match run.1 with Ok res => Some res | _ => None end) = Some 500 /\
  files (w_fs run.2) !! "temp/raw_run1.wav" = Some [1; 2; 3].
Proof. vm_compute. done. Qed.


(** *** The filter chain *)

(** C6: whatever the input buffer, the identifier and the state of the
    disk, [preprocessAudioDSP] applies the fixed chain.  Once the raw file
    is written (which fails only when [./temp] exists and is no directory)
    the engine is started, exactly once, with the one command of the run;
    every command handed to the engine carries the filters high-pass 80 Hz,
    low-pass 8000 Hz, noise reduction, silence removal below -50 dB and
    loudness normalisation, in this order, with a 16000 Hz mono output; and
    a buffer is returned only as the engine's output for that command on the
    input. *)
Theorem preprocessAudioDSP_filter_chain C id inputBuffer w :
  let run := preprocessAudioDSP C id inputBuffer in
  let l := run_log run w in
  ((exists settled,
      l = [Invoke (RunEngine (dsp_command id)); settled] /\
      match ffmpeg_engine C (dsp_command id) inputBuffer with
      | Resolved out => settled = Resolve Conditioning /\ (run w).1 = Ok out
      | Rejected e => settled = Reject Conditioning e /\ (run w).1 = Throw e
      end)
   \/ (l = [] /\ existsSync (w_fs w) "./temp" = true /\ temp_dir (w_fs w) = false /\
       (run w).1 = Throw (enoent "open" (dsp_inputPath id)))) /\
  (temp_dir (w_fs w) = true \/ existsSync (w_fs w) "./temp" = false ->
     exists settled, l = [Invoke (RunEngine (dsp_command id)); settled]) /\
  (forall cmd, Invoke (RunEngine cmd) ∈ l ->
     cmd_audioFilters cmd =
       [ "highpass=f=80"; "lowpass=f=8000"; "afftdn";
         "silenceremove=1:0:-50dB"; "loudnorm" ] /\
     cmd_audioFrequency cmd = 16000 /\
     cmd_audioChannels cmd = 1 /\
     cmd_format cmd = "wav") /\
  (forall out, (run w).1 = Ok out ->
     exists cmd, l = [Invoke (RunEngine cmd); Resolve Conditioning] /\
       ffmpeg_engine C cmd inputBuffer = Resolved out).
Proof.
  intros run l.
  assert (Hcases :
    (l = [] /\ existsSync (w_fs w) "./temp" = true /\ temp_dir (w_fs w) = false /\
     (run w).1 = Throw (enoent "open" (dsp_inputPath id)))
    \/ (exists e, l = [Invoke (RunEngine (dsp_command id)); Reject Conditioning e]
         /\ (run w).1 = Throw e
         /\ ffmpeg_engine C (dsp_command id) inputBuffer = Rejected e)
    \/ (exists out, l = [Invoke (RunEngine (dsp_command id)); Resolve Conditioning]
         /\ (run w).1 = Ok out
         /\ ffmpeg_engine C (dsp_command id) inputBuffer = Resolved out)).
  { subst l run. unfold run_log. rewrite preprocessAudioDSP_eq. cbv zeta.
    unfold after_mkdir.
    destruct (existsSync (w_fs w) "./temp") eqn:Hex;
      [destruct (temp_dir (w_fs w)) eqn:Htemp |]; cbn [negb temp_dir];
      [ | left; cbn [snd fst]; by rewrite drop_all | ];
      (destruct (ffmpeg_engine C _ inputBuffer) as [out | e];
       cbn [snd fst w_log add_log set_fs]; rewrite drop_app_length;
       right; [right | left]; eauto). }
  destruct Hcases as [(Hl & Hex & Htemp & Hrun)
                     | [(e & Hl & Hrun & Heng) | (out & Hl & Hrun & Heng)]];
    rewrite Hl.
  - split; [by right |]. split.
    { intros [Ht | Hn]; congruence. }
    split; [intros cmd Hin; by apply elem_of_nil in Hin |].
    intros out Hout. congruence.
  - split; [left; eexists; split; [reflexivity |]; by rewrite Heng |].
    split; [eauto |]. split.
    { intros cmd Hin. in_log Hin. by injection Hin as ->. }
    intros out Hout. congruence.
  - split; [left; eexists; split; [reflexivity |]; by rewrite Heng |].
    split; [eauto |]. split.
    { intros cmd Hin. in_log Hin. by injection Hin as ->. }
    intros out' Hout. rewrite Hrun in Hout. injection Hout as <-. eauto.
Qed.

(** On a disk where [./temp] can be made the chain is applied: the engine
    is started with the five filters and returns the cleaned buffer. *)
Example preprocessAudioDSP_chain_applied :
  let run := preprocessAudioDSP stubs "run1" [1; 2; 3] in
  run_log run empty_world
  = [ Invoke (RunEngine
        {| cmd_input := "temp/raw_run1.wav";
           cmd_audioFilters := [ "highpass=f=80"; "lowpass=f=8000"; "afftdn";
                                 "silenceremove=1:0:-50dB"; "loudnorm" ];
           cmd_audioFrequency := 16000;
           cmd_audioChannels := 1;
           cmd_format := "wav";
           cmd_output := "temp/clean_run1.wav" |});
      Resolve Conditioning ] /\
  (run empty_world).1 = Ok [1; 2; 3].
Proof. split; reflexivity. Qed.


(** *** Releasing twice *)

Lemma unlinkIfExists_idempotent (p : string) :
  (forall st, existsSync st p = bool_decide (is_Some (files st !! resolve p))) ->
  release_idempotent unlinkIfExists p.
Proof.
  intros Hex st. eexists. rewrite unlinkIfExists_eq by apply Hex.
  split; [reflexivity |]. unfold present. cbn [files temp_dir].
  split; [| split].
  - rewrite lookup_delete_eq. by intros [? ?].
  - intros Hno. rewrite delete_id; [by destruct st |].
    destruct (files st !! resolve p) eqn:Hl; [| done]. destruct Hno. eauto.
  - rewrite unlinkIfExists_eq by apply Hex. cbn [files temp_dir].
    by rewrite delete_delete_eq.
Qed.

(** C8, as the code has it: the guarded release of the [catch] block of
    [/api/translate-audio] is idempotent and never throws, for both files of
    a run; the plain [fs.unlinkSync] of the success paths removes a file that
    is there and throws [ENOENT] when there is none. *)
Theorem guarded_release_idempotent (tempId : string) :
  release_idempotent unlinkIfExists (rawPath tempId) /\
  release_idempotent unlinkIfExists (cleanedPath tempId) /\
  (forall st p, present st p ->
     exists st', unlinkSync st p = Ok st' /\ ~ present st' p) /\
  (forall st p, ~ present st p -> unlinkSync st p = Throw (enoent "unlink" p)).
Proof.
  split; [| split; [| split]].
  - apply unlinkIfExists_idempotent. intros st. apply existsSync_rawPath.
  - apply unlinkIfExists_idempotent. intros st. apply existsSync_cleanedPath.
  - intros st p [data Hp]. unfold unlinkSync. rewrite Hp. eexists.
    split; [reflexivity |]. unfold present. cbn [files].
    rewrite lookup_delete_eq. by intros [? ?].
  - intros st p Hno. unfold unlinkSync, present in *.
    destruct (files st !! resolve p); [| done]. destruct Hno. eauto.
Qed.

(** C8 as stated fails on the success paths: releasing a file a second time
    with [fs.unlinkSync] throws. *)
Lemma unlinkSync_not_idempotent :
  ~ release_idempotent unlinkSync (rawPath "run1").
Proof.
  intros H. destruct (H {| temp_dir := true; files := ∅ |}) as (st' & Hr & _).
  vm_compute in Hr. discriminate Hr.
Qed.

(** *** Responses *)

Lemma runTranslationPipeline_caught C audio enc rate w e :
  (runTranslationPipeline C audio enc rate w).1 <> Uncaught e.
Proof.
  rewrite runTranslationPipeline_eq. cbv zeta.
  destruct (speechClient_recognize C audio _) as [results | e']; [| done].
  pose proof (first_transcripts_caught results) as Hft.
  destruct (first_transcripts results) as [ts | e' | e']; [| done | by destruct (Hft e')].
  destruct (falsy _); [done |].
  rewrite translateAndSynthesize_eq. cbv zeta.
  destruct (translationClient_translateText C _) as [[|t ts'] | e']; [done | | done].
  destruct (axios_post_tts C t) as [p | e']; [| done].
  pose proof (encodePayload_caught p "Gemini did not return audio.") as Hc.
  cbn [fst]. destruct (encodePayload p _) as [wav | e' | e']; cbn [mbind outcome_bind];
    [done | done | by destruct (Hc e')].
Qed.

Lemma translateAndSynthesize_caught C text w e :
  (translateAndSynthesize C text w).1 <> Uncaught e.
Proof.
  rewrite translateAndSynthesize_eq. cbv zeta.
  destruct (translationClient_translateText C _) as [[|t ts'] | e']; [done | | done].
  destruct (axios_post_tts C t) as [p | e']; [| done].
  pose proof (encodePayload_caught p "Gemini did not return audio.") as Hc.
  cbn [fst]. destruct (encodePayload p _) as [wav | e' | e']; cbn [mbind outcome_bind];
    [done | done | by destruct (Hc e')].
Qed.

(** C9: the answers of the two endpoints of [index1.js].  [/api/translate]
    always answers, and so does [/api/text-translate] for a request with a
    parsed body: when the pipeline returned a container the answer has a 2xx
    status, media type audio/wav, the container as body and a Content-Length
    equal to its byte length; in every other case (no upload or text, or an
    exception in the pipeline) it is a JSON object [{error: string}] with a
    status outside 2xx.  For a request without a parsed body
    [/api/text-translate] fails and sends no such object: the handler throws
    the [TypeError] of [req.body.text] outside its [try] block, before any
    collaborator is called. *)
Theorem endpoints_response_contract C (file : option buffer)
    (req_body : option request_body) w :
  (exists res, (api_translate C file w).1 = Ok res /\
     match file with
     | Some audio =>
         match (runTranslationPipeline C audio "WEBM_OPUS" 48000 w).1 with
         | Ok r => success_response res (wavBuffer r)
         | _ => error_response res
         end
     | None => error_response res
     end) /\
  match req_body with
  | Some b =>
      exists res, (api_text_translate C req_body w).1 = Ok res /\
        if falsy (body_text b) then error_response res
        else match (translateAndSynthesize C (default "" (body_text b)) w).1 with
             | Ok r => success_response res (wavBuffer r)
             | _ => error_response res
             end
  | None =>
      api_text_translate C req_body w = (Throw (undefined_property "text"), w) /\
      ~ exists res, (api_text_translate C req_body w).1 = Ok res
  end.
Proof.
  split.
  - unfold api_translate. destruct file as [audio |].
    + unfold try_catch. rewrite bind_eq.
      pose proof (runTranslationPipeline_caught C audio "WEBM_OPUS" 48000 w) as Hc.
      destruct (runTranslationPipeline C audio "WEBM_OPUS" 48000 w) as [[r | e | e] w'];
        cbn [fst] in *; [| | by destruct (Hc e)].
      * eexists. split; [reflexivity |]. apply res_send_audio; [cbn; lia |].
        cbn [headers res_setHeader res_new]. rewrite lookup_insert_ne by done.
        by rewrite lookup_insert_eq.
      * eexists. split; [reflexivity |]. apply res_json_error; lia.
    + eexists. split; [reflexivity |]. apply res_json_error; lia.
  - destruct req_body as [b |].
    + rewrite api_text_translate_body. destruct (falsy (body_text b)).
      * eexists. split; [reflexivity |]. apply res_json_error; lia.
      * unfold try_catch. rewrite bind_eq.
        pose proof (translateAndSynthesize_caught C (default "" (body_text b)) w) as Hc.
        destruct (translateAndSynthesize C (default "" (body_text b)) w)
          as [[r | e | e] w']; cbn [fst] in *; [| | by destruct (Hc e)].
        -- eexists. split; [reflexivity |]. apply res_send_audio; [cbn; lia |].
           cbn [headers res_setHeader res_new]. by rewrite lookup_insert_eq.
        -- eexists. split; [reflexivity |]. apply res_json_error; lia.
    + rewrite api_text_translate_no_body. split; [done |].
      by intros (res & Hres).
Qed.

(** A request to [/api/text-translate] whose body was not parsed: the run
    fails, no collaborator is called, and the handler answers nothing, so
    there is no [{error}] object. *)
Lemma text_translate_without_body :
  let run := api_text_translate stubs None in
  (run ready_world).1
  = Throw (TypeError "Cannot read properties of undefined (reading 'text')") /\
  run_log run ready_world = [] /\
  ~ exists res, (run ready_world).1 = Ok res /\ error_response res.
Proof.
  cbv zeta. rewrite api_text_translate_no_body.
  split; [reflexivity |]. split; [reflexivity |].
  by intros (res & Hres & _).
Qed.


(** *** The log of a run *)

Lemma run_log_eq {A} (m : M A) w r w' l :
  m w = (r, w') -> w_log w' = (w_log w ++ l)%list -> run_log m w = l.
Proof. intros H Hl. unfold run_log. rewrite H. cbn. by rewrite Hl, drop_app_length. Qed.

(** The handler of [/api/translate-audio] logs what its [try] block logs. *)
Lemma api_translate_audio_log C audio tempId dspId w :
  exists r w1 l,
    translate_audio_try C audio tempId dspId w = (r, w1) /\
    w_log w1 = (w_log w ++ l)%list /\
    run_log (api_translate_audio C (Some audio) tempId dspId) w = l /\
    (api_translate_audio C (Some audio) tempId dspId w).1 =
      match r with
      | Ok res => Ok res
      | Throw e => Ok (res_json (res_status res_new 500)
                         [("success", JBool false); ("error", JString (message e))])
      | Uncaught e => Uncaught e
      end.
Proof.
  destruct (translate_audio_try_spec C audio tempId dspId w)
    as (r & w1 & l & Hrun & Hlog & _).
  exists r, w1, l. split; [done |]. split; [done |].
  unfold api_translate_audio, try_catch.
  destruct r as [res | e | e].
  - split; [| by rewrite Hrun]. eapply run_log_eq; [by rewrite Hrun | done].
  - split; [| by rewrite Hrun, translate_audio_catch_eq].
    eapply run_log_eq; [by rewrite Hrun, translate_audio_catch_eq | done].
  - split; [| by rewrite Hrun]. eapply run_log_eq; [by rewrite Hrun | done].
Qed.

Ltac not_invoked :=
  let r := fresh "r" in
  let Hin := fresh "Hin" in
  let Hst := fresh "Hst" in
  intros (r & Hin & Hst); cbn [app] in Hin; in_log Hin;
  injection Hin as ->; discriminate Hst.

(** Where the empty-transcript check works: when the text the code tests is
    empty, the run stops in the recognition stage with the error of that
    stage, and neither the translator nor the synthesizer is invoked.  For
    [runTranslationPipeline] the text tested is the joined text of the
    results; for the [/api/translate-audio] handler it is
    [transcription.text], so there every empty or missing transcript is
    rejected. *)
Lemma empty_transcript_rejected C audio enc rate results ts tempId dspId w :
  speechClient_recognize C audio (recognizer_config enc rate) = Resolved results ->
  first_transcripts results = Ok ts ->
  falsy (Some (join_lines ts)) = true ->
  (forall content, exists text,
     openai_transcribe C content = Resolved text /\ falsy text = true) ->
  let run1 := runTranslationPipeline C audio enc rate in
  let run2 := api_translate_audio C (Some audio) tempId dspId in
  ((run1 w).1 = Throw (JsError "Could not understand audio.") /\
   current_stage (run_log run1 w) = Some Recognition /\
   ~ invoked Translation (run_log run1 w) /\
   ~ invoked Synthesis (run_log run1 w))
  /\
  (~ invoked Translation (run_log run2 w) /\
   ~ invoked Synthesis (run_log run2 w) /\
   forall content model prompt,
     Invoke (Transcribe content model prompt) ∈ run_log run2 w ->
     current_stage (run_log run2 w) = Some Recognition /\
     exists res, (run2 w).1 = Ok res /\ statusCode res = 500 /\
       sent res = Some (JsonBody [("success", JBool false);
                                  ("error", JString "Whisper failed to transcribe audio")])).
Proof.
  intros Hrec Hts Hempty Hstt run1 run2. split.
  - assert (Hrun : run1 w = (Throw (JsError "Could not understand audio."),
                             add_log w [Invoke (Recognize audio (recognizer_config enc rate));
                                        Resolve Recognition])).
    { unfold run1. rewrite runTranslationPipeline_eq. cbv zeta.
      by rewrite Hrec, Hts, Hempty. }
    rewrite (run_log_add_log _ _ _ _ Hrun), Hrun.
    split; [done |]. split; [done |]. split; not_invoked.
  - destruct (api_translate_audio_log C audio tempId dspId w)
      as (r & w1 & l & Htry & Hlog & Hl & Hres).
    destruct (translate_audio_try_spec C audio tempId dspId w)
      as (r' & w1' & l' & Htry' & Hlog' & _ & _ & _ & _ & Hstop & Hpast & _).
    rewrite Htry in Htry'. injection Htry' as <- <-.
    rewrite Hlog in Hlog'. apply app_inv_head in Hlog' as <-.
    fold run2 in Hl, Hres. rewrite Hl, Hres.
    assert (Hnone : forall rq, Invoke rq ∈ l ->
              stage_of rq = Translation \/ stage_of rq = Synthesis -> False).
    { intros rq Hin Hst.
      destruct (Hpast rq Hin Hst) as (content & model & prompt & text & _ & Ht & Hf).
      destruct (Hstt content) as (text' & Ht' & Hf'). congruence. }
    split; [| split].
    + intros (rq & Hin & Hst). eauto.
    + intros (rq & Hin & Hst). eauto.
    + intros content model prompt Hin.
      destruct (Hstt content) as (text & Ht & Hf).
      destruct (Hstop content model prompt text Hin Ht Hf) as (-> & cmd & ->).
      split; [done |]. eexists. split; [reflexivity |]. done.
Qed.


Lemma empty_transcript_rejected_witness :
  let C := with_recognizer stubs [] None in
  let run1 := runTranslationPipeline C [1; 2; 3] "WEBM_OPUS" 48000 in
  let run2 := api_translate_audio C (Some [1; 2; 3]) "req1" "run1" in
  ((run1 ready_world).1 = Throw (JsError "Could not understand audio.") /\
   current_stage (run_log run1 ready_world) = Some Recognition /\
   ~ invoked Translation (run_log run1 ready_world) /\
   ~ invoked Synthesis (run_log run1 ready_world))
  /\
  (~ invoked Translation (run_log run2 ready_world) /\
   ~ invoked Synthesis (run_log run2 ready_world) /\
   forall content model prompt,
     Invoke (Transcribe content model prompt) ∈ run_log run2 ready_world ->
     current_stage (run_log run2 ready_world) = Some Recognition /\
     exists res, (run2 ready_world).1 = Ok res /\ statusCode res = 500 /\
       sent res = Some (JsonBody [("success", JBool false);
                                  ("error", JString "Whisper failed to transcribe audio")])).
Proof.
  intros C.
  apply (empty_transcript_rejected C [1; 2; 3] "WEBM_OPUS" 48000 [] []
           "req1" "run1" ready_world).
  - reflexivity.
  - reflexivity.
  - reflexivity.
  - intros content. exists None. split; reflexivity.
Defined.

(** With that recognizer the handler does reach the recognition stage. *)
Lemma empty_transcript_reaches_recognition :
  run_log (api_translate_audio (with_recognizer stubs [] None)
             (Some [1; 2; 3]) "req1" "run1") ready_world
  = [ Invoke (RunEngine (dsp_command "run1")); Resolve Conditioning;
      Invoke (Transcribe [1; 2; 3] "gpt-4o-mini-transcribe"
                "The following audio is spoken in Assamese language.");
      Resolve Recognition ].
Proof. vm_compute. reflexivity. Qed.

(** No results, or one result without transcript, is an empty transcript;
    two results with empty transcripts join into a line break, which is not
    empty, so such a response is passed on to the translator. *)
Example join_lines_empty :
  join_lines [] = "" /\ join_lines [None] = "" /\ join_lines [Some ""] = "" /\
  falsy (Some (join_lines [Some ""; Some ""])) = false.
Proof. repeat split; reflexivity. Qed.

(** *** Several results without text *)

Lemma first_transcripts_empty results :
  Forall empty_result results ->
  exists ts, first_transcripts results = Ok ts /\
    length ts = length results /\ Forall (fun t => falsy t = true) ts.
Proof.
  induction 1 as [|r results (a & rest & Ha & Hf) _ (ts & Hts & Hlen & Hall)].
  - by exists [].
  - exists (transcript a :: ts). cbn [first_transcripts]. rewrite Ha, Hts.
    split; [done |]. split; [by rewrite !length_cons, Hlen | by constructor].
Qed.

Lemma falsy_default t : falsy t = true -> default "" t = "".
Proof.
  destruct t as [s |]; [| done]. cbn [falsy default].
  by intros ->%String.eqb_eq.
Qed.

(** Joining [n] texts that are empty or missing leaves the [n - 1] line
    breaks between them. *)
Lemma join_lines_falsy ts :
  Forall (fun t => falsy t = true) ts -> join_lines ts = line_breaks (length ts - 1).
Proof.
  induction 1 as [|t ts Ht Hts IH]; [done |].
  destruct ts as [|t' ts].
  - cbn [join_lines]. by rewrite falsy_default.
  - change (join_lines (t :: t' :: ts))
      with (default "" t ++ String "010"%char (join_lines (t' :: ts))).
    rewrite falsy_default, IH by done.
    change ("" ++ ?s) with s. cbn [length Nat.sub line_breaks].
    by rewrite Nat.sub_0_r.
Qed.

(** With at most one result the check does reject a transcript that is empty
    or missing. *)
Lemma lone_empty_transcript_rejected C audio enc rate results w :
  speechClient_recognize C audio (recognizer_config enc rate) = Resolved results ->
  Forall empty_result results ->
  (length results <= 1)%nat ->
  runTranslationPipeline C audio enc rate w
  = (Throw (JsError "Could not understand audio."),
     add_log w [Invoke (Recognize audio (recognizer_config enc rate));
                Resolve Recognition]).
Proof.
  intros Hrec Hall Hlen.
  destruct (first_transcripts_empty results Hall) as (ts & Hts & Hl & Hf).
  rewrite runTranslationPipeline_eq. cbv zeta. rewrite Hrec, Hts.
  rewrite (join_lines_falsy ts Hf), Hl.
  replace (length results - 1)%nat with 0%nat by lia. done.
Qed.

(** C4, the failing path: when the recognizer returns two or more results
    and the transcript of each is empty or missing, the text
    [runTranslationPipeline] tests is the line breaks the join puts between
    them, which is not empty.  The check lets it through: the run does not
    fail in the recognition stage, the translator is invoked with these line
    breaks, and when translator and synthesizer answer the run succeeds with
    them as [assameseText]. *)
Theorem empty_transcripts_reach_translator C audio enc rate results w :
  speechClient_recognize C audio (recognizer_config enc rate) = Resolved results ->
  Forall empty_result results ->
  (2 <= length results)%nat ->
  let run := runTranslationPipeline C audio enc rate in
  let text := line_breaks (length results - 1) in
  text <> "" /\
  (exists rest,
     run_log run w
     = Invoke (Recognize audio (recognizer_config enc rate)) :: Resolve Recognition
       :: Invoke (TranslateText text "as" "en") :: rest) /\
  invoked Translation (run_log run w) /\
  (run w).1 = (translateAndSynthesize C text w).1 /\
  (forall t ts p wav,
     translationClient_translateText C text = Resolved (t :: ts) ->
     axios_post_tts C t = Resolved p ->
     encodePayload p "Gemini did not return audio." = Ok wav ->
     invoked Synthesis (run_log run w) /\
     (run w).1 = Ok {| assameseText := text; englishText := t; wavBuffer := wav |}).
Proof.
  intros Hrec Hall Hlen run text.
  destruct (first_transcripts_empty results Hall) as (ts & Hts & Hl & Hf).
  assert (Htext : join_lines ts = text).
  { by rewrite (join_lines_falsy ts Hf), Hl. }
  assert (Hne : falsy (Some text) = false).
  { subst text. destruct (length results) as [|[|n]]; [lia | lia | done]. }
  set (w1 := add_log w [Invoke (Recognize audio (recognizer_config enc rate));
                        Resolve Recognition]).
  assert (Hrun : run w = translateAndSynthesize C text w1).
  { unfold run. rewrite runTranslationPipeline_eq. cbv zeta.
    by rewrite Hrec, Hts, Htext, Hne. }
  assert (Hlog : exists r rest,
            run w = (r, add_log w (Invoke (Recognize audio (recognizer_config enc rate))
                                   :: Resolve Recognition
                                   :: Invoke (TranslateText text "as" "en") :: rest)) /\
            (translateAndSynthesize C text w).1 = r /\
            (forall t ts', translationClient_translateText C text = Resolved (t :: ts') ->
               forall p, axios_post_tts C t = Resolved p ->
               Invoke (GenerateSpeech t "Puck") ∈ rest)).
  { rewrite Hrun, !translateAndSynthesize_eq. cbv zeta. subst w1.
    destruct (translationClient_translateText C text) as [[|t ts'] | e].
    - eexists _, _. rewrite add_log_app. split; [reflexivity |]. split; [done |].
      intros t0 ts0 [=].
    - destruct (axios_post_tts C t) as [p | e] eqn:Hp.
      + eexists _, _. rewrite add_log_app. split; [reflexivity |]. split; [done |].
        intros t0 ts0 [= <- _] p0 _. apply list_elem_of_further, list_elem_of_here.
      + eexists _, _. rewrite add_log_app. split; [reflexivity |]. split; [done |].
        intros t0 ts0 [= <- _] p0 Hp0. congruence.
    - eexists _, _. rewrite add_log_app. split; [reflexivity |]. split; [done |].
      intros t0 ts0 [=]. }
  destruct Hlog as (r & rest & Hw & Hr & Hsyn).
  rewrite (run_log_add_log _ _ _ _ Hw).
  split. { intros Heq. by rewrite Heq in Hne. }
  split; [by exists rest |].
  split.
  { eexists. split; [do 2 apply list_elem_of_further; apply list_elem_of_here | done]. }
  split; [by rewrite Hw, Hr |].
  intros t ts' p wav Ht Hp Hwav. split.
  - eexists. split; [do 3 apply list_elem_of_further; by eapply Hsyn | done].
  - rewrite Hw. cbn [fst]. rewrite <- Hr, translateAndSynthesize_eq. cbv zeta.
    rewrite Ht, Hp. cbn [fst]. by rewrite Hwav.
Qed.

Lemma empty_transcripts_reach_translator_witness :
  let silence := {| alternatives := [ {| transcript := Some "" |} ] |} in
  let C := with_recognizer stubs [silence; silence] None in
  let run := runTranslationPipeline C [1; 2; 3] "WEBM_OPUS" 48000 in
  let text := line_breaks 1 in
  text <> "" /\
  (exists rest,
     run_log run ready_world
     = Invoke (Recognize [1; 2; 3] (recognizer_config "WEBM_OPUS" 48000))
       :: Resolve Recognition
       :: Invoke (TranslateText text "as" "en") :: rest) /\
  invoked Translation (run_log run ready_world) /\
  (run ready_world).1 = (translateAndSynthesize C text ready_world).1 /\
  (forall t ts p wav,
     translationClient_translateText C text = Resolved (t :: ts) ->
     axios_post_tts C t = Resolved p ->
     encodePayload p "Gemini did not return audio." = Ok wav ->
     invoked Synthesis (run_log run ready_world) /\
     (run ready_world).1
     = Ok {| assameseText := text; englishText := t; wavBuffer := wav |}).
Proof.
  intros silence C.
  apply (empty_transcripts_reach_translator C [1; 2; 3] "WEBM_OPUS" 48000
           [silence; silence] ready_world).
  - reflexivity.
  - repeat constructor; exists {| transcript := Some "" |}, []; split; reflexivity.
  - simpl. lia.
Defined.

(** At that input [/api/translate] answers 200 with a container: the line
    break was translated and synthesized, where C4 has the run fail in the
    recognition stage with neither collaborator invoked. *)
Example two_empty_results_are_translated :
  let silence := {| alternatives := [ {| transcript := Some "" |} ] |} in
  let C := with_recognizer stubs [silence; silence] None in
  let run := api_translate C (Some [1; 2; 3]) in
  run_log run ready_world
  = [ Invoke (Recognize [1; 2; 3] (recognizer_config "WEBM_OPUS" 48000));
      Resolve Recognition;
      Invoke (TranslateText (String "010"%char "") "as" "en"); Resolve Translation;
      Invoke (GenerateSpeech (String "010"%char "") "Puck"); Resolve Synthesis ] /\
  match (run ready_world).1 with
  | Ok res =>
      statusCode res = 200 /\
      exists wav, sent res = Some (BufferBody wav) /\ length wav = 48%nat
  | _ => False
  end.
Proof. split; [reflexivity |]. vm_compute. split; [reflexivity |]. eauto. Qed.

(** C5: in every run of [runTranslationPipeline] and of the
    [/api/translate-audio] handler the collaborator calls do not overlap,
    translation is invoked only after the recognition call has resolved and
    synthesis only after the translation call has resolved (in the handler,
    recognition only after the conditioning engine has ended); and in
    [runTranslationPipeline] the translator is given the recognized text and
    the synthesizer the translated text. *)
Theorem stages_run_in_order C audio enc rate (file : option buffer) tempId dspId w :
  let l1 := run_log (runTranslationPipeline C audio enc rate) w in
  let l2 := run_log (api_translate_audio C file tempId dspId) w in
  stage_order l1 /\
  (stage_order l2 /\ precedes Conditioning Recognition l2) /\
  (forall text src tgt, Invoke (TranslateText text src tgt) ∈ l1 ->
     exists results ts,
       speechClient_recognize C audio (recognizer_config enc rate) = Resolved results /\
       first_transcripts results = Ok ts /\ text = join_lines ts) /\
  (forall english voice, Invoke (GenerateSpeech english voice) ∈ l1 ->
     exists text rest,
       Invoke (TranslateText text "as" "en") ∈ l1 /\
       translationClient_translateText C text = Resolved (english :: rest)).
Proof.
  intros l1 l2.
  assert (H1 : stage_order l1 /\
    (forall text src tgt, Invoke (TranslateText text src tgt) ∈ l1 ->
       exists results ts,
         speechClient_recognize C audio (recognizer_config enc rate) = Resolved results /\
         first_transcripts results = Ok ts /\ text = join_lines ts) /\
    (forall english voice, Invoke (GenerateSpeech english voice) ∈ l1 ->
       exists text rest,
         Invoke (TranslateText text "as" "en") ∈ l1 /\
         translationClient_translateText C text = Resolved (english :: rest))).
  { subst l1. unfold run_log. rewrite runTranslationPipeline_eq. cbv zeta.
    destruct (speechClient_recognize C audio _) as [results | e] eqn:Hrec.
    2:{ cbn [snd w_log add_log]. rewrite drop_app_length.
        split; [apply stage_order_check; reflexivity |].
        split; [intros ? ? ? Hin | intros ? ? Hin]; in_log Hin. }
    destruct (first_transcripts results) as [ts | e | e] eqn:Hts.
    2,3: cbn [snd w_log add_log]; rewrite drop_app_length;
         (split; [apply stage_order_check; reflexivity |]);
         (split; [intros ? ? ? Hin | intros ? ? Hin]); in_log Hin.
    destruct (falsy _).
    { cbn [snd w_log add_log]. rewrite drop_app_length.
      split; [apply stage_order_check; reflexivity |].
      split; [intros ? ? ? Hin | intros ? ? Hin]; in_log Hin. }
    rewrite translateAndSynthesize_eq. cbv zeta.
    destruct (translationClient_translateText C _) as [[|t rest] | e] eqn:Htr.
    1,3: cbn [snd w_log add_log]; rewrite <- app_assoc, drop_app_length;
         (split; [apply stage_order_check; reflexivity |]);
         (split; [intros ? ? ? Hin; cbn [app] in Hin; in_log Hin;
                  injection Hin as -> -> ->; eauto
                 | intros ? ? Hin; cbn [app] in Hin; in_log Hin]).
    destruct (axios_post_tts C t) as [p | e];
      cbn [snd w_log add_log]; rewrite <- app_assoc, drop_app_length;
      (split; [apply stage_order_check; reflexivity |]);
      (split; [intros ? ? ? Hin; cbn [app] in Hin; in_log Hin;
               injection Hin as -> -> ->; eauto
              | intros ? ? Hin; cbn [app] in Hin; in_log Hin;
                injection Hin as -> ->; eexists _, _;
                split; [| exact Htr];
                repeat first [apply list_elem_of_here | apply list_elem_of_further]]). }
  destruct H1 as (Ho1 & Hd1 & Hd2).
  split; [done |]. split; [| done].
  subst l2. destruct file as [audio' |].
  - destruct (api_translate_audio_log C audio' tempId dspId w)
      as (r & w1 & l & Htry & Hlog & -> & _).
    destruct (translate_audio_try_spec C audio' tempId dspId w)
      as (r' & w1' & l' & Htry' & Hlog' & Hs & Hp1 & Hp2 & Hp3 & _).
    rewrite Htry in Htry'. injection Htry' as <- <-.
    rewrite Hlog in Hlog'. apply app_inv_head in Hlog' as <-.
    split; [by apply stage_order_check | by apply precedesb_sound].
  - unfold run_log, api_translate_audio. cbn [mret M_ret snd]. rewrite drop_all.
    split; [by apply stage_order_check | by apply precedesb_sound].
Qed.


(** *** The synthesis payload *)

Lemma falsy_Some_false d : falsy (Some d) = false <-> d <> "".
Proof. unfold falsy. rewrite String.eqb_neq. done. Qed.

Lemma decodePcm_even d bin :
  atob d = Ok bin -> Nat.Even (String.length bin) ->
  decodePcm d = Ok (read_int16s (map charCode (list_ascii_of_string bin))).
Proof.
  intros Hatob [k Hk]. unfold decodePcm.
  rewrite (base64ToArrayBuffer_atob _ _ Hatob). cbn [mbind outcome_bind].
  rewrite Int16Array_0, length_map, length_list_ascii_of_string.
  by rewrite Hk, Nat.mul_comm, Nat.Div0.mod_mul.
Qed.

Lemma encodePayload_pcm d bin msg :
  d <> "" -> atob d = Ok bin -> Nat.Even (String.length bin) ->
  let bytes := map charCode (list_ascii_of_string bin) in
  encodePayload (Some d) msg
  = Ok (wav_header (length (read_int16s bytes)) 24000 ++ bytes)%list.
Proof.
  intros Hd Hatob Heven bytes. unfold encodePayload.
  rewrite (proj2 (falsy_Some_false d) Hd). change (default "" (Some d)) with d.
  rewrite (decodePcm_even _ _ Hatob Heven). cbn [mbind outcome_bind].
  rewrite pcmToWav_bytes. cbn [mbind outcome_bind blob_bytes]. fold bytes.
  rewrite pcm_bytes_read_int16s; [done | |].
  - apply Forall_forall. intros b Hb. apply list_elem_of_fmap in Hb as (c & -> & _).
    apply charCode_is_byte.
  - unfold bytes. rewrite length_map, length_list_ascii_of_string.
    destruct Heven as [k ->]. by rewrite Nat.mul_comm, Nat.Div0.mod_mul.
Qed.

(** C7: with the translation resolved and the synthesizer's call resolved
    with the payload [p]: a missing or empty payload makes the run fail in the
    synthesis stage and no container is produced; a non-empty payload that is
    base64 text of an even number of bytes is decoded into int16 samples and
    encoded at 24000 Hz, the container being the 44 header bytes followed by
    the decoded bytes; and a container is returned only for a non-empty
    payload. *)
Theorem synthesis_requires_payload C text english rest p w :
  translationClient_translateText C text = Resolved (english :: rest) ->
  axios_post_tts C english = Resolved p ->
  let r1 := (translateAndSynthesize C text w).1 in
  let r2 := (englishTextToSpeech C english w).1 in
  (falsy p = true ->
     r1 = Throw (JsError "Gemini did not return audio.") /\
     r2 = Throw (JsError "Gemini TTS did not return audio") /\
     current_stage (run_log (translateAndSynthesize C text) w) = Some Synthesis)
  /\ (forall d bin,
        p = Some d -> d <> "" -> atob d = Ok bin -> Nat.Even (String.length bin) ->
        let bytes := map charCode (list_ascii_of_string bin) in
        exists samples blob,
          decodePcm d = Ok samples /\
          length samples = (String.length bin / 2)%nat /\
          pcmToWav samples 24000 = Ok blob /\
          blob_bytes blob = (wav_header (length samples) 24000 ++ bytes)%list /\
          r1 = Ok {| assameseText := text; englishText := english;
                     wavBuffer := blob_bytes blob |} /\
          r2 = Ok (blob_bytes blob))
  /\ (forall v, r1 = Ok v -> falsy p = false)
  /\ (forall v, r2 = Ok v -> falsy p = false).
Proof.
  intros Htr Htts r1 r2. subst r1 r2.
  assert (Hlog : run_log (translateAndSynthesize C text) w =
                 [Invoke (TranslateText text "as" "en"); Resolve Translation;
                  Invoke (GenerateSpeech english "Puck"); Resolve Synthesis]).
  { eapply run_log_add_log. rewrite translateAndSynthesize_eq. cbv zeta.
    rewrite Htr, Htts. reflexivity. }
  rewrite translateAndSynthesize_eq, englishTextToSpeech_eq. cbv zeta.
  rewrite Htr, Htts. cbn [fst].
  split; [| split; [| split]].
  - intros Hf. unfold encodePayload. rewrite Hf. by rewrite Hlog.
  - intros d bin -> Hd Hatob Heven.
    set (bytes := map charCode (list_ascii_of_string bin)).
    pose proof (encodePayload_pcm d bin) as Henc. cbv zeta in Henc. fold bytes in Henc.
    rewrite !Henc by done. cbn [mbind outcome_bind].
    eexists _, _. split; [by apply decodePcm_even |].
    split; [by rewrite length_read_int16s, length_map, length_list_ascii_of_string |].
    split; [apply pcmToWav_bytes |]. cbn [blob_bytes]. fold bytes.
    assert (Hb : pcm_bytes (read_int16s bytes) = bytes).
    { apply pcm_bytes_read_int16s.
      - apply Forall_forall. intros b Hb. apply list_elem_of_fmap in Hb as (c & -> & _).
        apply charCode_is_byte.
      - unfold bytes. rewrite length_map, length_list_ascii_of_string.
        destruct Heven as [k ->]. by rewrite Nat.mul_comm, Nat.Div0.mod_mul. }
    rewrite Hb. done.
  - intros v. unfold encodePayload. by destruct (falsy p).
  - intros v. unfold encodePayload. by destruct (falsy p).
Qed.

Lemma synthesis_requires_payload_witness :
  let r1 := (translateAndSynthesize stubs "hello" ready_world).1 in
  let r2 := (englishTextToSpeech stubs "hello" ready_world).1 in
  exists samples blob,
    decodePcm "ZACc/w==" = Ok samples /\
    length samples = 2%nat /\
    pcmToWav samples 24000 = Ok blob /\
    length (blob_bytes blob) = 48%nat /\
    r1 = Ok {| assameseText := "hello"; englishText := "hello";
               wavBuffer := blob_bytes blob |} /\
    r2 = Ok (blob_bytes blob).
Proof.
  intros r1 r2.
  destruct (synthesis_requires_payload stubs "hello" "hello" [] (Some "ZACc/w==")
              ready_world eq_refl eq_refl) as (_ & H & _).
  destruct (H "ZACc/w==" (String "d" (String "000" (String "156" (String "255" ""))))
              eq_refl ltac:(discriminate) eq_refl ltac:(by exists 2%nat))
    as (samples & blob & H1 & H2 & H3 & H4 & H5 & H6).
  exists samples, blob. repeat split; try assumption.
  rewrite H4, length_app, length_wav_header. reflexivity.
Defined.


(** *** An end-to-end run *)

(** With the stub collaborators, both endpoints answer with the 48-byte
    container of the two samples: RIFF size 40 and data size 4. *)
Example end_to_end_stubs :
  let run := api_translate_audio stubs (Some [1; 2; 3]) "req1" "run1" ready_world in
  match run.1 with
  | Ok res =>
      statusCode res = 200 /\
      match sent res with
      | Some (BufferBody wav) =>
          length wav = 48%nat /\
          getUint32 wav 4 = Some 40 /\ getUint32 wav 40 = Some 4 /\
          read_int16s (drop 44 wav) = [100; -100]
      | _ => False
      end
  | _ => False
  end /\
  map_to_list (files (w_fs run.2)) = [].
Proof. vm_compute. repeat split; reflexivity. Qed.

End Claims.

(** ** Further properties of the codec, the pipeline and the test endpoints *)

Module CodecExtras.
Import WavHelper WavHelperFacts Base64 Base64Facts Pipeline PipelineFacts Diagnostics.

Lemma pcm_bytes_bytes src : Forall is_byte (pcm_bytes src).
Proof.
  induction src as [|s src IH]; [constructor |].
  cbn [pcm_bytes flat_map app]. fold (pcm_bytes src).
  apply Forall_cons. split; [apply byte_at_range |].
  apply Forall_cons. split; [apply byte_at_range | exact IH].
Qed.

Lemma wav_header_bytes n R : Forall is_byte (wav_header n R).
Proof.
  unfold wav_header. cbn [app].
  repeat (apply Forall_cons; split;
          [first [apply byte_at_range | unfold is_byte; lia] |]).
  constructor.
Qed.

(** X1: [pcmToWav] never throws: for any numbers and any rate it returns a
    blob of type audio/wav of exactly [44 + 2 * N] bytes, each in [0, 256). *)
Theorem pcmToWav_total (pcmData : list Z) (sampleRate : Z) :
  exists blob,
    pcmToWav pcmData sampleRate = Ok blob /\
    blob_type blob = "audio/wav" /\
    length (blob_bytes blob) = (44 + 2 * length pcmData)%nat /\
    Forall is_byte (blob_bytes blob).
Proof.
  rewrite pcmToWav_bytes. eexists. split; [reflexivity |].
  split; [reflexivity |]. cbn [blob_bytes]. split.
  - by rewrite length_app, length_wav_header, length_pcm_bytes.
  - apply Forall_app. split; [apply wav_header_bytes | apply pcm_bytes_bytes].
Qed.

Lemma ToInt16_range s : is_int16 (ToInt16 s).
Proof.
  unfold is_int16, ToInt16. change (2 ^ 16) with 65536. change (2 ^ 15) with 32768.
  case_match; Z.div_mod_to_equations; lia.
Qed.

Lemma ToInt16_idemp s : ToInt16 (ToInt16 s) = ToInt16 s.
Proof.
  unfold ToInt16. change (2 ^ 16) with 65536. change (2 ^ 15) with 32768.
  repeat case_match; Z.div_mod_to_equations; lia.
Qed.

Lemma pcm_bytes_ToInt16 src : pcm_bytes (map ToInt16 src) = pcm_bytes src.
Proof.
  induction src as [|s src IH]; [done |].
  cbn [map pcm_bytes flat_map app]. fold (pcm_bytes (map ToInt16 src)) (pcm_bytes src).
  by rewrite ToInt16_idemp, IH.
Qed.

(** X2: samples are stored modulo 2^16: whatever integers are passed, the
    sample region of the container reads back as their [ToInt16] images, so
    a number outside the int16 range comes back wrapped, never clipped. *)
Theorem pcmToWav_wraps_samples (pcmData : list Z) (sampleRate : Z) :
  exists blob,
    pcmToWav pcmData sampleRate = Ok blob /\
    Int16Array (blob_bytes blob) 44 = Ok (map ToInt16 pcmData).
Proof.
  rewrite pcmToWav_bytes. eexists. split; [reflexivity |]. cbn [blob_bytes].
  change 44%nat with (length (wav_header (length pcmData) sampleRate)).
  rewrite Int16Array_app; [| done |].
  - rewrite <- pcm_bytes_ToInt16, read_int16s_pcm_bytes; [done |].
    apply Forall_forall. intros x Hx. apply list_elem_of_fmap in Hx as (s & -> & _).
    apply ToInt16_range.
  - rewrite length_pcm_bytes, Nat.mul_comm. apply Nat.Div0.mod_mul.
Qed.

Lemma uint32_bytes_mod v :
  byte_at 0 (ToUint32 v) + 256 * byte_at 1 (ToUint32 v)
  + 65536 * byte_at 2 (ToUint32 v) + 16777216 * byte_at 3 (ToUint32 v)
  = v mod 2 ^ 32.
Proof.
  assert (H : ToUint32 (v mod 2 ^ 32) = ToUint32 v).
  { unfold ToUint32. by rewrite Z.mod_mod. }
  rewrite <- H. apply uint32_bytes. change 4294967296 with (2 ^ 32).
  apply Z.mod_pos_bound. lia.
Qed.

(** X3: the four numeric 32-bit header fields hold their values modulo 2^32
    for every rate and length (there is no range check), and the fixed fields
    do not depend on the input at all. *)
Theorem pcmToWav_header_fields_modulo (pcmData : list Z) (sampleRate : Z) :
  exists blob,
    pcmToWav pcmData sampleRate = Ok blob /\
    let b := blob_bytes blob in
    let N := Z.of_nat (length pcmData) in
    getUint32 b 4 = Some ((36 + 2 * N) mod 2 ^ 32) /\
    getUint32 b 24 = Some (sampleRate mod 2 ^ 32) /\
    getUint32 b 28 = Some ((sampleRate * 2) mod 2 ^ 32) /\
    getUint32 b 40 = Some ((2 * N) mod 2 ^ 32) /\
    take 4 b = [82; 73; 70; 70] /\
    take 16 (drop 8 b) = [87; 65; 86; 69; 102; 109; 116; 32; 16; 0; 0; 0; 1; 0; 1; 0] /\
    take 8 (drop 32 b) = [2; 0; 16; 0; 100; 97; 116; 97].
Proof.
  rewrite pcmToWav_bytes. eexists. split; [reflexivity |].
  cbn [blob_bytes]. cbv zeta. unfold getUint32, wav_header.
  cbn -[byte_at ToUint32 ToUint16 Z.mul Z.add Z.sub Z.div Z.of_nat Z.modulo Z.pow].
  replace (sampleRate * 1 * 16 / 8) with (sampleRate * 2)
    by (Z.div_mod_to_equations; lia).
  rewrite !uint32_bytes_mod.
  repeat split; try reflexivity; do 2 f_equal; lia.
Qed.


Lemma byte_at_0_charCode c : byte_at 0 (ToUint8 (charCode c)) = charCode c.
Proof.
  rewrite charCode_byte. unfold byte_at. change (256 ^ Z.of_nat 0) with 1.
  rewrite Z.div_1_r. apply Z.mod_small. apply charCode_is_byte.
Qed.

(** X4: [writeString] stores the character codes of the string from the
    given offset on and leaves every other byte alone; it throws the
    [RangeError] of [setUint8] exactly when the string is not empty and does
    not fit between the offset and the end of the view. *)
Theorem writeString_spec (view : buffer) (offset : nat) (s : string) :
  writeString view offset s =
    if decide (s = "" \/ (offset + String.length s <= length view)%nat)
    then Ok (take offset view ++ map charCode (list_ascii_of_string s)
               ++ drop (offset + String.length s) view)%list
    else Throw out_of_bounds.
Proof.
  revert view offset. induction s as [|c s IH]; intros view offset.
  - rewrite decide_True by auto. cbn [writeString String.length list_ascii_of_string map app].
    by rewrite Nat.add_0_r, take_drop.
  - cbn [writeString String.length list_ascii_of_string map]. unfold setUint8.
    destruct (decide (offset + 1 <= length view)%nat) as [Hfit | Hfit].
    + cbn [mbind outcome_bind]. rewrite IH, length_insert, byte_at_0_charCode.
      destruct (decide (s = "" \/ (S offset + String.length s <= length view)%nat))
        as [Hs | Hs].
      * assert (Hall : (offset + S (String.length s) <= length view)%nat).
        { destruct Hs as [-> | Hs]; cbn [String.length]; lia. }
        rewrite decide_True by auto.
        rewrite (take_S_r _ _ (charCode c)) by (apply list_lookup_insert_eq; lia).
        rewrite take_insert_ge by lia.
        rewrite drop_insert_lt by lia.
        replace (S offset + String.length s)%nat
          with (offset + S (String.length s))%nat by lia.
        by rewrite <- app_assoc.
      * rewrite decide_False; [done |].
        intros [Hc | Hc]; [discriminate |]. apply Hs. right. lia.
    + rewrite decide_False; [done |].
      intros [Hc | Hc]; [discriminate |]. lia.
Qed.

(** *** Base64 *)

Lemma sextets_Some cs vs :
  sextets cs = Some vs ->
  Forall (fun c => is_Some (sextet c)) cs /\ length vs = length cs.
Proof.
  revert vs. induction cs as [|c cs IH]; intros vs H.
  - injection H as <-. by split.
  - cbn [sextets] in H. destruct (sextet c) as [v|] eqn:Hc; [| done].
    cbn [mbind option_bind] in H. destruct (sextets cs) as [vs'|]; [| done].
    injection H as <-. destruct (IH vs' eq_refl) as [Hf Hl].
    split; [constructor; [by rewrite Hc | done] | simpl; congruence].
Qed.

Lemma sextets_None cs :
  sextets cs = None -> Exists (fun c => sextet c = None) cs.
Proof.
  induction cs as [|c cs IH]; [done |].
  cbn [sextets]. destruct (sextet c) as [v|] eqn:Hc; [| by left].
  cbn [mbind option_bind]. destruct (sextets cs) as [vs'|]; [done |].
  intros _. right. by apply IH.
Qed.

Lemma length_decode_sextets vs :
  length (decode_sextets vs) = (length vs * 3 / 4)%nat.
Proof.
  induction vs as [vs IH] using (induction_ltof1 _ (@length Z)); unfold ltof in IH.
  destruct vs as [|a [|b [|c [|d vs]]]]; [done | done | done | done |].
  cbn [decode_sextets length]. rewrite IH by (simpl; lia).
  replace (S (S (S (S (length vs)))) * 3)%nat with (length vs * 3 + 3 * 4)%nat by lia.
  rewrite Nat.div_add by lia. lia.
Qed.

(** X5: [base64ToArrayBuffer] on a text with [n] significant characters
    (whitespace and the final padding set aside): it throws
    [InvalidCharacterError] when [n mod 4 = 1] or one of them is outside the
    base64 alphabet, and otherwise returns [n * 3 / 4] bytes, each in
    [0, 256). *)
Theorem base64ToArrayBuffer_outcome (base64 : string) :
  let cs := significant base64 in
  (base64ToArrayBuffer base64 = Throw invalid_character /\
   ((length cs mod 4 = 1)%nat \/ Exists (fun c => sextet c = None) cs))
  \/
  (exists bytes,
     base64ToArrayBuffer base64 = Ok bytes /\
     (length cs mod 4 <> 1)%nat /\
     Forall (fun c => is_Some (sextet c)) cs /\
     length bytes = (length cs * 3 / 4)%nat /\
     Forall is_byte bytes).
Proof.
  intros cs.
  destruct (atob base64) as [bin | e | e] eqn:Hatob.
  - right. exists (map charCode (list_ascii_of_string bin)).
    split; [by apply base64ToArrayBuffer_atob |].
    unfold atob in Hatob. fold (significant base64) in Hatob. fold cs in Hatob.
    destruct (length cs mod 4 =? 1)%nat eqn:Hm; [done |].
    apply Nat.eqb_neq in Hm.
    destruct (sextets cs) as [vs|] eqn:Hs; [| done].
    injection Hatob as <-. destruct (sextets_Some _ _ Hs) as [Hf Hl].
    split; [done |]. split; [done |]. split.
    + rewrite list_ascii_of_string_of_list_ascii, !length_map.
      by rewrite length_decode_sextets, Hl.
    + apply Forall_forall. intros b Hb.
      apply list_elem_of_fmap in Hb as (c & -> & _). apply charCode_is_byte.
  - left. unfold base64ToArrayBuffer. rewrite Hatob. cbn [mbind outcome_bind].
    unfold atob in Hatob. fold (significant base64) in Hatob. fold cs in Hatob.
    destruct (length cs mod 4 =? 1)%nat eqn:Hm.
    + injection Hatob as <-. split; [done |]. left. by apply Nat.eqb_eq.
    + destruct (sextets cs) as [vs|] eqn:Hs; [done |].
      injection Hatob as <-. split; [done |]. right. by apply sextets_None.
  - by destruct (atob_caught base64 e).
Qed.

End CodecExtras.

Module PipelineExtras.
Import WavHelper WavHelperFacts Base64 Base64Facts Fs Pipeline PipelineFacts.
Import Claims Diagnostics.

(** *** Files a computation leaves alone *)

Ltac elem_here :=
  repeat first [apply list_elem_of_here | apply list_elem_of_further].

Ltac not_elem :=
  rewrite ?not_elem_of_cons; repeat split; try done; try apply not_elem_of_nil.

Lemma frame_mono {A} (W W' : list string) (m : M A) :
  W ⊆ W' -> frame W m -> frame W' m.
Proof. intros Hsub Hm w p Hp. apply Hm. intros Hin. apply Hp, Hsub, Hin. Qed.

Lemma frame_bind {A B} W (m : M A) (k : A -> M B) :
  frame W m -> (forall a, frame W (k a)) -> frame W (m ≫= k).
Proof.
  intros Hm Hk w p Hp. rewrite bind_eq. specialize (Hm w p Hp).
  destruct (m w) as [[a | e | e] w1]; cbn [snd] in *; [| done | done].
  by rewrite (Hk a w1 p Hp).
Qed.

Lemma frame_try_catch {A} W (m : M A) (h : error -> M A) :
  frame W m -> (forall e, frame W (h e)) -> frame W (try_catch m h).
Proof.
  intros Hm Hh w p Hp. unfold try_catch. specialize (Hm w p Hp).
  destruct (m w) as [[a | e | e] w1]; cbn [snd] in *; [done | | done].
  by rewrite (Hh e w1 p Hp).
Qed.

Lemma frame_pure {A} W (f : world -> outcome A) : frame W (fun w => (f w, w)).
Proof. by intros w p Hp. Qed.

Lemma frame_await {A} W r (settles : reply A) : frame W (await r settles).
Proof.
  intros w p Hp. destruct settles; by rewrite ?await_Resolved, ?await_Rejected.
Qed.

Lemma frame_write W path data :
  resolve path ∈ W -> frame W (fs_do (fun st => writeFileSync st path data)).
Proof.
  intros Hin w p Hp. unfold fs_do.
  destruct (writeFileSync_cases (w_fs w) path data) as [H | H]; rewrite H; [done |].
  cbn [snd w_fs files]. apply lookup_insert_ne. intros Heq. apply Hp. by rewrite <- Heq.
Qed.

Lemma frame_unlink W path :
  resolve path ∈ W -> frame W (fs_do (fun st => unlinkSync st path)).
Proof.
  intros Hin w p Hp. unfold fs_do.
  destruct (unlinkSync_cases (w_fs w) path) as [H | H]; rewrite H; [done |].
  cbn [snd w_fs files]. apply lookup_delete_ne. intros Heq. apply Hp. by rewrite <- Heq.
Qed.

Lemma frame_preprocessAudioDSP W C id buf :
  resolve (dsp_inputPath id) ∈ W -> resolve (dsp_outputPath id) ∈ W ->
  frame W (preprocessAudioDSP C id buf).
Proof.
  intros Hi Ho w p Hp. rewrite preprocessAudioDSP_eq. cbv zeta.
  assert (Hpi : resolve (dsp_inputPath id) ≠ p) by (intros Heq; apply Hp; by rewrite <- Heq).
  assert (Hpo : resolve (dsp_outputPath id) ≠ p) by (intros Heq; apply Hp; by rewrite <- Heq).
  assert (Hmk : files (after_mkdir (w_fs w)) = files (w_fs w)).
  { unfold after_mkdir. by destruct (existsSync _ _). }
  destruct (negb (temp_dir _)); [done |].
  destruct (ffmpeg_engine C _ buf); cbn [snd w_fs add_log set_fs files].
  - by rewrite !lookup_delete_ne, !lookup_insert_ne, Hmk.
  - by rewrite lookup_insert_ne, Hmk.
Qed.

Lemma frame_speechToAssameseText W C path : frame W (speechToAssameseText C path).
Proof.
  intros w p Hp. rewrite speechToAssameseText_eq.
  destruct (readFileSync _ _); [| done | done].
  by destruct (openai_transcribe C _).
Qed.

Lemma frame_translateAssameseToEnglish W C text :
  frame W (translateAssameseToEnglish C text).
Proof.
  intros w p Hp. rewrite translateAssameseToEnglish_eq. cbv zeta.
  by destruct (translationClient_translateText C text) as [[|t ts] | e].
Qed.

Lemma frame_englishTextToSpeech W C text : frame W (englishTextToSpeech C text).
Proof.
  intros w p Hp. rewrite englishTextToSpeech_eq. by destruct (axios_post_tts C text).
Qed.

Lemma frame_translateAndSynthesize W C text : frame W (translateAndSynthesize C text).
Proof.
  intros w p Hp. rewrite translateAndSynthesize_eq. cbv zeta.
  destruct (translationClient_translateText C text) as [[|t ts] | e]; [done | | done].
  by destruct (axios_post_tts C t).
Qed.

Lemma frame_runTranslationPipeline W C audio enc rate :
  frame W (runTranslationPipeline C audio enc rate).
Proof.
  intros w p Hp. rewrite runTranslationPipeline_eq. cbv zeta.
  destruct (speechClient_recognize C audio _); [| done].
  destruct (first_transcripts _); [| done | done].
  destruct (falsy _); [done |].
  by rewrite (frame_translateAndSynthesize W C _ _ p Hp).
Qed.

(** *** Settling *)

Lemma preprocessAudioDSP_settles C id buf : settles (preprocessAudioDSP C id buf).
Proof.
  intros w e. rewrite preprocessAudioDSP_eq. cbv zeta.
  destruct (negb (temp_dir _)); [done |]. by destruct (ffmpeg_engine C _ buf).
Qed.

Lemma preprocessAudioDSP_output C id buf w out :
  (preprocessAudioDSP C id buf w).1 = Ok out ->
  ffmpeg_engine C (dsp_command id) buf = Resolved out.
Proof.
  rewrite preprocessAudioDSP_eq. cbv zeta.
  destruct (negb (temp_dir _)); [done |].
  destruct (ffmpeg_engine C _ buf); [| done]. cbn [fst]. congruence.
Qed.

Lemma preprocessAudioDSP_releases C id buf w out :
  (preprocessAudioDSP C id buf w).1 = Ok out ->
  files (w_fs (preprocessAudioDSP C id buf w).2) !! resolve (dsp_inputPath id) = None /\
  files (w_fs (preprocessAudioDSP C id buf w).2) !! resolve (dsp_outputPath id) = None.
Proof.
  pose proof (dsp_paths_differ id) as Hne.
  rewrite preprocessAudioDSP_eq. cbv zeta.
  destruct (negb (temp_dir _)); [done |].
  destruct (ffmpeg_engine C _ buf); [| done]. intros _.
  cbn [snd w_fs add_log set_fs files]. split.
  - by rewrite lookup_delete_ne, lookup_delete_eq.
  - by rewrite lookup_delete_eq.
Qed.

(** X6: [preprocessAudioDSP] always settles (the ["end"] handler finds the
    two files it reads and removes, so nothing is thrown inside the
    callback), it never changes a file other than its two working files, and
    when it resolves both working files are gone. *)
Theorem preprocessAudioDSP_footprint C id inputBuffer w :
  let run := preprocessAudioDSP C id inputBuffer w in
  (forall e, run.1 <> Uncaught e) /\
  (forall p, p <> resolve (dsp_inputPath id) -> p <> resolve (dsp_outputPath id) ->
     files (w_fs run.2) !! p = files (w_fs w) !! p) /\
  (forall out, run.1 = Ok out ->
     files (w_fs run.2) !! resolve (dsp_inputPath id) = None /\
     files (w_fs run.2) !! resolve (dsp_outputPath id) = None).
Proof.
  intros run. split; [| split].
  - intros e. apply preprocessAudioDSP_settles.
  - intros p Hi Ho.
    apply (frame_preprocessAudioDSP
             [resolve (dsp_inputPath id); resolve (dsp_outputPath id)]);
      [elem_here | elem_here | not_elem].
  - intros out Hout. by apply (preprocessAudioDSP_releases C id inputBuffer w out).
Qed.

(** X7: when nothing named [./temp] exists, [preprocessAudioDSP] creates
    the directory, writes the raw file into it and starts the engine exactly
    once; the directory is still there afterwards, whether the engine ends or
    fails. *)
Theorem preprocessAudioDSP_creates_temp C id inputBuffer w :
  existsSync (w_fs w) "./temp" = false ->
  let run := preprocessAudioDSP C id inputBuffer w in
  temp_dir (w_fs run.2) = true /\
  exists settled,
    run_log (preprocessAudioDSP C id inputBuffer) w
    = [Invoke (RunEngine (dsp_command id)); settled].
Proof.
  intros Hex run. subst run. unfold run_log.
  rewrite preprocessAudioDSP_eq. cbv zeta. unfold after_mkdir. rewrite Hex.
  cbn [temp_dir negb].
  destruct (ffmpeg_engine C _ inputBuffer);
    cbn [snd w_fs w_log add_log set_fs temp_dir]; rewrite drop_app_length; eauto.
Qed.

Lemma preprocessAudioDSP_creates_temp_witness :
  let run := preprocessAudioDSP stubs "run1" [1; 2; 3] empty_world in
  temp_dir (w_fs run.2) = true /\
  exists settled,
    run_log (preprocessAudioDSP stubs "run1" [1; 2; 3]) empty_world
    = [Invoke (RunEngine (dsp_command "run1")); settled].
Proof.
  apply (preprocessAudioDSP_creates_temp stubs "run1" [1; 2; 3] empty_world).
  reflexivity.
Defined.


(** *** The runs of [index1.js], case by case *)

Lemma translateAndSynthesize_cases C text w :
  exists r l,
    translateAndSynthesize C text w = (r, add_log w l) /\ synthesis_case C text r l.
Proof.
  rewrite translateAndSynthesize_eq. cbv zeta.
  destruct (translationClient_translateText C text) as [[|t rest] | e] eqn:Htr.
  - eexists _, _. split; [reflexivity |]. by constructor.
  - destruct (axios_post_tts C t) as [p | e] eqn:Htts;
      eexists _, _; (split; [reflexivity |]); econstructor; eassumption.
  - eexists _, _. split; [reflexivity |]. by constructor.
Qed.

Lemma runTranslationPipeline_cases C audio enc rate w :
  exists r l,
    runTranslationPipeline C audio enc rate w = (r, add_log w l) /\
    pipeline_case C audio enc rate r l.
Proof.
  rewrite runTranslationPipeline_eq. cbv zeta.
  destruct (speechClient_recognize C audio _) as [results | e] eqn:Hrec.
  2:{ eexists _, _. split; [reflexivity |]. by constructor. }
  pose proof (first_transcripts_caught results) as Hc.
  destruct (first_transcripts results) as [ts | e | e] eqn:Hts;
    [| | by destruct (Hc e)].
  2:{ eexists _, _. split; [reflexivity |]. by econstructor. }
  destruct (falsy (Some (join_lines ts))) eqn:Hf.
  { eexists _, _. split; [reflexivity |]. by econstructor. }
  destruct (translateAndSynthesize_cases C (join_lines ts)
              (add_log w [Invoke (Recognize audio (recognizer_config enc rate));
                          Resolve Recognition])) as (r & l & Hrun & Hcase).
  eexists r, _. rewrite Hrun, add_log_app. split; [reflexivity |].
  by econstructor.
Qed.


Lemma synthesis_case_caught C text r l e :
  synthesis_case C text r l -> r <> Uncaught e.
Proof.
  destruct 1; try done.
  pose proof (encodePayload_caught p "Gemini did not return audio.") as Hc.
  destruct (encodePayload p _) as [wav | e' | e']; cbn [mbind outcome_bind];
    [done | done | by destruct (Hc e')].
Qed.

Lemma pipeline_case_caught C audio enc rate r l e :
  pipeline_case C audio enc rate r l -> r <> Uncaught e.
Proof.
  destruct 1; try done. by eapply synthesis_case_caught.
Qed.

(** What the [/api/translate] handler makes of a run of the pipeline. *)
Lemma api_translate_cases C audio w :
  exists r l,
    pipeline_case C audio "WEBM_OPUS" 48000 r l /\
    run_log (api_translate C (Some audio)) w = l /\
    (api_translate C (Some audio) w).1 =
      match r with
      | Ok v => Ok (res_send
                      (res_setHeader
                         (res_setHeader res_new "Content-Type" (HString "audio/wav"))
                         "Content-Length" (HNumber (Z.of_nat (length (wavBuffer v)))))
                      (wavBuffer v))
      | Throw e => Ok (res_json (res_status res_new 500)
                         [("error", JString (message e))])
      | Uncaught e => Uncaught e
      end.
Proof.
  destruct (runTranslationPipeline_cases C audio "WEBM_OPUS" 48000 w)
    as (r & l & Hrun & Hcase).
  exists r, l. split; [done |].
  unfold run_log, api_translate, try_catch. rewrite bind_eq, Hrun.
  destruct r as [v | e | e]; cbn [fst snd w_log add_log mret M_ret];
    by rewrite drop_app_length.
Qed.

(** X8: whenever a collaborator of the [/api/translate] pipeline rejects,
    the run stops there (the rejection is the last event, so no later stage
    is invoked) and the client receives status 500 with exactly the message
    of that rejection. *)
Theorem collaborator_rejection_surfaces C audio w s e :
  Reject s e ∈ run_log (api_translate C (Some audio)) w ->
  last (run_log (api_translate C (Some audio)) w) = Some (Reject s e) /\
  (api_translate C (Some audio) w).1
  = Ok (res_json (res_status res_new 500) [("error", JString (message e))]) /\
  (s = Recognition -> ~ invoked Translation (run_log (api_translate C (Some audio)) w)) /\
  (s <> Synthesis -> ~ invoked Synthesis (run_log (api_translate C (Some audio)) w)).
Proof.
  destruct (api_translate_cases C audio w) as (r & l & Hcase & -> & ->).
  intros Hin. destruct Hcase as [e' | results e' | results ts | results ts r l _ _ _ Hs].
  - in_log Hin. injection Hin as -> ->.
    repeat split; try done; intros _; not_invoked.
  - in_log Hin.
  - in_log Hin.
  - cbn [app] in Hin. destruct Hs; cbn [app] in *; in_log Hin;
      injection Hin as -> ->;
      (split; [done |]); (split; [done |]); split; try done; intros _; not_invoked.
Qed.


Lemma collaborator_rejection_surfaces_witness :
  let C := with_translator stubs (fun _ => Rejected (ExternalError "quota exceeded")) in
  let l := run_log (api_translate C (Some [1; 2; 3])) ready_world in
  last l = Some (Reject Translation (ExternalError "quota exceeded")) /\
  (api_translate C (Some [1; 2; 3]) ready_world).1
  = Ok (res_json (res_status res_new 500) [("error", JString "quota exceeded")]) /\
  (Translation = Recognition -> ~ invoked Translation l) /\
  (Translation <> Synthesis -> ~ invoked Synthesis l).
Proof.
  intros C l.
  apply (collaborator_rejection_surfaces C [1; 2; 3] ready_world Translation
           (ExternalError "quota exceeded")).
  vm_compute. elem_here.
Defined.

Lemma first_transcripts_no_alternative results :
  Exists (fun r => alternatives r = []) results ->
  first_transcripts results = Throw (undefined_property "transcript").
Proof.
  induction 1 as [r rs Hr | r rs _ IH]; cbn [first_transcripts].
  - by rewrite Hr.
  - destruct (alternatives r); [done |]. cbn [mbind outcome_bind]. by rewrite IH.
Qed.

(** X9: a recognition response in which some result has no alternative
    makes [r.alternatives[0].transcript] throw a [TypeError]: the pipeline
    fails right after the recognizer call, before the emptiness check, and the
    translator is not invoked. *)
Theorem result_without_alternative_throws C audio enc rate results w :
  speechClient_recognize C audio (recognizer_config enc rate) = Resolved results ->
  Exists (fun r => alternatives r = []) results ->
  (runTranslationPipeline C audio enc rate w).1
  = Throw (undefined_property "transcript") /\
  run_log (runTranslationPipeline C audio enc rate) w
  = [Invoke (Recognize audio (recognizer_config enc rate)); Resolve Recognition].
Proof.
  intros Hrec Hex.
  assert (Hrun : runTranslationPipeline C audio enc rate w
                 = (Throw (undefined_property "transcript"),
                    add_log w [Invoke (Recognize audio (recognizer_config enc rate));
                               Resolve Recognition])).
  { rewrite runTranslationPipeline_eq. cbv zeta.
    by rewrite Hrec, (first_transcripts_no_alternative _ Hex). }
  split; [by rewrite Hrun | by apply run_log_add_log in Hrun].
Qed.

Lemma result_without_alternative_throws_witness :
  let C := with_speech stubs (fun _ _ => Resolved [ {| alternatives := [] |} ]) in
  (runTranslationPipeline C [1; 2; 3] "LINEAR16" 48000 ready_world).1
  = Throw (undefined_property "transcript") /\
  run_log (runTranslationPipeline C [1; 2; 3] "LINEAR16" 48000) ready_world
  = [Invoke (Recognize [1; 2; 3] (recognizer_config "LINEAR16" 48000));
     Resolve Recognition].
Proof.
  intros C.
  apply (result_without_alternative_throws C [1; 2; 3] "LINEAR16" 48000
           [ {| alternatives := [] |} ] ready_world).
  - reflexivity.
  - left. reflexivity.
Defined.

Lemma append_nil_inv (a b : string) : a ++ b = "" -> a = "" /\ b = "".
Proof.
  destruct a as [|c a].
  - change ("" ++ b) with b. by intros ->.
  - intros H. cbv [String.append] in H. discriminate H.
Qed.

(** X10: the joined transcript is empty exactly when there is no result at
    all or a single result whose transcript is empty or missing; as soon as
    there are two results the line break between them makes the text
    non-empty, so the emptiness check of [runTranslationPipeline] lets it
    through. *)
Theorem join_lines_empty_iff (ts : list (option string)) :
  falsy (Some (join_lines ts)) = true <->
  ts = [] \/ exists t, ts = [t] /\ falsy t = true.
Proof.
  unfold falsy at 1. rewrite String.eqb_eq. split.
  - destruct ts as [|t [|t' ts]]; [by left | |].
    + intros H. right. exists t. split; [done |]. cbn [join_lines] in H.
      destruct t as [s|]; cbn in *; [by rewrite H | done].
    + cbn [join_lines]. intros H. apply append_nil_inv in H as [_ H]. discriminate H.
  - intros [-> | (t & -> & Hf)]; [done |]. cbn [join_lines].
    destruct t as [s|]; [| done]. cbn in *. by apply String.eqb_eq.
Qed.


Lemma encodePayload_Ok_inv p msg wav :
  encodePayload p msg = Ok wav ->
  exists d bin,
    p = Some d /\ d <> "" /\ atob d = Ok bin /\ Nat.Even (String.length bin) /\
    wav = (wav_header (String.length bin / 2) 24000
           ++ map charCode (list_ascii_of_string bin))%list.
Proof.
  unfold encodePayload. destruct (falsy p) eqn:Hf; [done |].
  destruct p as [d|]; [| done]. apply falsy_Some_false in Hf.
  change (default "" (Some d)) with d. intros H.
  destruct (atob d) as [bin | e | e] eqn:Hatob.
  - assert (Heven : Nat.Even (String.length bin)).
    { unfold decodePcm in H. rewrite (base64ToArrayBuffer_atob _ _ Hatob) in H.
      cbn [mbind outcome_bind] in H.
      rewrite Int16Array_0, length_map, length_list_ascii_of_string in H.
      destruct (String.length bin mod 2 =? 0)%nat eqn:Hm; [| done].
      apply Nat.eqb_eq in Hm. apply Nat.Div0.mod_divides in Hm as [k Hk]. by exists k. }
    exists d, bin. repeat split; try done.
    pose proof (encodePayload_pcm d bin msg Hf Hatob Heven) as Henc.
    cbv zeta in Henc. unfold encodePayload in Henc.
    rewrite (proj2 (falsy_Some_false d) Hf) in Henc.
    change (default "" (Some d)) with d in Henc. rewrite Henc in H.
    injection H as <-.
    by rewrite length_read_int16s, length_map, length_list_ascii_of_string.
  - unfold decodePcm, base64ToArrayBuffer in H. by rewrite Hatob in H.
  - by destruct (atob_caught d e).
Qed.

(** X11: what a successful run of [runTranslationPipeline] guarantees: the
    recognizer returned a non-empty joined transcript, which is echoed as
    [assameseText] and was what the translator received; [englishText] is the
    first translation and was what the synthesizer received; the payload was
    non-empty base64 of an even number of bytes, and [wavBuffer] is the
    44-byte header for that many samples at 24000 Hz followed by exactly
    those bytes; each collaborator was called once, in order. *)
Theorem pipeline_success_inversion C audio enc rate w r :
  (runTranslationPipeline C audio enc rate w).1 = Ok r ->
  exists results ts rest d bin,
    speechClient_recognize C audio (recognizer_config enc rate) = Resolved results /\
    first_transcripts results = Ok ts /\
    assameseText r = join_lines ts /\ assameseText r <> "" /\
    translationClient_translateText C (assameseText r)
    = Resolved (englishText r :: rest) /\
    axios_post_tts C (englishText r) = Resolved (Some d) /\
    d <> "" /\ atob d = Ok bin /\ Nat.Even (String.length bin) /\
    wavBuffer r = (wav_header (String.length bin / 2) 24000
                   ++ map charCode (list_ascii_of_string bin))%list /\
    run_log (runTranslationPipeline C audio enc rate) w
    = [ Invoke (Recognize audio (recognizer_config enc rate)); Resolve Recognition;
        Invoke (TranslateText (assameseText r) "as" "en"); Resolve Translation;
        Invoke (GenerateSpeech (englishText r) "Puck"); Resolve Synthesis ].
Proof.
  destruct (runTranslationPipeline_cases C audio enc rate w) as (r0 & l & Hrun & Hcase).
  rewrite (run_log_add_log _ _ _ _ Hrun), Hrun. cbn [fst]. intros ->.
  inversion Hcase as [| | | results ts r' l' Hrec Hts Hf Hs]; subst.
  inversion Hs as [| | | t rest p Htr Htts Hr]; subst.
  destruct (encodePayload p _) as [wav | e | e] eqn:Henc; cbn [mbind outcome_bind] in *;
    [| done | done].
  match goal with H : Ok _ = Ok r |- _ => injection H as <- end.
  destruct (encodePayload_Ok_inv _ _ _ Henc) as (d & bin & -> & Hd & Hatob & Heven & ->).
  exists results, ts, rest, d, bin. cbn [assameseText englishText wavBuffer].
  repeat split; try done.
  intros Hempty. unfold falsy in Hf. rewrite Hempty in Hf. discriminate Hf.
Qed.

Lemma pipeline_success_inversion_witness :
  exists r,
    (runTranslationPipeline stubs [1; 2; 3] "WEBM_OPUS" 48000 ready_world).1 = Ok r /\
    exists results ts rest d bin,
      speechClient_recognize stubs [1; 2; 3] (recognizer_config "WEBM_OPUS" 48000)
      = Resolved results /\
      first_transcripts results = Ok ts /\
      assameseText r = join_lines ts /\ assameseText r <> "" /\
      translationClient_translateText stubs (assameseText r)
      = Resolved (englishText r :: rest) /\
      axios_post_tts stubs (englishText r) = Resolved (Some d) /\
      d <> "" /\ atob d = Ok bin /\ Nat.Even (String.length bin) /\
      wavBuffer r = (wav_header (String.length bin / 2) 24000
                     ++ map charCode (list_ascii_of_string bin))%list /\
      run_log (runTranslationPipeline stubs [1; 2; 3] "WEBM_OPUS" 48000) ready_world
      = [ Invoke (Recognize [1; 2; 3] (recognizer_config "WEBM_OPUS" 48000));
          Resolve Recognition;
          Invoke (TranslateText (assameseText r) "as" "en"); Resolve Translation;
          Invoke (GenerateSpeech (englishText r) "Puck"); Resolve Synthesis ].
Proof.
  eexists. split; [reflexivity |].
  apply (pipeline_success_inversion stubs [1; 2; 3] "WEBM_OPUS" 48000 ready_world).
  reflexivity.
Defined.

(** X12: every request [runTranslationPipeline] sends is configured the
    same way in every run: the recognizer gets the upload with the caller's
    encoding and rate, language as-IN, the enhanced model and the sixteen
    phrase hints; every translation is from "as" to "en"; every synthesis
    uses the voice "Puck". *)
Theorem requests_are_configured C audio enc rate w :
  forall r, Invoke r ∈ run_log (runTranslationPipeline C audio enc rate) w ->
    configured_request audio enc rate r.
Proof.
  destruct (runTranslationPipeline_cases C audio enc rate w) as (r0 & l & Hrun & Hcase).
  rewrite (run_log_add_log _ _ _ _ Hrun). intros r Hin.
  unfold configured_request. fold (recognizer_config enc rate).
  destruct Hcase as [e | results e | results ts | results ts r' l' _ _ _ Hs].
  1-3: in_log Hin; injection Hin as ->; by left.
  cbn [app] in Hin. destruct Hs; in_log Hin; injection Hin as ->; eauto.
Qed.

Lemma requests_are_configured_witness :
  configured_request [1; 2; 3] "WEBM_OPUS" 48000 (GenerateSpeech "hello" "Puck").
Proof.
  apply (requests_are_configured stubs [1; 2; 3] "WEBM_OPUS" 48000 ready_world).
  replace (run_log (runTranslationPipeline stubs [1; 2; 3] "WEBM_OPUS" 48000) ready_world)
    with [ Invoke (Recognize [1; 2; 3] (recognizer_config "WEBM_OPUS" 48000));
           Resolve Recognition;
           Invoke (TranslateText "hello" "as" "en"); Resolve Translation;
           Invoke (GenerateSpeech "hello" "Puck"); Resolve Synthesis ]
    by reflexivity.
  do 4 apply list_elem_of_further. apply list_elem_of_here.
Defined.


(** *** The [/api/translate-audio] handler *)

Lemma frame_ret {A} W (a : A) : frame W (mret a).
Proof. by intros w p Hp. Qed.

Lemma frame_unlinkIfExists W path :
  resolve path ∈ W -> frame W (fs_do (fun st => unlinkIfExists st path)).
Proof.
  intros Hin w p Hp. unfold fs_do, unlinkIfExists.
  destruct (existsSync (w_fs w) path); [| done].
  destruct (unlinkSync_cases (w_fs w) path) as [H | H]; rewrite H; [done |].
  cbn [snd w_fs files]. apply lookup_delete_ne. intros Heq. apply Hp. by rewrite <- Heq.
Qed.

Ltac solve_frame :=
  repeat first
    [ apply frame_ret
    | apply frame_write; elem_here
    | apply frame_unlink; elem_here
    | apply frame_unlinkIfExists; elem_here
    | apply frame_preprocessAudioDSP; elem_here
    | apply frame_speechToAssameseText
    | apply frame_translateAssameseToEnglish
    | apply frame_englishTextToSpeech
    | apply frame_translateAndSynthesize
    | apply frame_runTranslationPipeline
    | apply frame_pure
    | apply frame_bind; [| intros ?]
    | progress cbv zeta
    | match goal with |- frame _ (if ?b then _ else _) => destruct b end ].

(** The four files a request to [/api/translate-audio] works with. *)
Lemma frame_api_translate_audio C file tempId dspId :
  frame [ resolve (rawPath tempId); resolve (cleanedPath tempId);
          resolve (dsp_inputPath dspId); resolve (dsp_outputPath dspId) ]
        (api_translate_audio C file tempId dspId).
Proof.
  unfold api_translate_audio. destruct file as [audio |]; [| apply frame_ret].
  apply frame_try_catch; [| intros e]; unfold translate_audio_try, translate_audio_catch;
    solve_frame.
Qed.

Lemma working_paths_differ tempId dspId :
  resolve (dsp_outputPath dspId) ≠ resolve (rawPath tempId) /\
  resolve (dsp_outputPath dspId) ≠ resolve (cleanedPath tempId) /\
  resolve (dsp_inputPath dspId) ≠ resolve (cleanedPath tempId).
Proof. repeat split; intros H; cbv in H; discriminate H. Qed.

(** X13: a request to [/api/translate-audio] changes no file other than its
    four working files (the handler's raw and cleaned file and the two files
    of the conditioning stage); and when it is answered with status 200 all
    four are gone, so the disk is as it was found. *)
Theorem translate_audio_footprint C audio tempId dspId w :
  let run := api_translate_audio C (Some audio) tempId dspId w in
  let working := [ resolve (rawPath tempId); resolve (cleanedPath tempId);
                   resolve (dsp_inputPath dspId); resolve (dsp_outputPath dspId) ] in
  (forall p, p ∉ working -> files (w_fs run.2) !! p = files (w_fs w) !! p) /\
  (forall res, run.1 = Ok res -> statusCode res = 200 ->
     forall p, p ∈ working -> files (w_fs run.2) !! p = None).
Proof.
  intros run working. split.
  { intros p Hp. by apply (frame_api_translate_audio C (Some audio) tempId dspId). }
  intros res Hres Hstatus. subst run.
  destruct (translate_audio_try_spec C audio tempId dspId w)
    as (r & w1 & l & Htry & _ & _ & _ & _ & _ & _ & _ & Hr).
  unfold api_translate_audio, try_catch in *. rewrite Htry in *.
  destruct r as [res' | e | e]; [| | done].
  2:{ rewrite translate_audio_catch_eq in Hres. cbn [fst] in Hres.
      injection Hres as <-. discriminate Hstatus. }
  cbn [fst snd] in *. destruct Hr as (Hraw & Hcl & _).
  assert (Hraw' : files (w_fs w1) !! resolve (rawPath tempId) = None).
  { destruct (files (w_fs w1) !! resolve (rawPath tempId)) eqn:E; [| done].
    destruct Hraw. unfold present. rewrite E. eauto. }
  assert (Hcl' : files (w_fs w1) !! resolve (cleanedPath tempId) = None).
  { destruct (files (w_fs w1) !! resolve (cleanedPath tempId)) eqn:E; [| done].
    destruct Hcl. unfold present. rewrite E. eauto. }
  (* the conditioning stage left its two files absent, and what follows it
     only touches the handler's own two files *)
  unfold translate_audio_try in Htry. rewrite bind_eq in Htry.
  destruct (fs_do _ w) as [[[] | e | e] w2]; [| done | done].
  rewrite bind_eq in Htry.
  pose proof (preprocessAudioDSP_releases C dspId audio w2) as Hdsp.
  destruct (preprocessAudioDSP C dspId audio w2) as [[out | e | e] w3] eqn:Hrun;
    [| done | done].
  cbn [fst snd] in Hdsp. destruct (Hdsp out eq_refl) as [Hin Hout].
  match type of Htry with ?rest w3 = _ =>
    assert (Hframe : frame [resolve (rawPath tempId); resolve (cleanedPath tempId)] rest)
      by solve_frame
  end.
  destruct (working_paths_differ tempId dspId) as (Ho1 & Ho2 & Hi2).
  intros p Hp. subst working.
  apply elem_of_cons in Hp as [-> | Hp]; [done |].
  apply elem_of_cons in Hp as [-> | Hp]; [done |].
  apply elem_of_cons in Hp as [-> | Hp].
  - destruct (decide (resolve (dsp_inputPath dspId) = resolve (rawPath tempId)))
      as [Heq | Hne]; [by rewrite Heq |].
    specialize (Hframe w3 (resolve (dsp_inputPath dspId))).
    rewrite Htry in Hframe. cbn [snd] in Hframe. rewrite Hframe; [done |]. not_elem.
  - apply elem_of_cons in Hp as [-> | Hp]; [| by apply elem_of_nil in Hp].
    specialize (Hframe w3 (resolve (dsp_outputPath dspId))).
    rewrite Htry in Hframe. cbn [snd] in Hframe. rewrite Hframe; [done |]. not_elem.
Qed.


(** X14: [/api/translate-audio] always answers.  Without an upload the
    answer is 400 [{error}]; with one it is either a 2xx audio/wav body with
    its exact Content-Length, or status 500 with
    [{success: false, error: message}] where the message is that of the
    exception thrown in the [try] block; and in both cases the handler's raw
    and cleaned files are gone. *)
Theorem translate_audio_response_contract C (file : option buffer) tempId dspId w :
  exists res w',
    api_translate_audio C file tempId dspId w = (Ok res, w') /\
    match file with
    | None =>
        statusCode res = 400 /\
        sent res = Some (JsonBody [("error", JString "Audio file not provided")]) /\
        w' = w
    | Some audio =>
        ((exists wav, success_response res wav) \/
         (statusCode res = 500 /\
          exists e, (translate_audio_try C audio tempId dspId w).1 = Throw e /\
            sent res = Some (JsonBody [("success", JBool false);
                                       ("error", JString (message e))]))) /\
        ~ present (w_fs w') (rawPath tempId) /\
        ~ present (w_fs w') (cleanedPath tempId)
    end.
Proof.
  destruct file as [audio |].
  2:{ eexists _, _. split; [reflexivity |]. done. }
  pose proof (paths_differ tempId) as Hne.
  unfold api_translate_audio, try_catch.
  destruct (translate_audio_try_spec C audio tempId dspId w)
    as (r & w1 & l & Hrun & _ & _ & _ & _ & _ & _ & _ & Hr).
  rewrite Hrun. destruct r as [res | e | e]; [| | done].
  - destruct Hr as (H1 & H2 & H3). exists res, w1. split; [done |]. eauto.
  - rewrite translate_audio_catch_eq. eexists _, _. split; [reflexivity |].
    split; [right; split; [done |]; by exists e |].
    unfold present. cbn [w_fs set_fs files]. split.
    + rewrite lookup_delete_ne, lookup_delete_eq by done. by intros [? ?].
    + rewrite lookup_delete_eq. by intros [? ?].
Qed.

(** X15: while [./temp] does not exist, [/api/translate-audio] cannot save
    the upload: the handler writes its raw file before the conditioning
    stage gets to create the directory, so the request is answered 500 with
    the ENOENT of that write and no collaborator is invoked. *)
Theorem translate_audio_needs_temp_dir C audio tempId dspId w :
  temp_dir (w_fs w) = false ->
  let run := api_translate_audio C (Some audio) tempId dspId in
  run_log run w = [] /\
  (run w).1 = Ok (res_json (res_status res_new 500)
                    [("success", JBool false);
                     ("error", JString (message (enoent "open" (rawPath tempId))))]) /\
  temp_dir (w_fs (run w).2) = false.
Proof.
  intros Htd run. subst run.
  assert (Htry : translate_audio_try C audio tempId dspId w
                 = (Throw (enoent "open" (rawPath tempId)), w)).
  { unfold translate_audio_try. rewrite bind_eq. unfold fs_do at 1, writeFileSync.
    change (under_temp (rawPath tempId)) with true. by rewrite Htd. }
  unfold run_log, api_translate_audio, try_catch.
  rewrite Htry, translate_audio_catch_eq. cbn [fst snd w_log w_fs set_fs temp_dir].
  by rewrite drop_all.
Qed.

Lemma translate_audio_needs_temp_dir_witness :
  let run := api_translate_audio stubs (Some [1; 2; 3]) "req1" "run1" in
  run_log run empty_world = [] /\
  (run empty_world).1
  = Ok (res_json (res_status res_new 500)
          [("success", JBool false);
           ("error", JString (message (enoent "open" (rawPath "req1"))))]) /\
  temp_dir (w_fs (run empty_world).2) = false.
Proof.
  apply (translate_audio_needs_temp_dir stubs [1; 2; 3] "req1" "run1" empty_world).
  reflexivity.
Defined.

(** What the [/api/text-translate] handler makes of a run. *)
Lemma api_text_translate_cases C text w :
  falsy (Some text) = false ->
  exists r l,
    synthesis_case C text r l /\
    api_text_translate C (Some {| body_text := Some text |}) w =
      (match r with
       | Ok v => Ok (res_send (res_setHeader res_new "Content-Type" (HString "audio/wav"))
                       (wavBuffer v))
       | Throw e => Ok (res_json (res_status res_new 500)
                          [("error", JString (message e))])
       | Uncaught e => Uncaught e
       end, add_log w l).
Proof.
  intros Hf. destruct (translateAndSynthesize_cases C text w) as (r & l & Hrun & Hcase).
  exists r, l. split; [done |].
  rewrite api_text_translate_body. cbn [body_text]. unfold try_catch. rewrite Hf.
  change (default "" (Some text)) with text. rewrite bind_eq, Hrun.
  by destruct r.
Qed.

Lemma api_translate_world C audio w :
  exists l, (api_translate C (Some audio) w).2 = add_log w l.
Proof.
  destruct (runTranslationPipeline_cases C audio "WEBM_OPUS" 48000 w)
    as (r & l & Hrun & Hcase).
  exists l. unfold api_translate, try_catch. rewrite bind_eq, Hrun.
  by destruct r.
Qed.

(** X19: the endpoints of [index1.js] work in memory only: whatever the
    collaborators do, a request to [/api/translate] or [/api/text-translate]
    leaves the filesystem exactly as it was, so these two have no temporary
    file to release. *)
Theorem index1_endpoints_leave_disk_alone C (file : option buffer)
    (req_body : option request_body) w :
  w_fs (api_translate C file w).2 = w_fs w /\
  w_fs (api_text_translate C req_body w).2 = w_fs w.
Proof.
  split.
  - destruct file as [audio |]; [| done].
    by destruct (api_translate_world C audio w) as (l & ->).
  - destruct req_body as [[[t |]] |];
      [| by rewrite api_text_translate_body | by rewrite api_text_translate_no_body].
    destruct (falsy (Some t)) eqn:Hf.
    + rewrite api_text_translate_body. cbn [body_text]. by rewrite Hf.
    + by destruct (api_text_translate_cases C t w Hf) as (r & l & _ & ->).
Qed.

(** X20: the text endpoint enters the pipeline at translation: with a
    non-empty text, every collaborator call of [/api/text-translate] belongs
    to the translation or the synthesis stage (no conditioning, no
    recognition), and the translator is sent exactly the text of the
    request. *)
Theorem text_endpoint_skips_recognition C text w :
  text <> "" ->
  let l := run_log (api_text_translate C (Some {| body_text := Some text |})) w in
  (forall r, Invoke r ∈ l -> stage_of r = Translation \/ stage_of r = Synthesis) /\
  (forall t src tgt, Invoke (TranslateText t src tgt) ∈ l -> t = text) /\
  head l = Some (Invoke (TranslateText text "as" "en")).
Proof.
  intros Hne l. subst l.
  destruct (api_text_translate_cases C text w) as (r & l & Hcase & Hrun).
  { by apply falsy_Some_false. }
  rewrite (run_log_add_log _ _ _ _ Hrun).
  destruct Hcase; (split; [| split; [| done]]).
  all: try (intros r0 Hin; in_log Hin; injection Hin as ->; cbn [stage_of]; by auto).
  all: intros t0 src tgt Hin; in_log Hin; by injection Hin as -> _ _.
Qed.

Lemma text_endpoint_skips_recognition_witness :
  let l := run_log (api_text_translate stubs (Some {| body_text := Some "namaskar" |}))
             ready_world in
  (forall r, Invoke r ∈ l -> stage_of r = Translation \/ stage_of r = Synthesis) /\
  (forall t src tgt, Invoke (TranslateText t src tgt) ∈ l -> t = "namaskar") /\
  head l = Some (Invoke (TranslateText "namaskar" "as" "en")).
Proof.
  apply (text_endpoint_skips_recognition stubs "namaskar" ready_world). discriminate.
Defined.

End PipelineExtras.

Module DiagnosticsExtras.
Import WavHelper WavHelperFacts Base64 Base64Facts Fs Pipeline PipelineFacts.
Import Claims Diagnostics PipelineExtras.

Lemma existsSync_sample st :
  existsSync st "./test_sample.wav"
  = bool_decide (is_Some (files st !! "test_sample.wav")).
Proof.
  unfold existsSync. change (resolve "./test_sample.wav") with "test_sample.wav".
  change ("test_sample.wav" =? "temp")%string with false. by rewrite orb_false_r.
Qed.

(** [testAudioDSPCleanup], by what it finds. *)
Lemma testAudioDSPCleanup_eq C id w :
  testAudioDSPCleanup C id w =
    match files (w_fs w) !! "test_sample.wav" with
    | None => (Ok (), w)
    | Some sample =>
        match preprocessAudioDSP C id sample w with
        | (Ok cleaned, w1) =>
            (Ok (), set_fs w1 {| temp_dir := temp_dir (w_fs w1);
                                 files := <["cleaned_test_sample.wav" := cleaned]>
                                            (files (w_fs w1)) |})
        | (Throw e, w1) => (Ok (), w1)
        | (Uncaught e, w1) => (Uncaught e, w1)
        end
    end.
Proof.
  unfold testAudioDSPCleanup. rewrite bind_eq. unfold fs_get at 1.
  rewrite existsSync_sample.
  destruct (files (w_fs w) !! "test_sample.wav") as [sample|] eqn:Hs.
  - rewrite bool_decide_eq_true_2 by eauto. cbn [negb]. unfold try_catch.
    rewrite bind_eq. unfold readFileSync.
    change (resolve "./test_sample.wav") with "test_sample.wav". rewrite Hs.
    rewrite bind_eq.
    destruct (preprocessAudioDSP C id sample w) as [[cleaned | e | e] w1];
      [| done | done].
    unfold fs_do, writeFileSync.
    change (under_temp "./cleaned_test_sample.wav") with false. by destruct w1.
  - rewrite bool_decide_eq_false_2 by (by intros [? ?]). done.
Qed.

(** X16: [/api/test-dsp] reports success in every case: [testAudioDSPCleanup]
    swallows a missing sample file and any failure of the conditioning stage,
    so the answer is 200 [{success: true, ...}] even when no cleaned file was
    written; with the sample missing nothing is done at all, and when the
    engine fails [cleaned_test_sample.wav] is left as it was. *)
Theorem test_dsp_always_reports_success C id w :
  let run := api_test_dsp C id w in
  run.1 = Ok (res_json res_new
                [("success", JBool true);
                 ("message", JString "DSP audio preprocessing test completed.");
                 ("outputFile", JString "cleaned_test_sample.wav")]) /\
  (files (w_fs w) !! "test_sample.wav" = None -> run.2 = w) /\
  (forall cleaned,
     files (w_fs run.2) !! "cleaned_test_sample.wav" = Some cleaned ->
     files (w_fs w) !! "cleaned_test_sample.wav" <> Some cleaned ->
     exists sample,
       files (w_fs w) !! "test_sample.wav" = Some sample /\
       ffmpeg_engine C (dsp_command id) sample = Resolved cleaned).
Proof.
  intros run. subst run. unfold api_test_dsp, try_catch.
  rewrite bind_eq, testAudioDSPCleanup_eq.
  destruct (files (w_fs w) !! "test_sample.wav") as [sample|] eqn:Hs.
  2:{ cbn [fst snd mret M_ret]. split; [done |]. split; [done |]. congruence. }
  pose proof (preprocessAudioDSP_settles C id sample w) as Hsettle.
  pose proof (frame_preprocessAudioDSP
                [resolve (dsp_inputPath id); resolve (dsp_outputPath id)]
                C id sample ltac:(elem_here) ltac:(elem_here) w
                "cleaned_test_sample.wav") as Hframe.
  pose proof (preprocessAudioDSP_output C id sample w) as Hout.
  destruct (preprocessAudioDSP C id sample w) as [[cleaned | e | e] w1];
    cbn [fst snd mret M_ret] in *; [| | by destruct (Hsettle e)].
  - split; [done |]. split; [done |]. intros c Hafter Hbefore.
    cbn [w_fs set_fs files] in Hafter. rewrite lookup_insert_eq in Hafter.
    injection Hafter as <-. exists sample. split; [done |]. by apply Hout.
  - split; [done |]. split; [done |]. intros c Hafter Hbefore.
    rewrite Hframe in Hafter; [congruence |].
    not_elem; intros H; cbv in H; discriminate H.
Qed.


(** [/api/test], by what it finds. *)
Lemma api_test_eq C w :
  api_test C w =
    match files (w_fs w) !! "test_sample.wav" with
    | None =>
        (Ok (res_json (res_status res_new 404)
               [("error", JString "test_sample.wav not found.")]), w)
    | Some sample =>
        match runTranslationPipeline C sample "LINEAR16" 48000 w with
        | (Ok r, w1) =>
            (Ok (res_json res_new
                   [("success", JBool true);
                    ("message", JString "Audio pipeline test completed.");
                    ("assameseText", JString (assameseText r));
                    ("englishText", JString (englishText r))]),
             set_fs w1
               {| temp_dir := temp_dir (w_fs w1);
                  files := <["translated_output.wav" := wavBuffer r]>
                             (<["translation_output.txt" := utf8 (englishText r)]>
                                (<["stt_output.txt" := utf8 (assameseText r)]>
                                   (files (w_fs w1)))) |})
        | (Throw e, w1) =>
            (Ok (res_json (res_status res_new 500)
                   [("error", JString (message e))]), w1)
        | (Uncaught e, w1) => (Uncaught e, w1)
        end
    end.
Proof.
  unfold api_test. rewrite bind_eq. unfold fs_get at 1. rewrite existsSync_sample.
  destruct (files (w_fs w) !! "test_sample.wav") as [sample|] eqn:Hs.
  2:{ by rewrite bool_decide_eq_false_2 by (by intros [? ?]). }
  rewrite bool_decide_eq_true_2 by eauto. cbn [negb]. unfold try_catch.
  rewrite bind_eq. unfold readFileSync.
  change (resolve "./test_sample.wav") with "test_sample.wav". rewrite Hs.
  cbv beta iota. rewrite bind_eq.
  destruct (runTranslationPipeline C sample "LINEAR16" 48000 w) as [[r | e | e] w1];
    [| done | done].
  rewrite !bind_eq. unfold fs_do, writeFileSync.
  change (under_temp "./stt_output.txt") with false.
  change (under_temp "./translation_output.txt") with false.
  change (under_temp "./translated_output.wav") with false.
  by destruct w1.
Qed.

(** X17: [/api/test] answers 404 and does nothing when [test_sample.wav] is
    missing; otherwise it runs the pipeline on the file's content as LINEAR16
    at 48000 Hz, and on success writes the transcript, the translation and
    the container to its three output files and echoes both texts, while a
    failure of the pipeline is answered 500 with its message and writes
    nothing. *)
Theorem api_test_outcome C w :
  match files (w_fs w) !! "test_sample.wav" with
  | None =>
      api_test C w
      = (Ok (res_json (res_status res_new 404)
               [("error", JString "test_sample.wav not found.")]), w)
  | Some sample =>
      match (runTranslationPipeline C sample "LINEAR16" 48000 w).1 with
      | Ok r =>
          (api_test C w).1
          = Ok (res_json res_new
                  [("success", JBool true);
                   ("message", JString "Audio pipeline test completed.");
                   ("assameseText", JString (assameseText r));
                   ("englishText", JString (englishText r))]) /\
          files (w_fs (api_test C w).2) !! "stt_output.txt"
          = Some (utf8 (assameseText r)) /\
          files (w_fs (api_test C w).2) !! "translation_output.txt"
          = Some (utf8 (englishText r)) /\
          files (w_fs (api_test C w).2) !! "translated_output.wav"
          = Some (wavBuffer r)
      | Throw e =>
          (api_test C w).1
          = Ok (res_json (res_status res_new 500) [("error", JString (message e))]) /\
          files (w_fs (api_test C w).2) = files (w_fs w)
      | Uncaught _ => False
      end
  end.
Proof.
  rewrite api_test_eq.
  destruct (files (w_fs w) !! "test_sample.wav") as [sample|]; [| done].
  destruct (runTranslationPipeline_cases C sample "LINEAR16" 48000 w)
    as (r & l & Hrun & Hcase).
  rewrite Hrun. cbn [fst snd].
  destruct r as [v | e | e];
    [| done | by destruct (pipeline_case_caught _ _ _ _ _ _ e Hcase)].
  cbn [fst snd w_fs set_fs add_log files]. split; [done |]. split; [| split].
  - do 2 rewrite lookup_insert_ne by done. by rewrite lookup_insert_eq.
  - rewrite lookup_insert_ne by done. by rewrite lookup_insert_eq.
  - by rewrite lookup_insert_eq.
Qed.

Lemma existsSync_temp_free st p :
  (resolve p =? "temp")%string = false ->
  existsSync st p = bool_decide (is_Some (files st !! resolve p)).
Proof. intros H. unfold existsSync. by rewrite H, orb_false_r. Qed.

Lemma frame_api_test_full_pipeline C id :
  frame [ "cleaned_audio.wav"; resolve (dsp_inputPath id); resolve (dsp_outputPath id) ]
        (api_test_full_pipeline C id).
Proof.
  unfold api_test_full_pipeline, preprocessAudioFromRoot.
  apply frame_try_catch; [| intros e]; solve_frame.
Qed.

Lemma api_test_full_pipeline_run C id w :
  exists res w',
    api_test_full_pipeline C id w = (Ok res, w') /\
    (statusCode res = 200 ->
     is_Some (files (w_fs w') !! "cleaned_audio.wav") /\
     exists a e,
       sent res = Some (JsonBody [("success", JBool true);
                                  ("assameseText", JString a);
                                  ("englishText", JString e);
                                  ("outputAudio", JString "final_english_audio.wav")])).
Proof.
  unfold api_test_full_pipeline, try_catch.
  rewrite bind_eq. unfold preprocessAudioFromRoot.
  rewrite bind_eq. unfold fs_get at 1. rewrite existsSync_sample.
  destruct (bool_decide _); cbn [negb].
  2:{ eexists _, _. split; [reflexivity |]. discriminate. }
  rewrite bind_eq. destruct (readFileSync _ _) as [sample | e | e] eqn:Hread.
  2:{ eexists _, _. split; [reflexivity |]. discriminate. }
  2:{ unfold readFileSync in Hread. by destruct (_ !! _). }
  rewrite bind_eq.
  pose proof (preprocessAudioDSP_settles C id sample w) as Hsettle.
  destruct (preprocessAudioDSP C id sample w) as [[cleaned | e | e] w1];
    cbn [fst] in Hsettle; [| | by destruct (Hsettle e)].
  2:{ eexists _, _. split; [reflexivity |]. discriminate. }
  rewrite bind_eq. unfold fs_do at 1, writeFileSync.
  change (under_temp "./cleaned_audio.wav") with false. cbn [andb mret M_ret].
  change (resolve "./cleaned_audio.wav") with "cleaned_audio.wav".
  set (w2 := {| w_fs := _; w_log := w_log w1 |}).
  assert (Hcl : is_Some (files (w_fs w2) !! "cleaned_audio.wav")).
  { subst w2. cbn [w_fs files]. rewrite lookup_insert_eq. eauto. }
  rewrite bind_eq.
  pose proof (frame_speechToAssameseText [] C "./cleaned_audio.wav" w2
                "cleaned_audio.wav" ltac:(apply not_elem_of_nil)) as F1.
  destruct (speechToAssameseText C "./cleaned_audio.wav" w2) as [[a | e | e] w3] eqn:H3.
  2:{ eexists _, _. split; [reflexivity |]. discriminate. }
  2:{ rewrite speechToAssameseText_eq in H3. unfold readFileSync in H3.
      destruct (_ !! _); [| done]. by destruct (openai_transcribe C _) as [t|];
        [destruct (falsy t) |]. }
  rewrite bind_eq.
  pose proof (frame_translateAssameseToEnglish [] C a w3
                "cleaned_audio.wav" ltac:(apply not_elem_of_nil)) as F2.
  destruct (translateAssameseToEnglish C a w3) as [[t | e | e] w4] eqn:H4.
  2:{ eexists _, _. split; [reflexivity |]. discriminate. }
  2:{ rewrite translateAssameseToEnglish_eq in H4. cbv zeta in H4.
      by destruct (translationClient_translateText C a) as [[|? ?] | ?]. }
  rewrite bind_eq.
  pose proof (frame_englishTextToSpeech [] C t w4
                "cleaned_audio.wav" ltac:(apply not_elem_of_nil)) as F3.
  destruct (englishTextToSpeech C t w4) as [[wav | e | e] w5] eqn:H5.
  2:{ eexists _, _. split; [reflexivity |]. discriminate. }
  2:{ rewrite englishTextToSpeech_eq in H5.
      destruct (axios_post_tts C t) as [p | ?]; [| done].
      injection H5 as H5 _. by destruct (encodePayload_caught _ _ _ H5). }
  cbn [fst snd mret M_ret] in *. eexists _, _. split; [reflexivity |]. intros _.
  split; [by rewrite F3, F2, F1 | eauto].
Qed.

(** X18: [/api/test-full-pipeline] never writes [final_english_audio.wav]:
    [englishTextToSpeech] returns the audio instead of saving it, and the
    handler drops it.  The answer of a successful run nevertheless names
    that file as [outputAudio]; what such a run does leave on disk is
    [cleaned_audio.wav]. *)
Theorem full_pipeline_output_is_not_written C id w :
  let run := api_test_full_pipeline C id w in
  files (w_fs run.2) !! "final_english_audio.wav"
  = files (w_fs w) !! "final_english_audio.wav" /\
  exists res, run.1 = Ok res /\
    (statusCode res = 200 ->
     is_Some (files (w_fs run.2) !! "cleaned_audio.wav") /\
     exists a e,
       sent res = Some (JsonBody [("success", JBool true);
                                  ("assameseText", JString a);
                                  ("englishText", JString e);
                                  ("outputAudio", JString "final_english_audio.wav")])).
Proof.
  intros run. split.
  { apply (frame_api_test_full_pipeline C id).
    not_elem; intros H; cbv in H; discriminate H. }
  subst run. destruct (api_test_full_pipeline_run C id w) as (res & w' & -> & H).
  by exists res.
Qed.

(** [preprocessAudioFromRoot], by what it finds. *)
Lemma preprocessAudioFromRoot_eq C id w :
  preprocessAudioFromRoot C id w =
    match files (w_fs w) !! "test_sample.wav" with
    | None => (Throw (JsError "test_sample.wav not found in root directory"), w)
    | Some sample =>
        match preprocessAudioDSP C id sample w with
        | (Ok cleaned, w1) =>
            (Ok "./cleaned_audio.wav",
             set_fs w1 {| temp_dir := temp_dir (w_fs w1);
                          files := <["cleaned_audio.wav" := cleaned]> (files (w_fs w1)) |})
        | (Throw e, w1) => (Throw e, w1)
        | (Uncaught e, w1) => (Uncaught e, w1)
        end
    end.
Proof.
  unfold preprocessAudioFromRoot. rewrite bind_eq. unfold fs_get at 1.
  rewrite existsSync_sample.
  destruct (files (w_fs w) !! "test_sample.wav") as [sample|] eqn:Hs.
  - rewrite bool_decide_eq_true_2 by eauto. cbn [negb].
    rewrite bind_eq. unfold readFileSync.
    change (resolve "./test_sample.wav") with "test_sample.wav". rewrite Hs.
    rewrite bind_eq.
    destruct (preprocessAudioDSP C id sample w) as [[cleaned | e | e] w1];
      [| done | done].
    rewrite bind_eq. unfold fs_do, writeFileSync.
    change (under_temp "./cleaned_audio.wav") with false. by destruct w1.
  - rewrite bool_decide_eq_false_2 by (by intros [? ?]). done.
Qed.

(** X21: [preprocessAudioFromRoot] throws "test_sample.wav not found in
    root directory", and starts nothing, when the sample is missing;
    otherwise it conditions the sample: on success it returns the path
    [./cleaned_audio.wav] with the engine's output stored there, and a
    failure of the conditioning stage is passed on with [cleaned_audio.wav]
    untouched. *)
Theorem preprocessAudioFromRoot_outcome C id w :
  let run := preprocessAudioFromRoot C id w in
  match files (w_fs w) !! "test_sample.wav" with
  | None =>
      run = (Throw (JsError "test_sample.wav not found in root directory"), w)
  | Some sample =>
      match (preprocessAudioDSP C id sample w).1 with
      | Ok cleaned =>
          run.1 = Ok "./cleaned_audio.wav" /\
          files (w_fs run.2) !! "cleaned_audio.wav" = Some cleaned /\
          ffmpeg_engine C (dsp_command id) sample = Resolved cleaned
      | Throw e =>
          run.1 = Throw e /\
          files (w_fs run.2) !! "cleaned_audio.wav"
          = files (w_fs w) !! "cleaned_audio.wav"
      | Uncaught _ => False
      end
  end.
Proof.
  intros run. subst run. rewrite preprocessAudioFromRoot_eq.
  destruct (files (w_fs w) !! "test_sample.wav") as [sample|]; [| done].
  pose proof (preprocessAudioDSP_settles C id sample w) as Hsettle.
  pose proof (frame_preprocessAudioDSP
                [resolve (dsp_inputPath id); resolve (dsp_outputPath id)]
                C id sample ltac:(elem_here) ltac:(elem_here) w
                "cleaned_audio.wav") as Hframe.
  pose proof (preprocessAudioDSP_output C id sample w) as Hout.
  destruct (preprocessAudioDSP C id sample w) as [[cleaned | e | e] w1];
    cbn [fst snd w_fs set_fs files] in *; [| | by destruct (Hsettle e)].
  - split; [done |]. split; [by rewrite lookup_insert_eq | by apply Hout].
  - split; [done |]. apply Hframe. not_elem; intros H; cbv in H; discriminate H.
Qed.

(** [/api/test-text], by how the pipeline ends. *)
Lemma api_test_text_eq C w :
  api_test_text C w =
    match translateAndSynthesize C testText w with
    | (Ok r, w1) =>
        (Ok (res_json res_new
               [("success", JBool true);
                ("message", JString "Test text pipeline ran successfully.");
                ("englishText", JString (englishText r))]),
         set_fs w1
           {| temp_dir := temp_dir (w_fs w1);
              files := <["text_translated_output.wav" := wavBuffer r]>
                         (<["text_translation_output.txt" := utf8 (englishText r)]>
                            (files (w_fs w1))) |})
    | (Throw e, w1) =>
        (Ok (res_json (res_status res_new 500) [("error", JString (message e))]), w1)
    | (Uncaught e, w1) => (Uncaught e, w1)
    end.
Proof.
  unfold api_test_text, try_catch. rewrite bind_eq.
  destruct (translateAndSynthesize C testText w) as [[r | e | e] w1]; [| done | done].
  rewrite !bind_eq. unfold fs_do, writeFileSync.
  change (under_temp "./text_translation_output.txt") with false.
  change (under_temp "./text_translated_output.wav") with false.
  by destruct w1.
Qed.

(** X22: [/api/test-text] always answers: when the fixed test sentence is
    translated and synthesized it stores the translation and the container in
    its two output files and echoes the translation; when the pipeline fails
    it answers 500 with the message and writes nothing. *)
Theorem api_test_text_outcome C w :
  let run := api_test_text C w in
  match (translateAndSynthesize C testText w).1 with
  | Ok r =>
      run.1 = Ok (res_json res_new
                    [("success", JBool true);
                     ("message", JString "Test text pipeline ran successfully.");
                     ("englishText", JString (englishText r))]) /\
      files (w_fs run.2) !! "text_translation_output.txt" = Some (utf8 (englishText r)) /\
      files (w_fs run.2) !! "text_translated_output.wav" = Some (wavBuffer r)
  | Throw e =>
      run.1 = Ok (res_json (res_status res_new 500) [("error", JString (message e))]) /\
      files (w_fs run.2) = files (w_fs w)
  | Uncaught _ => False
  end.
Proof.
  intros run. subst run. rewrite api_test_text_eq.
  destruct (translateAndSynthesize_cases C testText w) as (r & l & Hrun & Hcase).
  rewrite Hrun. cbn [fst snd].
  destruct r as [v | e | e];
    [| done | by destruct (synthesis_case_caught _ _ _ _ e Hcase)].
  cbn [fst snd w_fs set_fs add_log files]. split; [done |]. split.
  - rewrite lookup_insert_ne by done. by rewrite lookup_insert_eq.
  - by rewrite lookup_insert_eq.
Qed.

End DiagnosticsExtras.

(** ** Decoding inverts standard base64 *)

Module Base64Extras.
Import WavHelper WavHelperFacts Base64 Base64Facts Pipeline PipelineFacts Diagnostics.
Import CodecExtras.


Lemma alphabet_checked : forallb alphabet_ok (seq 0 64) = true.
Proof. vm_compute. reflexivity. Qed.

Lemma sextet_char_spec v :
  0 <= v < 64 ->
  sextet (sextet_char v) = Some v /\
  is_ascii_whitespace (sextet_char v) = false /\
  sextet_char v <> "="%char.
Proof.
  intros Hv. pose proof alphabet_checked as H.
  rewrite forallb_forall in H. specialize (H (Z.to_nat v)).
  assert (Hin : In (Z.to_nat v) (seq 0 64)) by (apply in_seq; lia).
  specialize (H Hin). unfold alphabet_ok in H. rewrite Z2Nat.id in H by lia.
  destruct (sextet (sextet_char v)) as [v'|]; [| done].
  apply andb_prop in H as [H Hpad]. apply andb_prop in H as [Hv' Hws].
  apply Z.eqb_eq in Hv' as ->.
  split; [done |]. split; [by destruct (is_ascii_whitespace _) |].
  intros Heq. rewrite Heq in Hpad. done.
Qed.

Lemma lor_shiftl hi lo n :
  0 <= n -> 0 <= lo < 2 ^ n -> Z.lor (Z.shiftl hi n) lo = hi * 2 ^ n + lo.
Proof.
  intros Hn Hlo.
  assert (Hland : Z.land (Z.shiftl hi n) lo = 0).
  { apply Z.bits_inj'. intros m Hm. rewrite Z.land_spec, Z.bits_0.
    destruct (Z.lt_ge_cases m n) as [Hlt | Hge].
    - by rewrite Z.shiftl_spec_low.
    - rewrite <- (Z.mod_small lo (2 ^ n)) by lia.
      rewrite Z.mod_pow2_bits_high by lia. apply andb_false_r. }
  rewrite <- Z.lxor_lor, <- Z.add_nocarry_lxor by done.
  by rewrite Z.shiftl_mul_pow2.
Qed.


Lemma lor_mul hi lo n :
  0 <= n -> 0 <= lo < 2 ^ n -> Z.lor (hi * 2 ^ n) lo = hi * 2 ^ n + lo.
Proof.
  intros Hn Hlo. rewrite <- (lor_shiftl hi lo n) by done.
  by rewrite Z.shiftl_mul_pow2.
Qed.

Ltac byte_facts :=
  unfold is_byte, byte_at in *;
  change (256 ^ Z.of_nat 0) with 1; change (256 ^ Z.of_nat 1) with 256;
  change (256 ^ Z.of_nat 2) with 65536.

Lemma decode_group3 a b c :
  is_byte a -> is_byte b -> is_byte c ->
  let n := Z.lor (Z.lor (Z.shiftl (a / 4) 18) (Z.shiftl ((a mod 4) * 16 + b / 16) 12))
                 (Z.lor (Z.shiftl ((b mod 16) * 4 + c / 64) 6) (c mod 64)) in
  byte_at 2 n = a /\ byte_at 1 n = b /\ byte_at 0 n = c.
Proof.
  intros Ha Hb Hc n.
  assert (Hn : n = a * 65536 + b * 256 + c).
  { subst n. unfold is_byte in *.
    rewrite (lor_shiftl ((b mod 16) * 4 + c / 64) (c mod 64) 6)
      by (try lia; change (2 ^ 6) with 64; apply Z.mod_pos_bound; lia).
    rewrite (Z.shiftl_mul_pow2 ((a mod 4) * 16 + b / 16) 12) by lia.
    rewrite (lor_shiftl (a / 4) _ 18)
      by (try lia; change (2 ^ 12) with 4096; change (2 ^ 18) with 262144;
          Z.div_mod_to_equations; lia).
    replace (a / 4 * 2 ^ 18 + ((a mod 4) * 16 + b / 16) * 2 ^ 12)
      with ((a / 4 * 64 + ((a mod 4) * 16 + b / 16)) * 2 ^ 12) by lia.
    rewrite lor_mul
      by (try lia; change (2 ^ 6) with 64; change (2 ^ 12) with 4096;
          Z.div_mod_to_equations; lia).
    change (2 ^ 6) with 64; change (2 ^ 12) with 4096.
    Z.div_mod_to_equations; lia. }
  rewrite Hn. clear Hn n. byte_facts. repeat split; Z.div_mod_to_equations; lia.
Qed.

Lemma decode_group2 a b :
  is_byte a -> is_byte b ->
  let n := Z.shiftr (Z.lor (Z.lor (Z.shiftl (a / 4) 12)
                                  (Z.shiftl ((a mod 4) * 16 + b / 16) 6))
                           ((b mod 16) * 4)) 2 in
  byte_at 1 n = a /\ byte_at 0 n = b.
Proof.
  intros Ha Hb n.
  assert (Hn : n = a * 256 + b).
  { subst n. unfold is_byte in *.
    rewrite (Z.shiftl_mul_pow2 ((a mod 4) * 16 + b / 16) 6) by lia.
    rewrite (lor_shiftl (a / 4) _ 12)
      by (try lia; change (2 ^ 6) with 64; change (2 ^ 12) with 4096;
          Z.div_mod_to_equations; lia).
    replace (a / 4 * 2 ^ 12 + ((a mod 4) * 16 + b / 16) * 2 ^ 6)
      with ((a / 4 * 64 + ((a mod 4) * 16 + b / 16)) * 2 ^ 6) by lia.
    rewrite lor_mul
      by (try lia; change (2 ^ 6) with 64; Z.div_mod_to_equations; lia).
    rewrite Z.shiftr_div_pow2 by lia.
    change (2 ^ 6) with 64; change (2 ^ 2) with 4.
    Z.div_mod_to_equations; lia. }
  rewrite Hn. clear Hn n. byte_facts. split; Z.div_mod_to_equations; lia.
Qed.

Lemma decode_group1 a :
  is_byte a ->
  byte_at 0 (Z.shiftr (Z.lor (Z.shiftl (a / 4) 6) ((a mod 4) * 16)) 4) = a.
Proof.
  intros Ha. unfold is_byte in *.
  rewrite lor_shiftl
    by (try lia; change (2 ^ 6) with 64; Z.div_mod_to_equations; lia).
  rewrite Z.shiftr_div_pow2 by lia. byte_facts.
  change (2 ^ 6) with 64; change (2 ^ 4) with 16.
  Z.div_mod_to_equations; lia.
Qed.

(** Decoding the sextets of a byte sequence gives the bytes back. *)
Lemma decode_sextets_of (bs : buffer) :
  Forall is_byte bs -> decode_sextets (sextets_of bs) = bs.
Proof.
  induction bs as [bs IH] using (induction_ltof1 _ (@length Z)); unfold ltof in IH.
  intros Hb. destruct bs as [|a [|b [|c bs]]].
  - done.
  - apply Forall_cons in Hb as [Ha _]. cbn [sextets_of decode_sextets].
    by rewrite decode_group1.
  - apply Forall_cons in Hb as [Ha Hb]. apply Forall_cons in Hb as [Hb _].
    cbn [sextets_of decode_sextets].
    by destruct (decode_group2 a b Ha Hb) as [-> ->].
  - apply Forall_cons in Hb as [Ha Hb]. apply Forall_cons in Hb as [Hb Hc].
    apply Forall_cons in Hc as [Hc Hrest].
    cbn [sextets_of decode_sextets].
    destruct (decode_group3 a b c Ha Hb Hc) as (-> & -> & ->).
    rewrite IH; [done | simpl; lia | done].
Qed.


Lemma sextets_of_range (bs : buffer) :
  Forall is_byte bs -> Forall (fun v => 0 <= v < 64) (sextets_of bs).
Proof.
  induction bs as [bs IH] using (induction_ltof1 _ (@length Z)); unfold ltof in IH.
  intros Hb. destruct bs as [|a [|b [|c bs]]]; cbn [sextets_of].
  - constructor.
  - apply Forall_cons in Hb as [Ha _]. unfold is_byte in *.
    repeat (apply Forall_cons; split; [Z.div_mod_to_equations; lia |]). constructor.
  - apply Forall_cons in Hb as [Ha Hb]. apply Forall_cons in Hb as [Hb _].
    unfold is_byte in *.
    repeat (apply Forall_cons; split; [Z.div_mod_to_equations; lia |]). constructor.
  - apply Forall_cons in Hb as [Ha Hb]. apply Forall_cons in Hb as [Hb Hc].
    apply Forall_cons in Hc as [Hc Hrest]. unfold is_byte in Ha, Hb, Hc.
    repeat (apply Forall_cons; split; [Z.div_mod_to_equations; lia |]).
    apply IH; [simpl; lia | done].
Qed.

Lemma sextets_of_length (bs : buffer) :
  exists k,
    ((length bs mod 3 = 0 /\ length (sextets_of bs) = 4 * k)
     \/ (length bs mod 3 = 1 /\ length (sextets_of bs) = 4 * k + 2)
     \/ (length bs mod 3 = 2 /\ length (sextets_of bs) = 4 * k + 3))%nat.
Proof.
  induction bs as [bs IH] using (induction_ltof1 _ (@length Z)); unfold ltof in IH.
  destruct bs as [|a [|b [|c bs]]]; cbn [sextets_of length].
  - exists 0%nat. by left.
  - exists 0%nat. right. by left.
  - exists 0%nat. right. by right.
  - destruct (IH bs ltac:(simpl; lia)) as (k & Hk). exists (S k).
    replace (S (S (S (length bs)))) with (length bs + 1 * 3)%nat by lia.
    rewrite Nat.Div0.mod_add. lia.
Qed.

Lemma sextets_chars vs :
  Forall (fun v => 0 <= v < 64) vs -> sextets (map sextet_char vs) = Some vs.
Proof.
  induction 1 as [|v vs Hv _ IH]; [done |].
  cbn [map sextets]. destruct (sextet_char_spec v Hv) as (-> & _).
  cbn [mbind option_bind]. by rewrite IH.
Qed.

Lemma chars_not_padding vs :
  Forall (fun v => 0 <= v < 64) vs ->
  Forall (fun c => c <> "="%char /\ is_ascii_whitespace c = false)
         (map sextet_char vs).
Proof.
  intros H. apply Forall_fmap. eapply Forall_impl; [exact H |].
  intros v Hv. by destruct (sextet_char_spec v Hv) as (_ & ? & ?).
Qed.

Lemma strip_rev_other (c : ascii) (r cs : list ascii) :
  c <> "="%char ->
  match c :: r with
  | "="%char :: "="%char :: r0 => reverse r0
  | "="%char :: r0 => reverse r0
  | _ => cs
  end = cs.
Proof.
  intros Hc. destruct c as [[] [] [] [] [] [] [] []]; try reflexivity.
  by destruct Hc.
Qed.

Lemma strip_rev_one (c : ascii) (r cs : list ascii) :
  c <> "="%char ->
  match "="%char :: c :: r with
  | "="%char :: "="%char :: r0 => reverse r0
  | "="%char :: r0 => reverse r0
  | _ => cs
  end = reverse (c :: r).
Proof.
  intros Hc. destruct c as [[] [] [] [] [] [] [] []]; try reflexivity.
  by destruct Hc.
Qed.

(** Removing the padding of a standard base64 text leaves its alphabet
    characters. *)
Lemma strip_padding_toBase64 (bs : buffer) :
  Forall is_byte bs ->
  strip_padding (map sextet_char (sextets_of bs) ++ padding bs)%list
  = map sextet_char (sextets_of bs).
Proof.
  intros Hb. pose proof (chars_not_padding _ (sextets_of_range bs Hb)) as Hchars.
  destruct (sextets_of_length bs) as (k & Hk).
  set (X := map sextet_char (sextets_of bs)) in *.
  assert (HX : length X = length (sextets_of bs)) by (subst X; apply length_map).
  unfold strip_padding, padding.
  destruct Hk as [[Hm Hl] | [[Hm Hl] | [Hm Hl]]]; rewrite Hm.
  - rewrite app_nil_r, HX, Hl, Nat.mul_comm, Nat.Div0.mod_mul. cbn [Nat.eqb].
    destruct (reverse X) as [|c r] eqn:Hrev; [done |].
    apply strip_rev_other.
    assert (Hin : c ∈ X).
    { apply elem_of_reverse. rewrite Hrev. apply list_elem_of_here. }
    by destruct (proj1 (Forall_forall _ _) Hchars c Hin).
  - rewrite length_app, HX, Hl. cbn [length].
    replace (4 * k + 2 + 2)%nat with ((k + 1) * 4)%nat by lia.
    rewrite Nat.Div0.mod_mul. cbn [Nat.eqb].
    rewrite reverse_app. cbn [reverse rev_append app].
    change (rev_append ?l []) with (reverse l). change (reverse ["="%char; "="%char]) with ["="%char; "="%char].
    cbn [app]. apply reverse_involutive.
  - rewrite length_app, HX, Hl. cbn [length].
    replace (4 * k + 3 + 1)%nat with ((k + 1) * 4)%nat by lia.
    rewrite Nat.Div0.mod_mul. cbn [Nat.eqb].
    rewrite reverse_app. change (reverse ["="%char]) with ["="%char]. cbn [app].
    destruct (reverse X) as [|c r] eqn:Hrev.
    { apply (f_equal length) in Hrev. rewrite length_reverse, HX, Hl in Hrev.
      simpl in Hrev. lia. }
    rewrite (strip_rev_one c r (X ++ ["="%char])%list).
    + by rewrite <- Hrev, reverse_involutive.
    + assert (Hin : c ∈ X).
      { apply elem_of_reverse. rewrite Hrev. apply list_elem_of_here. }
      by destruct (proj1 (Forall_forall _ _) Hchars c Hin).
Qed.

Lemma filter_keeps_all (cs : list ascii) :
  Forall (fun c => is_ascii_whitespace c = false) cs ->
  filter (fun c => is_ascii_whitespace c = false) cs = cs.
Proof.
  induction 1 as [|c cs Hc _ IH]; [done |].
  rewrite filter_cons_True by done. by rewrite IH.
Qed.

Lemma filter_toBase64 (bs : buffer) :
  Forall is_byte bs ->
  filter (fun c => is_ascii_whitespace c = false)
         (map sextet_char (sextets_of bs) ++ padding bs)%list
  = (map sextet_char (sextets_of bs) ++ padding bs)%list.
Proof.
  intros Hb. apply filter_keeps_all. apply Forall_app. split.
  - eapply Forall_impl; [apply (chars_not_padding _ (sextets_of_range bs Hb)) |].
    by intros c [_ ?].
  - unfold padding. destruct (length bs mod 3)%nat as [|[|[|?]]]; repeat constructor.
Qed.

Lemma charCode_of_byte b :
  is_byte b -> charCode (ascii_of_nat (Z.to_nat b)) = b.
Proof.
  unfold is_byte, charCode. intros Hb. rewrite nat_ascii_embedding by lia. lia.
Qed.

(** X23: [base64ToArrayBuffer] inverts standard base64: for every byte
    sequence, decoding its padded base64 text gives exactly the bytes back
    (nothing is lost or added at a group boundary or in the padded tail). *)
Theorem base64ToArrayBuffer_toBase64 (bs : buffer) :
  Forall is_byte bs -> base64ToArrayBuffer (toBase64 bs) = Ok bs.
Proof.
  intros Hb.
  assert (Hatob : atob (toBase64 bs)
                  = Ok (string_of_list_ascii
                          (map (fun b => ascii_of_nat (Z.to_nat b)) bs))).
  { unfold atob, toBase64. rewrite list_ascii_of_string_of_list_ascii.
    rewrite filter_toBase64, strip_padding_toBase64 by done.
    rewrite length_map.
    destruct (sextets_of_length bs) as (k & Hk).
    assert (Hm : (length (sextets_of bs) mod 4 =? 1)%nat = false).
    { apply Nat.eqb_neq.
      destruct Hk as [[_ ->] | [[_ ->] | [_ ->]]];
        rewrite 1?Nat.add_comm, Nat.mul_comm, ?Nat.Div0.mod_add, ?Nat.Div0.mod_mul;
        done. }
    rewrite Hm, (sextets_chars _ (sextets_of_range bs Hb)).
    by rewrite decode_sextets_of. }
  rewrite (base64ToArrayBuffer_atob _ _ Hatob).
  rewrite list_ascii_of_string_of_list_ascii, map_map. f_equal.
  rewrite <- (map_id bs) at 2. apply map_ext_Forall.
  eapply Forall_impl; [exact Hb |]. intros b Hbyte. by apply charCode_of_byte.
Qed.

Lemma base64ToArrayBuffer_toBase64_witness :
  base64ToArrayBuffer (toBase64 [100; 0; 156; 255]) = Ok [100; 0; 156; 255].
Proof.
  apply (base64ToArrayBuffer_toBase64 [100; 0; 156; 255]).
  repeat constructor; unfold is_byte; lia.
Defined.

End Base64Extras.
